(** * RMS Work Assistant: streaming protocol and page-automation pipeline

    A shallow embedding of the extension's JavaScript sources:
    - [src/sidepanel/sidepanel.js]      (module [SidePanel])
    - [src/content/browser-tools.js]    (module [BrowserTools])
    - [src/content/page-watcher.js]     (module [PageWatcher])
    - the service worker               (modules [Worker] and [Listener])
    - the earlier service worker that owned the socket (module [LegacyWorker])
    - the context bar of the side panel and the page snapshots
      (modules [ContextBar] and [PageState])

    JavaScript objects that the code mutates in place live in explicit
    stores (lists indexed by position); the browser (DOM queries, chrome.*
    calls, the clock) is an explicit argument of every function that
    consults it. *)

From stdpp Require Import base option list strings gmap.
From Stdlib Require Import ZArith Ascii DecimalString Lia.

Open Scope string_scope.
Open Scope nat_scope.
Open Scope list_scope.

(** ** JavaScript values and string primitives *)

Module JS.

(** A value as it arrives in a JSON frame (numbers are kept integral). *)
#[warnings="-register-all"]
Inductive json :=
| JUndefined
| JNull
| JBool (b : bool)
| JNum (n : Z)
| JStr (s : string)
| JArr (items : list json)
| JObj (fields : list (string * json)).

(** ToBoolean. *)
Definition truthy (v : json) : bool :=
  match v with
  | JUndefined | JNull => false
  | JBool b => b
  | JNum n => negb (n =? 0)%Z
  | JStr s => negb (String.eqb s "")
  | JArr _ | JObj _ => true
  end.

(** [a || b] on values. *)
Definition or_else (a b : json) : json := if truthy a then a else b.

(** Own property of an object literal; a later duplicate key wins, as in
    JSON.parse. *)
Fixpoint assoc_last (k : string) (fields : list (string * json)) : option json :=
  match fields with
  | [] => None
  | (k', v) :: rest =>
      match assoc_last k rest with
      | Some v' => Some v'
      | None => if String.eqb k k' then Some v else None
      end
  end.

(** [v.k] for a truthy receiver [v]: own fields of objects, and the
    [length] of arrays and strings. *)
Definition get (v : json) (k : string) : json :=
  match v with
  | JObj fields => default JUndefined (assoc_last k fields)
  | JArr items => if String.eqb k "length" then JNum (Z.of_nat (length items)) else JUndefined
  | JStr s => if String.eqb k "length" then JNum (Z.of_nat (String.length s)) else JUndefined
  | _ => JUndefined
  end.

Definition isArray (v : json) : bool :=
  match v with JArr _ => true | _ => false end.

Definition string_of_Z (n : Z) : string := NilZero.string_of_int (Z.to_int n).

Fixpoint join (sep : string) (parts : list string) : string :=
  match parts with
  | [] => ""
  | [p] => p
  | p :: rest => p +:+ sep +:+ join sep rest
  end.

(** ToString, as a template literal applies it. *)
Fixpoint toString (v : json) : string :=
  match v with
  | JUndefined => "undefined"
  | JNull => "null"
  | JBool true => "true"
  | JBool false => "false"
  | JNum n => string_of_Z n
  | JStr s => s
  | JArr items =>
      join ","
        ((fix each (l : list json) : list string :=
            match l with
            | [] => []
            | JUndefined :: l' | JNull :: l' => "" :: each l'
            | x :: l' => toString x :: each l'
            end) items)
  | JObj _ => "[object Object]"
  end.

(** [a !== b] where [b] is a number literal. *)
Definition strict_ne_num (a : json) (n : Z) : bool :=
  match a with JNum m => negb (m =? n)%Z | _ => true end.

(** String.prototype.toLowerCase on the ASCII letters. *)
Definition lower_ascii (c : ascii) : ascii :=
  let n := nat_of_ascii c in
  if (65 <=? n)%nat && (n <=? 90)%nat then ascii_of_nat (n + 32) else c.

Fixpoint toLowerCase (s : string) : string :=
  match s with
  | EmptyString => EmptyString
  | String c s' => String (lower_ascii c) (toLowerCase s')
  end.

Definition startsWith (s p : string) : bool := String.prefix p s.

(** [s.includes(sub)]. *)
Fixpoint includes (s sub : string) : bool :=
  String.prefix sub s ||
  match s with
  | EmptyString => false
  | String _ s' => includes s' sub
  end.

(** [s.substring(0, n)]. *)
Definition take_chars (n : nat) (s : string) : string := String.substring 0 n s.

(** White space as String.prototype.trim and the class [\s] know it,
    among the characters that a string holds here (the code units below
    256): tab to carriage return, the space and the no-break space. *)
Definition is_space (c : ascii) : bool :=
  let n := nat_of_ascii c in
  (n =? 32)%nat || ((9 <=? n)%nat && (n <=? 13)%nat) || (n =? 160)%nat.

(** [s.trim()] is empty: only white space in [s]. *)
Fixpoint is_blank (s : string) : bool :=
  match s with
  | EmptyString => true
  | String c s' => is_space c && is_blank s'
  end.

(** The double-quote character, for selectors and messages that embed it. *)
Definition dquote : string := String (ascii_of_nat 34) EmptyString.

(** The strings of a list, one after the other. *)
Definition concat_strings (parts : list string) : string :=
  foldr String.app "" parts.

(** [arr.slice(-n)]. *)
Definition slice_last {A} (n : nat) (l : list A) : list A := drop (length l - n) l.

End JS.

(** ** The side panel: conversation state, dispatcher, transport *)

Module SidePanel.
Import JS.

(** CONFIG *)
Definition reconnectDelay : Z := 3000.
Definition maxReconnectAttempts : nat := 5.

Record tab := { tab_id : Z; tab_url : string; tab_title : string }.

(** An entry of [state.messages]; absent properties are [None]/[false]. *)
Record message := {
  role : string;
  content : string;
  timestamp : Z;
  mid : option string;          (* id *)
  streaming : bool;
  mtype : option string;        (* type *)
  toolId : option string;
  toolKey : option string;
  toolStatus : option string;
  toolArgs : json;
  toolSummary : option string
}.

Definition plain_message (r c : string) (now : Z) : message :=
  {| role := r; content := c; timestamp := now; mid := None; streaming := false;
     mtype := None; toolId := None; toolKey := None; toolStatus := None;
     toolArgs := JUndefined; toolSummary := None |}.

Definition set_content (c : string) (m : message) : message :=
  {| role := role m; content := c; timestamp := timestamp m; mid := mid m;
     streaming := streaming m; mtype := mtype m; toolId := toolId m;
     toolKey := toolKey m; toolStatus := toolStatus m; toolArgs := toolArgs m;
     toolSummary := toolSummary m |}.

Definition set_tool_outcome (status summary : string) (m : message) : message :=
  {| role := role m; content := content m; timestamp := timestamp m; mid := mid m;
     streaming := streaming m; mtype := mtype m; toolId := toolId m;
     toolKey := toolKey m; toolStatus := Some status; toolArgs := toolArgs m;
     toolSummary := Some summary |}.

(** An entry of [state.pendingFiles]. *)
Record attachment := {
  att_name : string;
  att_mimeType : string;
  att_base64 : string;
  att_size : Z
}.

(** A browser File as [handleFiles] reads it. *)
Record File := { file_name : string; file_type : string; file_size : Z }.

(** The [data] object of a [browser_action] frame. *)
Record browserAction := {
  actionId : string;
  action : string;
  url : string;
  tab_id_arg : Z;
  script : string;
  selector : string;
  value : string;
  label_contains : string;
  select_first : option bool
}.

(** Inbound frames, by their [type] tag. *)
Inductive frame :=
| response_start
| response_chunk (chunk : string)
| response_end
| tool_call (tool : string) (args : json)
| tool_result (result : json)
| action_request (aid act target : string)
| error_frame (msg : string)
| structured_data (dataType : string) (data : json)
| suggested_task (taskId : string)
| task_created (taskId : string)
| browser_action (a : browserAction)
| agent_message (msg : string)
| carrier_quote_progress (carrier status : string)
| other_frame (tag : string).

(** Frames handed to [ws.send]. *)
Inductive outframe :=
| out_message (text : string) (tabState : option tab) (files : option (list attachment))
| out_action_response (aid : string) (approved : bool)
| out_tab_state (t : tab)
| out_browser_action_result (aid : string) (result : json)
| out_create_task (taskId leadId : string).

(** What a rendered element shows.  [BMessage c] stands for the markup
    [formatMessage(c)]; a tool card keeps its title and its summary line. *)
Inductive body :=
| BMessage (c : string)
| BToolLoading (loadingText : string)
| BToolDone (isError : bool) (name summary : string)
| BThinking
| BCard.

(** A child of the messages container, in document order. *)
Record node := { nid : string; nclasses : list string; nbody : body }.

Inductive readyState := CONNECTING | OPEN | CLOSING | CLOSED.

Inductive timer :=
| TReconnect (delay : Z)          (* setTimeout(connectWebSocket, delay) *)
| TMock (delay : Z) (text : string).

(** The module-level [state] object, with [currentStreamId] and
    [currentToolId], which the dispatcher adds to it. *)
Record state := {
  ws : option readyState;
  connected : bool;
  reconnectAttempts : nat;
  messages : list message;
  currentTab : option tab;
  pendingAction : option (string * string * string);
  isStreaming : bool;
  pendingFiles : list attachment;
  currentStreamId : option string;
  currentToolId : option string
}.

(** What the script acts on besides [state]. *)
Record world := {
  dom : list node;                  (* children of the messages container *)
  stored : option (list message);   (* chrome.storage.local[messageHistoryKey] *)
  sent : list outframe;             (* arguments of ws.send, oldest first *)
  alerts : list string;
  timers : list timer;
  posted : list browserAction       (* EXECUTE_BROWSER_ACTION requests awaiting their callback *)
}.

Definition panel : Type := state * world.

Definition initial_state : state :=
  {| ws := None; connected := false; reconnectAttempts := 0; messages := [];
     currentTab := None; pendingAction := None; isStreaming := false;
     pendingFiles := []; currentStreamId := None; currentToolId := None |}.

(** *** Field updates *)

Definition with_ws v (s : state) : state :=
  {| ws := v; connected := connected s; reconnectAttempts := reconnectAttempts s;
     messages := messages s; currentTab := currentTab s; pendingAction := pendingAction s;
     isStreaming := isStreaming s; pendingFiles := pendingFiles s;
     currentStreamId := currentStreamId s; currentToolId := currentToolId s |}.
Definition with_connected v (s : state) : state :=
  {| ws := ws s; connected := v; reconnectAttempts := reconnectAttempts s;
     messages := messages s; currentTab := currentTab s; pendingAction := pendingAction s;
     isStreaming := isStreaming s; pendingFiles := pendingFiles s;
     currentStreamId := currentStreamId s; currentToolId := currentToolId s |}.
Definition with_reconnectAttempts v (s : state) : state :=
  {| ws := ws s; connected := connected s; reconnectAttempts := v;
     messages := messages s; currentTab := currentTab s; pendingAction := pendingAction s;
     isStreaming := isStreaming s; pendingFiles := pendingFiles s;
     currentStreamId := currentStreamId s; currentToolId := currentToolId s |}.
Definition with_messages v (s : state) : state :=
  {| ws := ws s; connected := connected s; reconnectAttempts := reconnectAttempts s;
     messages := v; currentTab := currentTab s; pendingAction := pendingAction s;
     isStreaming := isStreaming s; pendingFiles := pendingFiles s;
     currentStreamId := currentStreamId s; currentToolId := currentToolId s |}.
Definition with_pendingAction v (s : state) : state :=
  {| ws := ws s; connected := connected s; reconnectAttempts := reconnectAttempts s;
     messages := messages s; currentTab := currentTab s; pendingAction := v;
     isStreaming := isStreaming s; pendingFiles := pendingFiles s;
     currentStreamId := currentStreamId s; currentToolId := currentToolId s |}.
Definition with_isStreaming v (s : state) : state :=
  {| ws := ws s; connected := connected s; reconnectAttempts := reconnectAttempts s;
     messages := messages s; currentTab := currentTab s; pendingAction := pendingAction s;
     isStreaming := v; pendingFiles := pendingFiles s;
     currentStreamId := currentStreamId s; currentToolId := currentToolId s |}.
Definition with_pendingFiles v (s : state) : state :=
  {| ws := ws s; connected := connected s; reconnectAttempts := reconnectAttempts s;
     messages := messages s; currentTab := currentTab s; pendingAction := pendingAction s;
     isStreaming := isStreaming s; pendingFiles := v;
     currentStreamId := currentStreamId s; currentToolId := currentToolId s |}.
Definition with_currentStreamId v (s : state) : state :=
  {| ws := ws s; connected := connected s; reconnectAttempts := reconnectAttempts s;
     messages := messages s; currentTab := currentTab s; pendingAction := pendingAction s;
     isStreaming := isStreaming s; pendingFiles := pendingFiles s;
     currentStreamId := v; currentToolId := currentToolId s |}.
Definition with_currentToolId v (s : state) : state :=
  {| ws := ws s; connected := connected s; reconnectAttempts := reconnectAttempts s;
     messages := messages s; currentTab := currentTab s; pendingAction := pendingAction s;
     isStreaming := isStreaming s; pendingFiles := pendingFiles s;
     currentStreamId := currentStreamId s; currentToolId := v |}.

Definition with_dom v (w : world) : world :=
  {| dom := v; stored := stored w; sent := sent w; alerts := alerts w;
     timers := timers w; posted := posted w |}.
Definition with_stored v (w : world) : world :=
  {| dom := dom w; stored := v; sent := sent w; alerts := alerts w;
     timers := timers w; posted := posted w |}.
Definition with_sent v (w : world) : world :=
  {| dom := dom w; stored := stored w; sent := v; alerts := alerts w;
     timers := timers w; posted := posted w |}.
Definition with_alerts v (w : world) : world :=
  {| dom := dom w; stored := stored w; sent := sent w; alerts := v;
     timers := timers w; posted := posted w |}.
Definition with_timers v (w : world) : world :=
  {| dom := dom w; stored := stored w; sent := sent w; alerts := alerts w;
     timers := v; posted := posted w |}.
Definition with_posted v (w : world) : world :=
  {| dom := dom w; stored := stored w; sent := sent w; alerts := alerts w;
     timers := timers w; posted := v |}.

Definition on_state (f : state -> state) (p : panel) : panel := (f p.1, p.2).
Definition on_world (f : world -> world) (p : panel) : panel := (p.1, f p.2).

(** *** Rendering *)

(** TOOL_DISPLAY: display name and loading text per tool key. *)
Definition TOOL_DISPLAY_table : list (string * (string * string)) :=
  [ ("search_leads", ("Close CRM Search", "Searching Close CRM..."));
    ("get_lead", ("Close CRM Lookup", "Fetching lead details..."));
    ("get_lead_activities", ("Close CRM Activities", "Loading activities..."));
    ("search_insured", ("NowCerts Search", "Searching NowCerts..."));
    ("get_insured", ("NowCerts Lookup", "Fetching insured details..."));
    ("get_policies", ("NowCerts Policies", "Loading policies..."));
    ("get_certificates", ("NowCerts Certificates", "Loading certificates..."));
    ("get_dot_info", ("FMCSA DOT Lookup", "Looking up DOT number..."));
    ("search_by_name", ("FMCSA Name Search", "Searching FMCSA..."));
    ("navigate", ("Navigate", "Navigating..."));
    ("click", ("Click Element", "Clicking..."));
    ("fill_form", ("Fill Form", "Filling form..."));
    ("screenshot", ("Screenshot", "Taking screenshot..."));
    ("default", ("Tool", "Working...")) ].

Fixpoint assoc_first {V} (k : string) (l : list (string * V)) : option V :=
  match l with
  | [] => None
  | (k', v) :: rest => if String.eqb k k' then Some v else assoc_first k rest
  end.

(** What TOOL_DISPLAY, an object literal, inherits from Object.prototype:
    each property with the [name] of its value as a template literal
    prints it.  These values are truthy and have no [loadingText]. *)
Definition inherited_properties : list (string * string) :=
  [ ("constructor", "Object");
    ("__defineGetter__", "__defineGetter__");
    ("__defineSetter__", "__defineSetter__");
    ("hasOwnProperty", "hasOwnProperty");
    ("__lookupGetter__", "__lookupGetter__");
    ("__lookupSetter__", "__lookupSetter__");
    ("isPrototypeOf", "isPrototypeOf");
    ("propertyIsEnumerable", "propertyIsEnumerable");
    ("toString", "toString");
    ("valueOf", "valueOf");
    ("__proto__", "undefined");
    ("toLocaleString", "toLocaleString") ].

(** [TOOL_DISPLAY[key] || TOOL_DISPLAY['default']]: the [name] and the
    [loadingText] of the result, as a template literal prints them. *)
Definition toolInfo (key : option string) : string * string :=
  match key ≫= λ k, assoc_first k TOOL_DISPLAY_table with
  | Some info => info
  | None =>
      match key ≫= λ k, assoc_first k inherited_properties with
      | Some name => (name, "undefined")
      | None => ("Tool", "Working...")
      end
  end.

(** escapeHtml: the serialisation of a text node. *)
Fixpoint escapeHtml (text : string) : string :=
  match text with
  | EmptyString => EmptyString
  | String c rest =>
      let n := nat_of_ascii c in
      (if (n =? 38)%nat then "&amp;"
       else if (n =? 60)%nat then "&lt;"
       else if (n =? 62)%nat then "&gt;"
       else if (n =? 160)%nat then "&nbsp;"
       else String c EmptyString) +:+ escapeHtml rest
  end.

Definition has_class (c : string) (n : node) : bool :=
  existsb (String.eqb c) (nclasses n).

(** Removes the first node that satisfies [f] ([el.remove()] on the result
    of a query). *)
Fixpoint remove_first (f : node -> bool) (l : list node) : list node :=
  match l with
  | [] => []
  | n :: rest => if f n then rest else n :: remove_first f rest
  end.

(** document.getElementById: position and node of the first match; an
    element without an id (empty [nid]) is never found. *)
Definition getElementById (i : string) (d : list node) : option (nat * node) :=
  if String.eqb i "" then None else list_find (λ n, nid n = i) d.

(** [a || b] on optional strings. *)
Definition str_or (a : option string) (b : string) : string :=
  match a with
  | Some s => if String.eqb s "" then b else s
  | None => b
  end.

Definition renderMessage (m : message) (p : panel) : panel :=
  let d := dom p.2 in
  let d :=
    if existsb (has_class "welcome-message") d && (0 <? length (messages p.1))%nat
    then remove_first (has_class "welcome-message") d else d in
  let div :=
    if bool_decide (mtype m = Some "tool") then
      let info := toolInfo (toolKey m) in
      if bool_decide (toolStatus m = Some "complete") then
        {| nid := str_or (toolId m) ""; nclasses := ["tool-card"; "complete"];
           nbody := BToolDone false info.1 (escapeHtml (str_or (toolSummary m) "Done")) |}
      else if bool_decide (toolStatus m = Some "error") then
        {| nid := str_or (toolId m) ""; nclasses := ["tool-card"; "error"];
           nbody := BToolDone true info.1 (escapeHtml (str_or (toolSummary m) "Error")) |}
      else
        {| nid := str_or (toolId m) ""; nclasses := ["tool-card"; "loading"];
           nbody := BToolLoading info.2 |}
    else
      {| nid := str_or (mid m) "";
         nclasses := ["message"; role m] ++ (if streaming m then ["streaming"] else []);
         nbody := BMessage (content m) |} in
  on_world (with_dom (d ++ [div])) p.

Definition set_body (b : body) (n : node) : node :=
  {| nid := nid n; nclasses := nclasses n; nbody := b |}.
Definition set_classes (c : list string) (n : node) : node :=
  {| nid := nid n; nclasses := c; nbody := nbody n |}.

Definition updateStreamingMessage (i c : string) (p : panel) : panel :=
  match getElementById i (dom p.2) with
  | Some (k, div) => on_world (with_dom (<[k := set_body (BMessage c) div]> (dom p.2))) p
  | None => p
  end.

Definition finishStreamingMessage (i : string) (p : panel) : panel :=
  let p :=
    match getElementById i (dom p.2) with
    | Some (k, div) =>
        on_world (with_dom
          (<[k := set_classes (filter (λ c, c ≠ "streaming") (nclasses div)) div]> (dom p.2))) p
    | None => p
    end in
  on_state (with_isStreaming false) p.

Definition showThinkingIndicator (p : panel) : panel :=
  on_world (with_dom (dom p.2 ++
    [{| nid := "thinking"; nclasses := ["thinking-indicator"]; nbody := BThinking |}])) p.

Definition hideThinkingIndicator (p : panel) : panel :=
  on_world (with_dom (remove_first (λ n, bool_decide (nid n = "thinking")) (dom p.2))) p.

(** *** Persistence *)

(** saveMessages: the last 100 messages go to storage. *)
Definition saveMessages (p : panel) : panel :=
  on_world (with_stored (Some (slice_last 100 (messages p.1)))) p.

(** loadMessages: each stored message is pushed and rendered. *)
Definition loadMessages (p : panel) : panel :=
  let saved := default [] (stored p.2) in
  let p :=
    if (0 <? length saved)%nat
    then on_world (with_dom (remove_first (has_class "welcome-message") (dom p.2))) p
    else p in
  foldl (λ q msg, renderMessage msg (on_state (with_messages (messages q.1 ++ [msg])) q)) p saved.

(** addMessage(role, content, options): [m] is the message object built
    from the arguments and the clock. *)
Definition addMessage (m : message) (p : panel) : panel :=
  saveMessages (renderMessage m (on_state (with_messages (messages p.1 ++ [m])) p)).

(** *** Tool result summaries *)

(** [`Found ${n} ${noun}${n !== 1 ? 's' : ''}`] *)
Definition found_count (n : json) (noun : string) : string :=
  "Found " +:+ toString n +:+ " " +:+ noun +:+ (if strict_ne_num n 1 then "s" else "").

Definition summarizeToolResult (toolKey : option string) (result : json) : string :=
  if negb (truthy result) then "No results" else
  match result with
  | JStr s =>
      if startsWith s "Error" then take_chars 100 s
      else if (80 <? String.length s)%nat then take_chars 77 s +:+ "..."
      else s
  | _ =>
      let fallthrough :=
        match result with
        | JArr items =>
            "Returned " +:+ toString (get result "length") +:+ " item" +:+
            (if strict_ne_num (get result "length") 1 then "s" else "")
        | JObj _ => "Data retrieved"
        | _ => "Done"
        end in
      if bool_decide (toolKey = Some "search_leads") then
        if truthy (get result "leads")
        then found_count (get (get result "leads") "length") "lead"
        else if isArray result then found_count (get result "length") "lead"
        else fallthrough
      else if bool_decide (toolKey = Some "get_lead") then
        if truthy (or_else (get result "name") (get result "display_name"))
        then "Loaded: " +:+ toString (or_else (get result "name") (get result "display_name"))
        else fallthrough
      else if bool_decide (toolKey = Some "search_insured") then
        if truthy (get result "value")
        then found_count (get (get result "value") "length") "insured"
        else if isArray result then found_count (get result "length") "insured"
        else fallthrough
      else if bool_decide (toolKey = Some "get_dot_info") then
        if truthy (get result "carrier")
        then "Found: " +:+
             toString (or_else (get (get result "carrier") "legalName")
                        (or_else (get (get result "carrier") "dbaName") (JStr "Carrier")))
        else if truthy (get result "legalName")
        then "Found: " +:+ toString (get result "legalName")
        else fallthrough
      else if bool_decide (toolKey = Some "get_policies") then
        if isArray result
        then "Found " +:+ toString (get result "length") +:+ " polic" +:+
             (if strict_ne_num (get result "length") 1 then "ies" else "y")
        else fallthrough
      else if bool_decide (toolKey = Some "navigate") then "Navigation complete"
      else if bool_decide (toolKey = Some "click") then "Click complete"
      else if bool_decide (toolKey = Some "fill_form") then "Form filled"
      else if bool_decide (toolKey = Some "screenshot") then "Screenshot captured"
      else fallthrough
  end.

(** [data.result && (data.result.error || (typeof data.result === 'string'
    && data.result.startsWith('Error')))], as a condition. *)
Definition isErrorResult (result : json) : bool :=
  truthy result &&
  (truthy (get result "error") ||
   match result with JStr s => startsWith s "Error" | _ => false end).

(** *** Protocol dispatcher *)

Definition nullish (v : json) : bool :=
  match v with JUndefined | JNull => true | _ => false end.

(** renderDataCard(dataType, data) throws before it appends the card:
    the four card renderers read properties of [data], which throws on
    null and undefined, and renderLeadCard calls [toLowerCase] on the
    status it finds, which throws unless that is a string. *)
Definition renderDataCard_throws (dataType : string) (data : json) : bool :=
  if String.eqb dataType "lead" then
    nullish data ||
    match or_else (get data "status") (or_else (get data "status_label") (JStr "Unknown")) with
    | JStr _ => false
    | _ => true
    end
  else if String.eqb dataType "policy" || String.eqb dataType "dot" ||
          String.eqb dataType "insured"
  then nullish data
  else false.

(** [classList.add(c)] *)
Definition classList_add (c : string) (classes : list string) : list string :=
  if existsb (String.eqb c) classes then classes else classes ++ [c].

(** A truthy id. *)
Definition current (i : option string) : option string :=
  match i with
  | Some s => if String.eqb s "" then None else Some s
  | None => None
  end.

Definition send (f : outframe) (p : panel) : panel :=
  on_world (with_sent (sent p.2 ++ [f])) p.

(** handleServerMessage(data); [now] is the reading of Date.now() taken
    while the frame is handled (the readings within one call are taken to
    be equal). *)
Definition handleServerMessage (now : Z) (data : frame) (p : panel) : panel :=
  match data with
  | response_start =>
      let p := hideThinkingIndicator p in
      let p := on_state (with_isStreaming true) p in
      let streamId := "stream-" +:+ string_of_Z now in
      let streamMsg :=
        {| role := "assistant"; content := ""; timestamp := now; mid := Some streamId;
           streaming := true; mtype := None; toolId := None; toolKey := None;
           toolStatus := None; toolArgs := JUndefined; toolSummary := None |} in
      let p := on_state (with_messages (messages p.1 ++ [streamMsg])) p in
      let p := renderMessage streamMsg p in
      on_state (with_currentStreamId (Some streamId)) p
  | response_chunk chunk =>
      match current (currentStreamId p.1) with
      | Some sid =>
          match list_find (λ m, mid m = Some sid) (messages p.1) with
          | Some (k, msg) =>
              let text := content msg +:+ chunk in
              let p := on_state (with_messages (<[k := set_content text msg]> (messages p.1))) p in
              updateStreamingMessage sid text p
          | None => p
          end
      | None => p
      end
  | response_end =>
      match current (currentStreamId p.1) with
      | Some sid =>
          let p := finishStreamingMessage sid p in
          let p := on_state (with_currentStreamId None) p in
          saveMessages p
      | None => p
      end
  | tool_call tool args =>
      let tid := "tool-" +:+ string_of_Z now in
      let p :=
        addMessage
          {| role := "assistant"; content := ""; timestamp := now; mid := None;
             streaming := false; mtype := Some "tool"; toolId := Some tid;
             toolKey := Some tool; toolStatus := Some "loading"; toolArgs := args;
             toolSummary := None |} p in
      on_state (with_currentToolId (Some tid)) p
  | tool_result result =>
      match current (currentToolId p.1) with
      | Some tid =>
          let p :=
            match getElementById tid (dom p.2),
                  list_find (λ m, toolId m = Some tid) (messages p.1) with
            | Some (j, toolCard), Some (k, toolMsg) =>
                let info := toolInfo (toolKey toolMsg) in
                let summary := summarizeToolResult (toolKey toolMsg) result in
                let isError := isErrorResult result in
                let status := if isError then "error" else "complete" in
                let p := on_state (with_messages
                           (<[k := set_tool_outcome status summary toolMsg]> (messages p.1))) p in
                on_world (with_dom
                  (<[j := {| nid := nid toolCard; nclasses := ["tool-card"; status];
                             nbody := BToolDone isError info.1 (escapeHtml summary) |}]>
                     (dom p.2))) p
            | _, _ => p
            end in
          on_state (with_currentToolId None) p
      | None => p
      end
  | action_request aid act target =>
      on_state (with_pendingAction (Some (aid, act, target))) p
  | error_frame msg =>
      addMessage (plain_message "assistant" ("Error: " +:+ msg) now) (hideThinkingIndicator p)
  | structured_data dataType data =>
      if renderDataCard_throws dataType data then p else
      on_world (with_dom (dom p.2 ++
        [{| nid := ""; nclasses := ["data-card"; dataType +:+ "-card"]; nbody := BCard |}])) p
  | suggested_task taskId =>
      on_world (with_dom (dom p.2 ++
        [{| nid := "task-" +:+ taskId; nclasses := ["task-suggestion"]; nbody := BCard |}])) p
  | task_created taskId =>
      match getElementById ("task-" +:+ taskId) (dom p.2) with
      | Some (k, div) =>
          on_world (with_dom
            (<[k := set_classes (classList_add "created" (nclasses div)) div]> (dom p.2))) p
      | None => p
      end
  | browser_action a =>
      on_world (with_posted (posted p.2 ++ [a])) p
  | agent_message msg =>
      saveMessages (addMessage (plain_message "assistant" msg now) (hideThinkingIndicator p))
  | carrier_quote_progress _ _ => p
  | other_frame _ => p
  end.

(** The callback that chrome.runtime.sendMessage runs with the service
    worker's answer to an EXECUTE_BROWSER_ACTION request for [a]
    ([JUndefined] when there is none). *)
Definition browserActionCallback (a : browserAction) (response : json) (p : panel) : panel :=
  match ws p.1 with
  | Some OPEN =>
      send (out_browser_action_result (actionId a)
              (or_else response (JObj [("error", JStr "No response from service worker")]))) p
  | _ => p
  end.

(** *** Transport *)

Definition sendTabState (p : panel) : panel :=
  match ws p.1, currentTab p.1 with
  | Some _, Some t => send (out_tab_state t) p
  | _, _ => p
  end.

(** connectWebSocket: a new socket unless the current one is open. *)
Definition connectWebSocket (p : panel) : panel :=
  match ws p.1 with
  | Some OPEN => p
  | _ => on_state (with_ws (Some CONNECTING)) p
  end.

(** state.ws.onopen, once the socket has become OPEN. *)
Definition onopen (p : panel) : panel :=
  let p := on_state (with_ws (Some OPEN)) p in
  let p := on_state (with_connected true) p in
  let p := on_state (with_reconnectAttempts 0) p in
  sendTabState p.

(** state.ws.onclose, once the socket has become CLOSED. *)
Definition onclose (p : panel) : panel :=
  let p := on_state (with_ws (Some CLOSED)) p in
  let p := on_state (with_connected false) p in
  if (reconnectAttempts p.1 <? maxReconnectAttempts)%nat then
    let p := on_state (with_reconnectAttempts (S (reconnectAttempts p.1))) p in
    on_world (with_timers (timers p.2 ++ [TReconnect reconnectDelay])) p
  else p.

(** *** Attachments and sending *)

Definition maxSize : Z := 10 * 1024 * 1024.
Definition allowedTypes : list string :=
  ["application/pdf"; "image/png"; "image/jpeg"; "image/jpg"].

Definition alert (text : string) (p : panel) : panel :=
  on_world (with_alerts (alerts p.2 ++ [text])) p.

(** The two messages that handleFiles shows. *)
Definition too_large_text (file : File) : string :=
  "File " +:+ dquote +:+ file_name file +:+ dquote +:+ " is too large. Max size is 10MB.".
Definition unsupported_text (file : File) : string :=
  "File " +:+ dquote +:+ file_name file +:+ dquote +:+ " is not supported. Use PDF, PNG, or JPG.".

(** handleFiles(fileList); [fileToBase64] is the FileReader's answer for a
    file ([None]: the read fails and the promise rejects, which abandons
    the loop). *)
Fixpoint handleFiles (fileToBase64 : File -> option string) (fileList : list File)
    (p : panel) : panel :=
  match fileList with
  | [] => p
  | file :: rest =>
      if (maxSize <? file_size file)%Z then
        handleFiles fileToBase64 rest (alert (too_large_text file) p)
      else if negb (existsb (String.eqb (file_type file)) allowedTypes) then
        handleFiles fileToBase64 rest (alert (unsupported_text file) p)
      else
        match fileToBase64 file with
        | Some base64 =>
            handleFiles fileToBase64 rest
              (on_state (with_pendingFiles (pendingFiles p.1 ++
                 [{| att_name := file_name file; att_mimeType := file_type file;
                     att_base64 := base64; att_size := file_size file |}])) p)
        | None => p
        end
  end.

(** The remove button of the file preview: [state.pendingFiles.splice(idx, 1)]. *)
Definition removePendingFile (idx : nat) (p : panel) : panel :=
  on_state (with_pendingFiles (delete idx (pendingFiles p.1))) p.

Definition clearPendingFiles (p : panel) : panel :=
  on_state (with_pendingFiles []) p.

Definition newline : string := String (ascii_of_nat 10) EmptyString.

(** sendMessage(content) *)
Definition sendMessage (now : Z) (text : string) (p : panel) : panel :=
  let hasFiles := (0 <? length (pendingFiles p.1))%nat in
  if is_blank text && negb hasFiles then p else
  let fileNames := join ", " (att_name <$> pendingFiles p.1) in
  let displayContent :=
    if hasFiles then
      if String.eqb text "" then "[Attached: " +:+ fileNames +:+ "]"
      else text +:+ newline +:+ "[Attached: " +:+ fileNames +:+ "]"
    else text in
  let p := addMessage (plain_message "user" displayContent now) p in
  let filesToSend := pendingFiles p.1 in
  let p := clearPendingFiles p in
  let p := showThinkingIndicator p in
  match connected p.1, ws p.1 with
  | true, Some _ =>
      send (out_message (if String.eqb text "" then "Please analyze this file." else text)
              (currentTab p.1)
              (if (0 <? length filesToSend)%nat then Some filesToSend else None)) p
  | _, _ =>
      on_world (with_timers (timers p.2 ++ [TMock 500 text])) p
  end.

(** *** What storage holds *)

(** The stored history, when there is one, has at most 100 entries. *)
Definition snapshot_capped (w : world) : Prop :=
  match stored w with
  | Some saved => length saved ≤ 100
  | None => True
  end.

(** *** One stream, from its start to its end *)

(** The id that response_start gives a stream opened at clock reading [t0]. *)
Definition stream_id (t0 : Z) : string := "stream-" +:+ string_of_Z t0.

(** The message of that stream once it holds [text]. *)
Definition opened (t0 : Z) (text : string) : message :=
  {| role := "assistant"; content := text; timestamp := t0; mid := Some (stream_id t0);
     streaming := true; mtype := None; toolId := None; toolKey := None;
     toolStatus := None; toolArgs := JUndefined; toolSummary := None |}.

(** The stream opened at [t0] after the history [old] is the current one
    and its message holds [text]. *)
Definition streaming_at (old : list message) (t0 : Z) (text : string) (p : panel) : Prop :=
  messages p.1 = old ++ [opened t0 text] ∧ currentStreamId p.1 = Some (stream_id t0).

(** *** One tool invocation *)

(** The id that tool_call gives an invocation opened at clock reading [t]. *)
Definition tool_id (t : Z) : string := "tool-" +:+ string_of_Z t.

(** The tool-status entry of that invocation. *)
Definition tool_entry (t : Z) (tool : string) (args : json) (status : string)
    (summary : option string) : message :=
  {| role := "assistant"; content := ""; timestamp := t; mid := None;
     streaming := false; mtype := Some "tool"; toolId := Some (tool_id t);
     toolKey := Some tool; toolStatus := Some status; toolArgs := args;
     toolSummary := summary |}.

(** The card that tool_result leaves for a message [m] and a result. *)
Definition resolved_card (card : node) (m : message) (result : json) : node :=
  {| nid := nid card;
     nclasses := ["tool-card"; if isErrorResult result then "error" else "complete"];
     nbody := BToolDone (isErrorResult result) (toolInfo (toolKey m)).1
                (escapeHtml (summarizeToolResult (toolKey m) result)) |}.

Definition resolved_entry (m : message) (result : json) : message :=
  set_tool_outcome (if isErrorResult result then "error" else "complete")
    (summarizeToolResult (toolKey m) result) m.

(** *** Counting reconnection attempts *)

Definition is_reconnect (t : timer) : bool :=
  match t with TReconnect _ => true | TMock _ _ => false end.

(** How many times a reconnection has been scheduled. *)
Definition reconnects (p : panel) : nat :=
  length (List.filter is_reconnect (timers p.2)).

(** Scheduled attempts plus the attempts that the counter still allows. *)
Definition budget (p : panel) : nat :=
  reconnects p + (maxReconnectAttempts - reconnectAttempts p.1).

(** *** Attachments on their way out *)

(** The two checks of handleFiles. *)
Definition acceptable (f : File) : bool :=
  negb (maxSize <? file_size f)%Z && existsb (String.eqb (file_type f)) allowedTypes.

(** The entry that an accepted file becomes. *)
Definition attach (f : File) (base64 : string) : attachment :=
  {| att_name := file_name f; att_mimeType := file_type f; att_base64 := base64;
     att_size := file_size f |}.

(** Within the size cap and of an allowed type. *)
Definition within_limits (a : attachment) : Prop :=
  (att_size a ≤ maxSize)%Z ∧ att_mimeType a ∈ allowedTypes.

Definition frame_files (f : outframe) : list attachment :=
  match f with
  | out_message _ _ (Some files) => files
  | _ => []
  end.

(** Every attachment of every frame handed to the socket so far. *)
Definition outbound_files (p : panel) : list attachment :=
  concat (frame_files <$> sent p.2).

(** *** The panel as an event-driven system *)

Inductive event :=
| EFrame (now : Z) (f : frame)                      (* ws.onmessage *)
| EWorkerAnswer (a : browserAction) (response : json)
| EOpen                                             (* ws.onopen *)
| EClose                                            (* ws.onclose *)
| EReconnectTimer                                   (* the timer runs connectWebSocket *)
| EFiles (fileList : list File)                     (* drop, or the file input *)
| ERemoveFile (idx : nat)
| ESend (now : Z) (text : string).

Definition step (fileToBase64 : File -> option string) (p : panel) (e : event) : panel :=
  match e with
  | EFrame now f => handleServerMessage now f p
  | EWorkerAnswer a response => browserActionCallback a response p
  | EOpen => onopen p
  | EClose => onclose p
  | EReconnectTimer => connectWebSocket p
  | EFiles fileList => handleFiles fileToBase64 fileList p
  | ERemoveFile idx => removePendingFile idx p
  | ESend now text => sendMessage now text p
  end.

Definition run (fileToBase64 : File -> option string) (p : panel) (evs : list event) : panel :=
  foldl (step fileToBase64) p evs.

(** Frames only. *)
Definition handle_all (p : panel) (fs : list (Z * frame)) : panel :=
  foldl (λ q tf, handleServerMessage tf.1 tf.2 q) p fs.

Definition with_currentTab v (s : state) : state :=
  {| ws := ws s; connected := connected s; reconnectAttempts := reconnectAttempts s;
     messages := messages s; currentTab := v; pendingAction := pendingAction s;
     isStreaming := isStreaming s; pendingFiles := pendingFiles s;
     currentStreamId := currentStreamId s; currentToolId := currentToolId s |}.

(** The panel after init() has loaded the history that storage holds, in a
    page whose message container shows [welcome]. *)
Definition boot (welcome : list node) (storage : option (list message)) : panel :=
  loadMessages
    (initial_state,
     {| dom := welcome; stored := storage; sent := []; alerts := []; timers := [];
        posted := [] |}).

(** init(): the stored history, the active tab if the query finds one, the
    first connection attempt. *)
Definition init (welcome : list node) (storage : option (list message))
    (activeTab : option tab) : panel :=
  connectWebSocket
    (on_state (λ s, match activeTab with Some t => with_currentTab (Some t) s | None => s end)
       (boot welcome storage)).

(** *** Confirmations, tasks and the tab *)

(** handleActionResponse(approved): the Approve and Deny buttons.  On a
    socket that is still connecting [ws.send] throws an InvalidStateError,
    which ends the handler before it clears the request. *)
Definition handleActionResponse (approved : bool) (p : panel) : panel :=
  match pendingAction p.1, ws p.1 with
  | Some _, Some CONNECTING => p
  | Some (aid, _, _), Some _ =>
      on_state (with_pendingAction None) (send (out_action_response aid approved) p)
  | _, _ => on_state (with_pendingAction None) p
  end.

(** handleCreateTask(e): the button of a task suggestion, with the task
    and lead ids of its data attributes. *)
Definition handleCreateTask (taskId leadId : string) (p : panel) : panel :=
  match ws p.1, connected p.1 with
  | Some _, true => send (out_create_task taskId leadId) p
  | _, _ => p
  end.

(** The TAB_STATE_UPDATE branch of the runtime listener. *)
Definition onTabStateUpdate (t : tab) (p : panel) : panel :=
  on_state (with_currentTab (Some t)) p.

(** Everything that can happen to the panel: the events of [step], the
    two buttons, the tab announcement, and the start of the closing
    handshake, from which the socket reads CLOSING until its close event
    is handled. *)
Inductive control :=
| CEvent (e : event)
| CRespond (approved : bool)
| CCreateTask (taskId leadId : string)
| CTabUpdate (t : tab)
| CClosing.

Definition act (fileToBase64 : File -> option string) (p : panel) (c : control) : panel :=
  match c with
  | CEvent e => step fileToBase64 p e
  | CRespond approved => handleActionResponse approved p
  | CCreateTask taskId leadId => handleCreateTask taskId leadId p
  | CTabUpdate t => onTabStateUpdate t p
  | CClosing =>
      match ws p.1 with
      | Some OPEN => on_state (with_ws (Some CLOSING)) p
      | _ => p
      end
  end.

Definition drive (fileToBase64 : File -> option string) (p : panel) (cs : list control) : panel :=
  foldl (act fileToBase64) p cs.

(** The answers to confirmations among the frames handed to the socket,
    and the requests for confirmation among what happens to the panel. *)
Definition is_action_response (f : outframe) : bool :=
  match f with out_action_response _ _ => true | _ => false end.
Definition is_action_request (c : control) : bool :=
  match c with CEvent (EFrame _ (action_request _ _ _)) => true | _ => false end.
Definition answers (p : panel) : nat :=
  length (List.filter is_action_response (sent p.2)).
Definition awaiting (p : panel) : nat :=
  match pendingAction p.1 with Some _ => 1 | None => 0 end.

(** Frames that add to the conversation or change one of its entries. *)
Definition conversational (f : frame) : bool :=
  match f with
  | response_start | response_chunk _ | response_end | tool_call _ _ | tool_result _
  | error_frame _ | agent_message _ => true
  | _ => false
  end.

(** Two entries of the history that are the same message: only the text
    and the outcome of a tool may differ. *)
Definition same_entry (m m' : message) : Prop :=
  role m = role m' ∧ timestamp m = timestamp m' ∧ mid m = mid m' ∧
  mtype m = mtype m' ∧ toolId m = toolId m' ∧ toolKey m = toolKey m'.

(** Every entry of [old] is still at its position in [new]. *)
Definition extends_history (old new : list message) : Prop :=
  ∀ i m, old !! i = Some m → ∃ m', new !! i = Some m' ∧ same_entry m m'.

(** The text that sendMessage shows for what the user sends. *)
Definition displayed (text : string) (files : list attachment) : string :=
  if (0 <? length files)%nat then
    if String.eqb text "" then "[Attached: " +:+ join ", " (att_name <$> files) +:+ "]"
    else text +:+ newline +:+ "[Attached: " +:+ join ", " (att_name <$> files) +:+ "]"
  else text.

(** The alert for a file that one of the two checks turns away. *)
Definition refusal (f : File) : string :=
  if (maxSize <? file_size f)%Z then too_large_text f else unsupported_text f.

Definition thinking_node : node :=
  {| nid := "thinking"; nclasses := ["thinking-indicator"]; nbody := BThinking |}.

End SidePanel.

(** ** The content script: element resolver and page operations *)

Module BrowserTools.
Import JS.

(** What the script does to an element, in order. *)
Inductive op :=
| Focus
| NativeSet (v : string)      (* the prototype's own value setter *)
| SetValue (v : string)       (* el.value = v *)
| Dispatch (event : string)
| Click.

(** The properties of a page element that the script reads. *)
Record element := {
  tagName : string;
  el_id : string;
  el_name : string;
  el_value : option string;     (* the value property, where there is one *)
  textContent : string;
  for_attr : option string;     (* getAttribute('for') *)
  nested : option nat;          (* label.querySelector('input, select, textarea') *)
  nested_radio : option nat;    (* label.querySelector('input[type="radio"]') *)
  parentText : option string;   (* parentElement?.textContent *)
  options : option (list (string * string));  (* of a select: value and text of each option *)
  log : list op
}.

(** label.htmlFor: the [for] attribute, empty when it is absent. *)
Definition htmlFor (e : element) : string := default "" (for_attr e).

(** The page: its elements by handle and the answers of its query
    interface.  Handles in a list answer are in document order. *)
Record document := {
  store : nat -> element;
  querySelectorAll : string -> list nat;
  getElementById : string -> option nat;
  (* document.evaluate(xpath, ...).singleNodeValue; [None] when it throws *)
  evaluate : string -> option (option nat);
  (* the message of the SyntaxError that querySelector and querySelectorAll
     throw on a selector that is not valid CSS; [None] for a valid one *)
  syntax_error : string -> option string
}.

Definition querySelector (d : document) (sel : string) : option nat :=
  head (querySelectorAll d sel).

Definition update (h : nat) (f : element -> element) (d : document) : document :=
  {| store := λ k, if decide (k = h) then f (store d k) else store d k;
     querySelectorAll := querySelectorAll d;
     getElementById := getElementById d;
     evaluate := evaluate d;
     syntax_error := syntax_error d |}.

Definition record_op (o : op) (e : element) : element :=
  {| tagName := tagName e; el_id := el_id e; el_name := el_name e;
     el_value := el_value e; textContent := textContent e; for_attr := for_attr e;
     nested := nested e; nested_radio := nested_radio e; parentText := parentText e;
     options := options e; log := log e ++ [o] |}.

(** An assignment to the value property, through [how]. *)
Definition assign_value (how : string -> op) (v : string) (e : element) : element :=
  {| tagName := tagName e; el_id := el_id e; el_name := el_name e;
     el_value := Some v; textContent := textContent e; for_attr := for_attr e;
     nested := nested e; nested_radio := nested_radio e; parentText := parentText e;
     options := options e; log := log e ++ [how v] |}.

(** The symbolic target of an operation. *)
Record ElementTarget := {
  selector : option string;
  id : option string;
  name : option string;
  fieldref : option string;
  label : option string;
  placeholder : option string;
  buttonText : option string
}.

(** A hint that is present and not the empty string. *)
Definition hint (h : option string) : option string :=
  match h with
  | Some s => if String.eqb s "" then None else Some s
  | None => None
  end.

Definition attr_selector (attr op v suffix : string) : string :=
  "[" +:+ attr +:+ op +:+ dquote +:+ v +:+ dquote +:+ suffix +:+ "]".

Fixpoint replace_char (c : ascii) (by_ : string) (s : string) : string :=
  match s with
  | EmptyString => EmptyString
  | String x rest =>
      (if Ascii.eqb x c then by_ else String x EmptyString) +:+ replace_char c by_ rest
  end.

Definition squote : string := String (ascii_of_nat 39) EmptyString.

(** The XPath of the adjacent-label search. *)
Definition label_xpath (searchText : string) : string :=
  let xpathSearchText :=
    if includes searchText squote
    then toLowerCase
           ("concat('" +:+
            replace_char (ascii_of_nat 39) ("'," +:+ dquote +:+ "'" +:+ dquote +:+ ",'") searchText
            +:+ "')")
    else "'" +:+ searchText +:+ "'" in
  "//label[contains(translate(text(), 'ABCDEFGHIJKLMNOPQRSTUVWXYZ', 'abcdefghijklmnopqrstuvwxyz'), "
  +:+ xpathSearchText +:+ ")]/following::input[1]".

(** The loop of findByLabel over the label elements. *)
Fixpoint label_loop (d : document) (searchText : string) (labels : list nat) : option nat :=
  match labels with
  | [] => None
  | l :: rest =>
      let lab := store d l in
      if includes (toLowerCase (textContent lab)) searchText then
        match (if String.eqb (htmlFor lab) "" then None else getElementById d (htmlFor lab)) with
        | Some input => Some input
        | None =>
            match nested lab with
            | Some nestedInput => Some nestedInput
            | None => label_loop d searchText rest
            end
        end
      else label_loop d searchText rest
  end.

Definition findByLabel (d : document) (labelText : string) : option nat :=
  let searchText := toLowerCase labelText in
  match label_loop d searchText (querySelectorAll d "label") with
  | Some el => Some el
  | None =>
      match evaluate d (label_xpath searchText) with
      | Some (Some el) => Some el
      | _ => None
      end
  end.

Definition button_selector : string :=
  "button, input[type=" +:+ dquote +:+ "button" +:+ dquote +:+ "], input[type="
  +:+ dquote +:+ "submit" +:+ dquote +:+ "]".

Definition button_matches (d : document) (text : string) (b : nat) : bool :=
  includes (toLowerCase (textContent (store d b))) (toLowerCase text) ||
  match el_value (store d b) with
  | Some v => includes (toLowerCase v) (toLowerCase text)
  | None => false
  end.

Definition by_id (d : document) (t : ElementTarget) : option nat :=
  hint (id t) ≫= getElementById d.
Definition by_name (d : document) (t : ElementTarget) : option nat :=
  hint (name t) ≫= λ v, querySelector d (attr_selector "name" "=" v "").
Definition by_fieldref (d : document) (t : ElementTarget) : option nat :=
  hint (fieldref t) ≫= λ v, querySelector d (attr_selector "fieldref" "=" v "").
Definition by_label (d : document) (t : ElementTarget) : option nat :=
  hint (label t) ≫= findByLabel d.
Definition by_placeholder (d : document) (t : ElementTarget) : option nat :=
  hint (placeholder t) ≫= λ v, querySelector d (attr_selector "placeholder" "*=" v " i").
Definition by_buttonText (d : document) (t : ElementTarget) : option nat :=
  hint (buttonText t) ≫= λ v,
    List.find (button_matches d v) (querySelectorAll d button_selector).

Definition first_of (a b : option nat) : option nat :=
  match a with Some x => Some x | None => b end.

(** findElement(target): what it returns.  Its queries by selector, name,
    fieldref and placeholder go through querySelector, which throws on a
    text that is not CSS; [findElement_throws] below tells when that
    happens, and then nothing is returned. *)
Definition findElement (d : document) (t : ElementTarget) : option nat :=
  match hint (selector t) with
  | Some sel => querySelector d sel
  | None =>
      first_of (by_id d t)
      (first_of (by_name d t)
      (first_of (by_fieldref d t)
      (first_of (by_label d t)
      (first_of (by_placeholder d t)
                (by_buttonText d t)))))
  end.

(** The SyntaxError of the attribute query for a hint. *)
Definition query_error (d : document) (attr op suffix : string) (h : option string)
    : option string :=
  hint h ≫= λ v, syntax_error d (attr_selector attr op v suffix).

(** The exception that leaves findElement, if one does: the SyntaxError
    of the first query that is reached and is not CSS.  A selector hint is
    queried first and alone; the query of a later hint is reached only
    when the strategies before it found nothing.  getElementById throws
    on no text, and the XPath of findByLabel is evaluated inside
    try/catch. *)
Definition findElement_throws (d : document) (t : ElementTarget) : option string :=
  match hint (selector t) with
  | Some sel => syntax_error d sel
  | None =>
      match by_id d t with
      | Some _ => None
      | None =>
      match query_error d "name" "=" "" (name t) with
      | Some msg => Some msg
      | None =>
      match by_name d t with
      | Some _ => None
      | None =>
      match query_error d "fieldref" "=" "" (fieldref t) with
      | Some msg => Some msg
      | None =>
      match by_fieldref d t with
      | Some _ => None
      | None =>
      match by_label d t with
      | Some _ => None
      | None => query_error d "placeholder" "*=" " i" (placeholder t)
      end end end end end end
  end.

Definition target_json (t : ElementTarget) : json :=
  JObj (omap (λ kv : string * option string, (λ v, (kv.1, JStr v)) <$> kv.2)
          [("selector", selector t); ("id", id t); ("name", name t);
           ("fieldref", fieldref t); ("label", label t);
           ("placeholder", placeholder t); ("buttonText", buttonText t)]).

Definition describeElement (e : element) : json :=
  JObj [("tag", JStr (toLowerCase (tagName e))); ("id", JStr (el_id e));
        ("name", JStr (el_name e)); ("text", JStr (take_chars 50 (textContent e)))].

Definition failure (msg : string) (extra : list (string * json)) : json :=
  JObj ([("success", JBool false); ("error", JStr msg)] ++ extra).

(** The interface whose value setter the script borrows accepts only its
    own elements; on any other receiver the call throws a TypeError. *)
Definition native_setter_accepts (proto_tag : string) (e : element) : bool :=
  String.eqb (tagName e) proto_tag.

(** fillField(target, value), when findElement returns.  The prototypes of
    both interfaces have a value setter, so the plain assignment of the
    other branch is never taken.  findElement is called outside the
    try/catch: an exception of it leaves fillField as it is. *)
Definition fillField (d : document) (t : ElementTarget) (value : string) : json * document :=
  match findElement d t with
  | None => (failure "Element not found" [("target", target_json t)], d)
  | Some el =>
      let d := update el (record_op Focus) d in
      let proto_tag := if String.eqb (tagName (store d el)) "TEXTAREA" then "TEXTAREA" else "INPUT" in
      if native_setter_accepts proto_tag (store d el) then
        let d := update el (assign_value NativeSet value) d in
        let d := update el (record_op (Dispatch "input")) d in
        let d := update el (record_op (Dispatch "change")) d in
        let d := update el (record_op (Dispatch "blur")) d in
        (JObj [("success", JBool true); ("element", describeElement (store d el))], d)
      else (failure "Illegal invocation" [], d)
  end.


Definition radio_selector : string :=
  "input[type=" +:+ dquote +:+ "radio" +:+ dquote +:+ "]".
















(** *** The fallback chain as a list *)

(** The strategies that follow the selector, in the order of the code. *)
Definition fallbacks : list (document -> ElementTarget -> option nat) :=
  [by_id; by_name; by_fieldref; by_label; by_placeholder; by_buttonText].

(** The first answer of a list of attempts. *)
Fixpoint first_some (attempts : list (option nat)) : option nat :=
  match attempts with
  | [] => None
  | Some el :: _ => Some el
  | None :: rest => first_some rest
  end.

(** *** Sample pages *)

(** What the sample pages refuse as a selector: the empty text and a text
    that starts with two number signs. *)
Definition sample_syntax_error (sel : string) : option string :=
  if String.eqb sel "" || String.prefix "##" sel
  then Some ("Failed to execute 'querySelector' on 'Document': '" +:+ sel +:+
             "' is not a valid selector.")
  else None.

Definition blank (tag : string) : element :=
  {| tagName := tag; el_id := ""; el_name := ""; el_value := None; textContent := "";
     for_attr := None; nested := None; nested_radio := None; parentText := None;
     options := None; log := [] |}.

(** A page with one text input, id "email", under a label "Email address"
    that points at nothing: the input is handle 0, the label handle 1. *)
Definition email_page : document :=
  {| store := λ h, if decide (h = 0) then
                      {| tagName := "INPUT"; el_id := "email"; el_name := "email";
                         el_value := Some ""; textContent := ""; for_attr := None;
                         nested := None; nested_radio := None;
                         parentText := Some "Email address"; options := None; log := [] |}
                    else if decide (h = 1) then
                      {| tagName := "LABEL"; el_id := ""; el_name := ""; el_value := None;
                         textContent := "Email address"; for_attr := None;
                         nested := Some 0; nested_radio := None; parentText := None;
                         options := None; log := [] |}
                    else blank "DIV";
     querySelectorAll := λ sel,
       if String.eqb sel "label" then [1]
       else if String.eqb sel "#email" then [0]
       else if String.eqb sel (attr_selector "name" "=" "email" "") then [0]
       else [];
     getElementById := λ i, if String.eqb i "email" then Some 0 else None;
     evaluate := λ _, Some None;
     syntax_error := sample_syntax_error |}.


(** *** Clicking *)

(** clickElement(target), when findElement returns; an exception of
    findElement leaves clickElement as it is. *)
Definition clickElement (d : document) (t : ElementTarget) : json * document :=
  match findElement d t with
  | None => (failure "Element not found" [("target", target_json t)], d)
  | Some el =>
      let d := update el (record_op Click) d in
      (JObj [("success", JBool true); ("element", describeElement (store d el))], d)
  end.


End BrowserTools.

(** ** The service worker: action executor *)

Module Worker.
Import JS.
Export BrowserTools.

(** A computation that returns or throws (a rejected promise is a throw at
    its [await]). *)
Inductive outcome (A : Type) :=
| Ok (a : A)
| Throw (message : string).
Arguments Ok {A} a.
Arguments Throw {A} message.

#[global] Instance outcome_ret : MRet outcome := λ A a, Ok a.
#[global] Instance outcome_bind : MBind outcome := λ A B f m,
  match m with
  | Ok a => f a
  | Throw msg => Throw msg
  end.

Record tab := { tab_id : Z; tab_url : string; tab_title : string }.

(** The browser as the worker reaches it through chrome.*. *)
Record chrome := {
  (* [tab] of  const [tab] = await chrome.tabs.query({active, currentWindow}) *)
  active_tab : outcome (option tab);
  tabs_update : Z -> string -> outcome unit;
  captureVisibleTab : outcome string;
  tabs_get : Z -> outcome tab;
  (* the document that executeScript reaches in a tab *)
  page : Z -> outcome document;
  (* new Function(script): a script text that does not compile throws *)
  new_Function : string -> outcome unit;
  (* what the function built from a script text returns in the page *)
  script_result : string -> outcome json;
  (* the snapshot that the page-state function returns in the page *)
  page_snapshot : Z -> json;
  (* an exception of the injected function either rejects the promise of
     executeScript or leaves its result undefined *)
  throw_rejects : bool;
  navigated : list (Z * string)
}.

Definition with_page (t : Z) (d : document) (c : chrome) : chrome :=
  {| active_tab := active_tab c; tabs_update := tabs_update c;
     captureVisibleTab := captureVisibleTab c; tabs_get := tabs_get c;
     page := λ k, if decide (k = t) then Ok d else page c k;
     new_Function := new_Function c; script_result := script_result c; page_snapshot := page_snapshot c;
     throw_rejects := throw_rejects c; navigated := navigated c |}.

Definition with_navigated (t : Z) (u : string) (c : chrome) : chrome :=
  {| active_tab := active_tab c; tabs_update := tabs_update c;
     captureVisibleTab := captureVisibleTab c; tabs_get := tabs_get c;
     page := page c; new_Function := new_Function c; script_result := script_result c;
     page_snapshot := page_snapshot c; throw_rejects := throw_rejects c;
     navigated := navigated c ++ [(t, u)] |}.

Definition success (extra : list (string * json)) : json :=
  JObj (("success", JBool true) :: extra).

Definition tab_json (t : tab) : json :=
  JObj [("id", JNum (tab_id t)); ("url", JStr (tab_url t)); ("title", JStr (tab_title t))].

(** *** Functions injected into the page *)

(** document.querySelector(sel) *)
Definition query (d : document) (sel : string) : outcome (option nat) :=
  match syntax_error d sel with
  | Some msg => Throw msg
  | None => Ok (querySelector d sel)
  end.

Definition inj_click (sel : string) (d : document) : outcome (json * document) :=
  found ← query d sel;
  match found with
  | Some el => Ok (success [], update el (record_op Click) d)
  | None => Ok (failure "Element not found" [], d)
  end.

(** The value setter of HTMLInputElement.prototype, called on [el]. *)
Definition nativeInputValueSetter (el : nat) (v : string) (d : document) : outcome document :=
  if native_setter_accepts "INPUT" (store d el)
  then Ok (update el (assign_value NativeSet v) d)
  else Throw "Illegal invocation".

Definition inj_fill (sel val : string) (d : document) : outcome (json * document) :=
  found ← query d sel;
  match found with
  | Some el =>
      d ← nativeInputValueSetter el val d;
      let d := update el (record_op (Dispatch "input")) d in
      let d := update el (record_op (Dispatch "change")) d in
      Ok (success [], d)
  | None => Ok (failure "Element not found" [], d)
  end.

Fixpoint split_on (c : ascii) (s : string) : list string :=
  match s with
  | EmptyString => [EmptyString]
  | String x rest =>
      if Ascii.eqb x c then EmptyString :: split_on c rest
      else match split_on c rest with
           | [] => [String x EmptyString]
           | p :: ps => String x p :: ps
           end
  end.

Fixpoint trim_start (s : string) : string :=
  match s with
  | String c rest => if is_space c then trim_start rest else s
  | EmptyString => EmptyString
  end.

Definition trim (s : string) : string :=
  String.rev (trim_start (String.rev (trim_start s))).


(** The loop over those selectors as it runs: a selector that is not CSS
    throws when its turn comes. *)
Fixpoint select_first (d : document) (selectors : list string) : outcome (option nat) :=
  match selectors with
  | [] => Ok None
  | s :: rest =>
      found ← query d s;
      match found with
      | Some el => Ok (Some el)
      | None => select_first d rest
      end
  end.

Definition upper_ascii (c : ascii) : ascii :=
  let n := nat_of_ascii c in
  if (97 <=? n)%nat && (n <=? 122)%nat then ascii_of_nat (n - 32) else c.

Fixpoint toUpperCase (s : string) : string :=
  match s with
  | EmptyString => EmptyString
  | String c s' => String (upper_ascii c) (toUpperCase s')
  end.

Definition inj_select (sel val : string) (d : document) : outcome (json * document) :=
  found ← select_first d (trim <$> split_on (ascii_of_nat 44) sel);
  match found with
  | None => Ok (failure "Select element not found" [], d)
  | Some select =>
      match options (store d select) with
      | None => Throw "select.options is not iterable"
      | Some opts =>
          match List.find (λ o : string * string,
                   String.eqb o.1 val || includes (toUpperCase o.2) (toUpperCase val)) opts with
          | Some o =>
              let d := update select (assign_value SetValue o.1) d in
              Ok (success [], update select (record_op (Dispatch "change")) d)
          | None => Ok (failure ("Option '" +:+ val +:+ "' not found in select") [], d)
          end
      end
  end.

(** The first label whose text contains the search text decides. *)
Definition inj_radio (labelText : string) (d : document) : outcome (json * document) :=
  let searchText := toLowerCase labelText in
  match List.find (λ l, includes (toLowerCase (textContent (store d l))) searchText)
          (querySelectorAll d "label") with
  | Some l =>
      let clicked := [("clicked", JStr (trim (textContent (store d l))))] in
      let radio :=
        match nested_radio (store d l) with
        | Some r => Some r
        | None => getElementById d (default "null" (for_attr (store d l)))
        end in
      match radio with
      | Some r => Ok (success clicked, update r (record_op Click) d)
      | None => Ok (success clicked, update l (record_op Click) d)
      end
  | None =>
      match List.find (λ r, match parentText (store d r) with
                            | Some t => includes (toLowerCase t) searchText
                            | None => false
                            end)
              (querySelectorAll d radio_selector) with
      | Some r =>
          Ok (success [("clicked", JStr (trim (default "" (parentText (store d r)))))],
              update r (record_op Click) d)
      | None =>
          Ok (failure ("Radio with label containing '" +:+ labelText +:+ "' not found") [], d)
      end
  end.

(** The click on the first suggestion is deferred by a timer and is not
    part of the answer. *)
Definition inj_search (sel val : string) (autoSelect : bool) (d : document)
    : outcome (json * document) :=
  found ← select_first d (trim <$> split_on (ascii_of_nat 44) sel);
  match found with
  | None => Ok (failure "Search input not found" [], d)
  | Some input =>
      let d := update input (record_op Focus) d in
      d ← nativeInputValueSetter input val d;
      let d := update input (record_op (Dispatch "input")) d in
      let d := update input (record_op (Dispatch "keyup")) d in
      Ok (success [], d)
  end.

(** [results[0]?.result] of chrome.scripting.executeScript for a function
    [f] injected into tab [t].  What a function did to the page before it
    threw is not tracked. *)
Definition executeScript (c : chrome) (t : Z) (f : document -> outcome (json * document))
    : outcome (json * chrome) :=
  d ← page c t;
  match f d with
  | Ok (r, d') => Ok (r, with_page t d' c)
  | Throw msg => if throw_rejects c then Throw msg else Ok (JUndefined, c)
  end.

(** *** Operations *)

Definition no_active_tab : json := failure "No active tab" [].

Definition navigateToUrl (c : chrome) (url : string) : outcome (json * chrome) :=
  tab ← active_tab c;
  match tab with
  | Some t =>
      _ ← tabs_update c (tab_id t) url;
      Ok (success [("tabId", JNum (tab_id t))], with_navigated (tab_id t) url c)
  | None => Ok (no_active_tab, c)
  end.

Definition captureScreenshot (c : chrome) : outcome (json * chrome) :=
  match captureVisibleTab c with
  | Ok dataUrl => Ok (success [("screenshot", JStr dataUrl)], c)
  | Throw msg => Ok (failure msg [], c)
  end.

Definition getTabState (c : chrome) : outcome (json * chrome) :=
  tab ← active_tab c;
  match tab with
  | Some t => Ok (success [("tab", tab_json t)], c)
  | None => Ok (no_active_tab, c)
  end.

Definition getSpecificTabState (c : chrome) (tabId : Z) : outcome (json * chrome) :=
  match tabs_get c tabId with
  | Ok t => Ok (success [("tab", tab_json t)], c)
  | Throw msg => Ok (failure ("Tab " +:+ string_of_Z tabId +:+ " not found: " +:+ msg) [], c)
  end.

Definition executeInTab (c : chrome) (script : string) : outcome (json * chrome) :=
  tab ← active_tab c;
  match tab with
  | Some t =>
      _ ← new_Function c script;
      '(r, c) ← executeScript c (tab_id t) (λ d, r ← script_result c script; Ok (r, d));
      Ok (success [("result", r)], c)
  | None => Ok (no_active_tab, c)
  end.

(** [results[0]?.result || { success: false, error: 'Script execution failed' }] *)
Definition in_active_tab (c : chrome) (f : document -> outcome (json * document))
    : outcome (json * chrome) :=
  tab ← active_tab c;
  match tab with
  | Some t =>
      '(r, c) ← executeScript c (tab_id t) f;
      Ok (or_else r (failure "Script execution failed" []), c)
  | None => Ok (no_active_tab, c)
  end.

Definition clickElement (c : chrome) (sel : string) := in_active_tab c (inj_click sel).
Definition fillField (c : chrome) (sel val : string) := in_active_tab c (inj_fill sel val).
Definition selectOption (c : chrome) (sel val : string) := in_active_tab c (inj_select sel val).
Definition clickRadio (c : chrome) (labelContains : string) := in_active_tab c (inj_radio labelContains).
Definition fillSearch (c : chrome) (sel val : string) (selectFirst : option bool) :=
  in_active_tab c (inj_search sel val (default true selectFirst)).

Definition getPageState (c : chrome) : outcome (json * chrome) :=
  tab ← active_tab c;
  match tab with
  | Some t =>
      '(r, c) ← executeScript c (tab_id t) (λ d, Ok (page_snapshot c (tab_id t), d));
      Ok (success [("pageState", r)], c)
  | None => Ok (no_active_tab, c)
  end.

(** executeBrowserAction(action): the switch, inside try/catch. *)
Definition executeBrowserAction (c : chrome) (a : SidePanel.browserAction) : json * chrome :=
  let tag := SidePanel.action a in
  let attempt : outcome (json * chrome) :=
    if String.eqb tag "navigate" then navigateToUrl c (SidePanel.url a)
    else if String.eqb tag "screenshot" then captureScreenshot c
    else if String.eqb tag "get_tab_state" then getTabState c
    else if String.eqb tag "get_specific_tab_state" then getSpecificTabState c (SidePanel.tab_id_arg a)
    else if String.eqb tag "execute_script" then executeInTab c (SidePanel.script a)
    else if String.eqb tag "click" then clickElement c (SidePanel.selector a)
    else if String.eqb tag "fill" then fillField c (SidePanel.selector a) (SidePanel.value a)
    else if String.eqb tag "get_page_state" then getPageState c
    else if String.eqb tag "select_option" then selectOption c (SidePanel.selector a) (SidePanel.value a)
    else if String.eqb tag "click_radio" then clickRadio c (SidePanel.label_contains a)
    else if String.eqb tag "fill_search" then
      fillSearch c (SidePanel.selector a) (SidePanel.value a) (SidePanel.select_first a)
    else Ok (failure ("Unknown action: " +:+ tag) [], c) in
  match attempt with
  | Ok rc => rc
  | Throw msg => (failure msg [], c)
  end.

(** The function that the operation of an action injects into the page,
    for the five tags whose operation injects one of the functions above. *)
Definition injected (a : SidePanel.browserAction)
    : option (document -> outcome (json * document)) :=
  let tag := SidePanel.action a in
  if String.eqb tag "click" then Some (inj_click (SidePanel.selector a))
  else if String.eqb tag "fill" then Some (inj_fill (SidePanel.selector a) (SidePanel.value a))
  else if String.eqb tag "select_option" then
    Some (inj_select (SidePanel.selector a) (SidePanel.value a))
  else if String.eqb tag "click_radio" then Some (inj_radio (SidePanel.label_contains a))
  else if String.eqb tag "fill_search" then
    Some (inj_search (SidePanel.selector a) (SidePanel.value a)
            (default true (SidePanel.select_first a)))
  else None.

(** The selectors that select_option and fill_search try in turn. *)
Definition selectors_of (a : SidePanel.browserAction) : list string :=
  trim <$> split_on (ascii_of_nat 44) (SidePanel.selector a).

(** What is left of an exception of an injected function: its message when
    the browser rejects the injection, the fallback of the operation when
    the browser leaves the result undefined. *)
Definition script_failure (c : chrome) (msg : string) : json :=
  failure (if throw_rejects c then msg else "Script execution failed") [].

(** *** Answers and sample browser *)

(** The uniform answer: success, or failure with a message. *)
Definition is_envelope (r : json) : Prop :=
  get r "success" = JBool true ∨
  (get r "success" = JBool false ∧ ∃ msg, get r "error" = JStr msg).

(** When a computation returns, its answer is an envelope. *)
Definition answers_envelope {S} (m : outcome (json * S)) : Prop :=
  match m with
  | Ok (r, _) => is_envelope r
  | Throw _ => True
  end.

(** What an answer without a response becomes in the side panel. *)
Definition no_response : json := JObj [("error", JStr "No response from service worker")].

Definition known_tags : list string :=
  ["navigate"; "screenshot"; "get_tab_state"; "get_specific_tab_state"; "execute_script";
   "click"; "fill"; "get_page_state"; "select_option"; "click_radio"; "fill_search"].

(** The tags whose operation starts by asking for the active tab. *)
Definition tab_tags : list string :=
  ["navigate"; "get_tab_state"; "execute_script"; "click"; "fill"; "get_page_state";
   "select_option"; "click_radio"; "fill_search"].

(** What the script did to element [el] of the page in tab [t]. *)
Definition page_log (c : chrome) (t : Z) (el : nat) : list op :=
  match page c t with
  | Ok d => log (store d el)
  | Throw _ => []
  end.

Definition page_value (c : chrome) (t : Z) (el : nat) : option string :=
  match page c t with
  | Ok d => el_value (store d el)
  | Throw _ => None
  end.

(** A browser whose active tab, number 7, shows the sample page with the
    email input. *)
Definition sample_chrome : chrome :=
  {| active_tab := Ok (Some {| tab_id := 7; tab_url := "https://example.test/form";
                               tab_title := "Form" |});
     tabs_update := λ _ _, Ok ();
     captureVisibleTab := Ok "data:image/png;base64,iVBORw0KGgo=";
     tabs_get := λ _, Throw "No tab with id";
     page := λ k, if decide (k = 7%Z) then Ok email_page
                  else Throw "Cannot access contents of the page";
     new_Function := λ _, Ok ();
     script_result := λ _, Ok JUndefined;
     page_snapshot := λ _, JObj [];
     throw_rejects := true;
     navigated := [] |}.

(** The same browser, where an exception in the page leaves the result of
    the injection undefined, and where every script text throws. *)
Definition lenient_chrome : chrome :=
  {| active_tab := active_tab sample_chrome;
     tabs_update := tabs_update sample_chrome;
     captureVisibleTab := captureVisibleTab sample_chrome;
     tabs_get := tabs_get sample_chrome;
     page := page sample_chrome;
     new_Function := new_Function sample_chrome;
     script_result := λ _, Throw "boom";
     page_snapshot := page_snapshot sample_chrome;
     throw_rejects := false;
     navigated := [] |}.

Definition sample_action (tag sel val : string) : SidePanel.browserAction :=
  {| SidePanel.actionId := "act-1"; SidePanel.action := tag; SidePanel.url := "";
     SidePanel.tab_id_arg := 0; SidePanel.script := ""; SidePanel.selector := sel;
     SidePanel.value := val; SidePanel.label_contains := "";
     SidePanel.select_first := None |}.

End Worker.

(** ** The earlier service worker, which owned the socket itself *)

Module LegacyWorker.
Import JS.

Definition reconnectDelay : Z := 3000.

Record state := {
  ws : option SidePanel.readyState;
  sent : list SidePanel.outframe;         (* arguments of ws.send *)
  broadcasts : list (string + bool);      (* to the side panel: a frame tag or a connection status *)
  timers : list Z                         (* setTimeout(connectWebSocket, delay) *)
}.

Definition initial : state := {| ws := None; sent := []; broadcasts := []; timers := [] |}.

(** connectWebSocket; [constructed] tells whether [new WebSocket] returned. *)
Definition connectWebSocket (constructed : bool) (s : state) : state :=
  match ws s with
  | Some SidePanel.OPEN => s
  | _ =>
      if constructed then
        {| ws := Some SidePanel.CONNECTING; sent := sent s;
           broadcasts := broadcasts s; timers := timers s |}
      else
        {| ws := ws s; sent := sent s; broadcasts := broadcasts s;
           timers := timers s ++ [reconnectDelay] |}
  end.

Definition onopen (s : state) : state :=
  {| ws := Some SidePanel.OPEN; sent := sent s;
     broadcasts := broadcasts s ++ [inr true]; timers := timers s |}.

Definition onclose (s : state) : state :=
  {| ws := None; sent := sent s; broadcasts := broadcasts s ++ [inr false];
     timers := timers s ++ [reconnectDelay] |}.

Definition sendToAgent (f : SidePanel.outframe) (s : state) : bool * state :=
  match ws s with
  | Some SidePanel.OPEN =>
      (true, {| ws := ws s; sent := sent s ++ [f]; broadcasts := broadcasts s;
                timers := timers s |})
  | _ => (false, s)
  end.

(** executeBrowserAction of this worker: seven tags. *)
Definition executeBrowserAction (c : Worker.chrome) (a : SidePanel.browserAction)
    : json * Worker.chrome :=
  let tag := SidePanel.action a in
  let attempt :=
    if String.eqb tag "navigate" then Worker.navigateToUrl c (SidePanel.url a)
    else if String.eqb tag "screenshot" then Worker.captureScreenshot c
    else if String.eqb tag "get_tab_state" then Worker.getTabState c
    else if String.eqb tag "execute_script" then Worker.executeInTab c (SidePanel.script a)
    else if String.eqb tag "click" then Worker.clickElement c (SidePanel.selector a)
    else if String.eqb tag "fill" then
      Worker.fillField c (SidePanel.selector a) (SidePanel.value a)
    else if String.eqb tag "get_page_state" then Worker.getPageState c
    else Worker.Ok (BrowserTools.failure ("Unknown action: " +:+ tag) [], c) in
  match attempt with
  | Worker.Ok rc => rc
  | Worker.Throw msg => (BrowserTools.failure msg [], c)
  end.

(** handleAgentMessage(data) *)
Definition handleAgentMessage (c : Worker.chrome) (data : SidePanel.frame) (s : state)
    : state * Worker.chrome :=
  let pass tag :=
    ({| ws := ws s; sent := sent s; broadcasts := broadcasts s ++ [inl tag];
        timers := timers s |}, c) in
  match data with
  | SidePanel.response_start => pass "response_start"
  | SidePanel.response_chunk _ => pass "response_chunk"
  | SidePanel.response_end => pass "response_end"
  | SidePanel.tool_call _ _ => pass "tool_call"
  | SidePanel.tool_result _ => pass "tool_result"
  | SidePanel.action_request _ _ _ => pass "action_request"
  | SidePanel.error_frame _ => pass "error"
  | SidePanel.browser_action a =>
      let '(result, c) := executeBrowserAction c a in
      ((sendToAgent (SidePanel.out_browser_action_result (SidePanel.actionId a) result) s).2, c)
  | _ => (s, c)
  end.

(** [n] rounds of a connection attempt that ends in a close. *)
Definition failed_rounds (n : nat) (s : state) : state :=
  Nat.iter n (λ x, onclose (connectWebSocket true x)) s.

(** The worker and the browser after a sequence of frames from the agent. *)
Definition handle_all (c : Worker.chrome) (s : state) (frames : list SidePanel.frame)
    : state * Worker.chrome :=
  foldl (λ sc data, handleAgentMessage sc.2 data sc.1) (s, c) frames.

End LegacyWorker.

(** ** The page-context watcher *)

Module PageWatcher.
Import JS.

(** A context object: its keys in insertion order. *)
Definition context : Type := list (string * json).

(** [ctx[key]] *)
Definition field (ctx : context) (key : string) : json :=
  default JUndefined (SidePanel.assoc_first key ctx).

(** [obj[key] = v]: in place for a key that exists, appended otherwise. *)
Fixpoint assign (key : string) (v : json) (ctx : context) : context :=
  match ctx with
  | [] => [(key, v)]
  | (k, x) :: rest =>
      if String.eqb key k then (k, v) :: rest else (k, x) :: assign key v rest
  end.

(** [{ ...base, ...extra }] *)
Definition spread (base extra : context) : context :=
  foldl (λ acc kv, assign kv.1 kv.2 acc) base extra.

(** [a !== b] on the primitive values that a context holds. *)
Definition strict_ne (a b : json) : bool :=
  match a, b with
  | JUndefined, JUndefined | JNull, JNull => false
  | JBool x, JBool y => negb (Bool.eqb x y)
  | JNum x, JNum y => negb (x =? y)%Z
  | JStr x, JStr y => negb (String.eqb x y)
  | _, _ => true
  end.

Fixpoint drop_chars (n : nat) (s : string) : string :=
  match n, s with
  | S n', String _ rest => drop_chars n' rest
  | _, _ => s
  end.

Fixpoint take_while (f : ascii -> bool) (s : string) : string :=
  match s with
  | String c rest => if f c then String c (take_while f rest) else EmptyString
  | EmptyString => EmptyString
  end.

(** [^\/\?] *)
Definition not_slash_or_question (c : ascii) : bool :=
  negb (Ascii.eqb c (ascii_of_nat 47) || Ascii.eqb c (ascii_of_nat 63)).

(** /app\.close\.com\/lead\/([^\/\?]+)/ : the first capture group of the
    leftmost match. *)
Fixpoint match_close_lead (url : string) : option string :=
  let here :=
    if String.prefix "app.close.com/lead/" url then
      let capture := take_while not_slash_or_question (drop_chars 19 url) in
      if String.eqb capture "" then None else Some capture
    else None in
  match here with
  | Some capture => Some capture
  | None =>
      match url with
      | EmptyString => None
      | String _ rest => match_close_lead rest
      end
  end.

(** [.] does not match a line terminator. *)
Definition not_line_end (c : ascii) : bool :=
  negb (Ascii.eqb c (ascii_of_nat 10) || Ascii.eqb c (ascii_of_nat 13)).

(** /app\.close\.com.*word/ *)
Fixpoint match_close_then (word : string) (url : string) : bool :=
  (String.prefix "app.close.com" url &&
   includes (take_while not_line_end (drop_chars 13 url)) word) ||
  match url with
  | EmptyString => false
  | String _ rest => match_close_then word rest
  end.

(** detectSite: the first pattern of SITE_PATTERNS that matches the URL,
    with the capture of the lead pattern. *)
Definition detectSite (url : string) : string * option string :=
  let low := toLowerCase url in
  match match_close_lead url with
  | Some capture => ("close_lead", Some capture)
  | None =>
      if match_close_then "dialer" url then ("close_dialer", None)
      else if match_close_then "smart_view" url then ("close_smartview", None)
      else if includes low "foragentsonly.progressive.com" || includes low "progressive.com/agent"
      then ("progressive", None)
      else if includes low "geico.com" then ("geico", None)
      else if includes low "bfrms.bhhc.com" || includes low "bhhc.com" then ("bhhc", None)
      else if includes low "jmwilson.com" then ("jmwilson", None)
      else if includes low "safer.fmcsa.dot.gov" then ("fmcsa", None)
      else ("unknown", None)
  end.

(** What the extraction routines scrape from the page; an absent element
    or a pattern without a match is [None]. *)
Record scrape := {
  title : string;
  bodyText : string;
  companyName : option string;
  contactName : option string;
  phone : option string;
  email : option string;
  dotNumber : option string;
  mcNumber : option string;
  status : option string;
  currentCaller : option string;
  dialerStatus : option string
}.

Definition set_if (key : string) (v : option string) (ctx : context) : context :=
  match v with
  | Some s => assign key (JStr s) ctx
  | None => ctx
  end.

Definition extractCloseLeadContext (capture : option string) (pg : scrape) : context :=
  let ctx := [("leadId", match capture with Some l => JStr l | None => JNull end)] in
  let ctx := set_if "companyName" (companyName pg) ctx in
  let ctx := set_if "contactName" (contactName pg) ctx in
  let ctx := set_if "phone" (phone pg) ctx in
  let ctx := set_if "email" (email pg) ctx in
  let ctx := set_if "dotNumber" (dotNumber pg) ctx in
  let ctx := set_if "mcNumber" (mcNumber pg) ctx in
  set_if "status" (status pg) ctx.

Definition extractCloseDialerContext (pg : scrape) : context :=
  set_if "dialerStatus" (dialerStatus pg) (set_if "currentCaller" (currentCaller pg) []).

Definition extractCarrierContext (site url : string) (pg : scrape) : context :=
  let ctx := [("carrierSite", JStr site); ("pageTitle", JStr (title pg))] in
  let ctx :=
    if includes (toLowerCase url) "quote" || includes (toLowerCase (bodyText pg)) "quote"
    then assign "pageType" (JStr "quote") ctx
    else if includes (toLowerCase url) "policy" || includes (toLowerCase (bodyText pg)) "policy"
    then assign "pageType" (JStr "policy") ctx
    else ctx in
  set_if "dotNumber" (dotNumber pg) ctx.

(** extractContext; [None] when the extraction throws: the first query of
    the registry-site routine uses a selector that is not CSS. *)
Definition extractContext (url : string) (now : Z) (pg : scrape) : option context :=
  let '(site, capture) := detectSite url in
  let base := [("site", JStr site); ("url", JStr url); ("timestamp", JNum now)] in
  if String.eqb site "close_lead" then Some (spread base (extractCloseLeadContext capture pg))
  else if String.eqb site "close_dialer" then Some (spread base (extractCloseDialerContext pg))
  else if String.eqb site "fmcsa" then None
  else if String.eqb site "progressive" || String.eqb site "geico" ||
          String.eqb site "bhhc" || String.eqb site "jmwilson"
  then Some (spread base (extractCarrierContext site url pg))
  else Some (assign "title" (JStr (title pg)) base).

(** The watcher's [currentContext] and the messages it has sent. *)
Record update_message := { payload : context; changed : option (list string) }.

Record watcher := {
  currentContext : option context;
  emitted : list update_message
}.

Definition hasContextChanged (w : watcher) (newContext : context) : bool :=
  match currentContext w with
  | None => true
  | Some cur =>
      if strict_ne (field cur "site") (field newContext "site") then true
      else if strict_ne (field cur "url") (field newContext "url") then true
      else if negb (strict_ne (field newContext "site") (JStr "close_lead")) then
        if strict_ne (field cur "leadId") (field newContext "leadId") then true
        else if strict_ne (field cur "companyName") (field newContext "companyName") then true
        else false
      else false
  end.

Definition sendContextUpdate (ctx : context) (force : bool) (w : watcher) : watcher :=
  if negb force && negb (hasContextChanged w ctx) then w else
  let changed_keys :=
    match currentContext w with
    | Some cur => filter (λ key, strict_ne (field ctx key) (field cur key) = true) (ctx.*1)
    | None => []
    end in
  {| currentContext := Some ctx;
     emitted := emitted w ++
       [{| payload := ctx;
           changed := if (0 <? length changed_keys)%nat then Some changed_keys else None |}] |}.

(** A re-extraction: the debounced check, or a forced refresh. *)
Definition contextCheck (force : bool) (url : string) (now : Z) (pg : scrape) (w : watcher) : watcher :=
  match extractContext url now pg with
  | Some ctx => sendContextUpdate ctx force w
  | None => w
  end.

(** startWatching: the initial, forced report. *)
Definition startWatching (url : string) (now : Z) (pg : scrape) : watcher :=
  contextCheck true url now pg {| currentContext := None; emitted := [] |}.

(** *** What the change test looks at *)

(** The four properties that hasContextChanged compares. *)
Definition identity (ctx : context) : json * json * json * json :=
  (field ctx "site", field ctx "url", field ctx "leadId", field ctx "companyName").

(** Their values in the context extracted from a URL and a page. *)
Definition extracted_identity (url : string) (pg : scrape) : json * json * json * json :=
  (JStr (detectSite url).1, JStr url,
   match match_close_lead url with Some l => JStr l | None => JUndefined end,
   match match_close_lead url, companyName pg with
   | Some _, Some c => JStr c
   | _, _ => JUndefined
   end).

(** The test of hasContextChanged on two identities. *)
Definition identity_changed (cur new : json * json * json * json) : bool :=
  let '(site0, url0, lead0, company0) := cur in
  let '(site1, url1, lead1, company1) := new in
  strict_ne site0 site1 || strict_ne url0 url1 ||
  (negb (strict_ne site1 (JStr "close_lead")) &&
   (strict_ne lead0 lead1 || strict_ne company0 company1)).

(** *** Sample pages *)

Definition lead_page (company : string) : scrape :=
  {| title := "Close"; bodyText := ""; companyName := Some company; contactName := None;
     phone := None; email := None; dotNumber := None; mcNumber := None; status := None;
     currentCaller := None; dialerStatus := None |}.

(** *** The message on the wire *)

(** The object that sendContextUpdate hands to chrome.runtime.sendMessage:
    [{ type: 'PAGE_CONTEXT_UPDATE', ...context, changed }]. *)
Definition wire (m : update_message) : context :=
  assign "changed"
    (match changed m with Some keys => JArr (JStr <$> keys) | None => JUndefined end)
    (spread [("type", JStr "PAGE_CONTEXT_UPDATE")] (payload m)).

(** *** Scheduling the checks *)

(** A MutationRecord as the observer's callback reads it. *)
Record mutation := {
  mutation_type : string;
  target_tag : option string;     (* target.tagName when the target is an element *)
  in_content_area : bool;         (* target.closest('main, article, ...') is not null *)
  addedNodes : nat;
  removedNodes : nat
}.

(** The test inside [mutations.some]. *)
Definition significant (m : mutation) : bool :=
  if String.eqb (mutation_type m) "characterData" then false
  else
    let nodes_changed := (0 <? addedNodes m)%nat || (0 <? removedNodes m)%nat in
    match target_tag m with
    | Some tagName =>
        if existsb (String.eqb (toLowerCase tagName)) ["script"; "style"; "meta"; "link"]
        then false
        else if in_content_area m then true
        else nodes_changed
    | None => nodes_changed
    end.

(** The records that the observer is asked for.  It observes the child
    lists and the attributes class and data-testid in the subtree of the
    body, and no character data: a record is of type childList or
    attributes, its target is an element, and an attributes record lists
    no nodes. *)
Definition delivered (m : mutation) : bool :=
  match target_tag m with
  | Some _ =>
      String.eqb (mutation_type m) "childList" ||
      (String.eqb (mutation_type m) "attributes" &&
       (addedNodes m =? 0)%nat && (removedNodes m =? 0)%nat)
  | None => false
  end.

(** The module-level variables of the script and the timeouts that are
    pending in the browser. *)
Record script := {
  watch : watcher;
  lastUrl : string;
  debounceTimer : option positive;
  observing : bool;
  pending : list positive;        (* timeouts set and neither run nor cleared *)
  next_timer : positive           (* the id that the next setTimeout returns *)
}.

Definition clearTimeout (i : positive) (s : script) : script :=
  {| watch := watch s; lastUrl := lastUrl s; debounceTimer := debounceTimer s;
     observing := observing s; pending := List.filter (λ j, negb (Pos.eqb j i)) (pending s);
     next_timer := next_timer s |}.

Definition debouncedContextCheck (s : script) : script :=
  let s := match debounceTimer s with Some i => clearTimeout i s | None => s end in
  {| watch := watch s; lastUrl := lastUrl s; debounceTimer := Some (next_timer s);
     observing := observing s; pending := pending s ++ [next_timer s];
     next_timer := Pos.succ (next_timer s) |}.

(** checkUrlChange, with the reading of window.location.href. *)
Definition checkUrlChange (currentUrl : string) (s : script) : script :=
  if String.eqb currentUrl (lastUrl s) then s
  else debouncedContextCheck
         {| watch := watch s; lastUrl := currentUrl; debounceTimer := debounceTimer s;
            observing := observing s; pending := pending s; next_timer := next_timer s |}.

(** The observer's callback. *)
Definition onMutations (mutations : list mutation) (s : script) : script :=
  if existsb significant mutations then debouncedContextCheck s else s.

(** A timeout runs: the debounced extraction and report. *)
Definition onTimeout (i : positive) (url : string) (now : Z) (pg : scrape) (s : script) : script :=
  if existsb (Pos.eqb i) (pending s) then
    let s := clearTimeout i s in
    {| watch := contextCheck false url now pg (watch s); lastUrl := lastUrl s;
       debounceTimer := debounceTimer s; observing := observing s; pending := pending s;
       next_timer := next_timer s |}
  else s.

(** The REFRESH_CONTEXT branch of the listener. *)
Definition onRefresh (url : string) (now : Z) (pg : scrape) (s : script) : script :=
  {| watch := contextCheck true url now pg (watch s); lastUrl := lastUrl s;
     debounceTimer := debounceTimer s; observing := observing s; pending := pending s;
     next_timer := next_timer s |}.

Definition stopWatching (s : script) : script :=
  let s := match debounceTimer s with Some i => clearTimeout i s | None => s end in
  {| watch := watch s; lastUrl := lastUrl s; debounceTimer := None; observing := false;
     pending := pending s; next_timer := next_timer s |}.

(** The script once it has loaded at [url] and startWatching has run to
    its end; [None] when the first extraction throws, which leaves
    nothing installed. *)
Definition loaded (url : string) (now : Z) (pg : scrape) : option script :=
  match extractContext url now pg with
  | Some _ =>
      Some {| watch := startWatching url now pg;
              lastUrl := url; debounceTimer := None; observing := true; pending := [];
              next_timer := 1 |}
  | None => None
  end.

Inductive tick :=
| Mutations (batch : list mutation)
| UrlPoll (currentUrl : string)            (* popstate, or the 500 ms interval *)
| Timeout (i : positive) (url : string) (now : Z) (pg : scrape)
| Refresh (url : string) (now : Z) (pg : scrape)
| Stop.

Definition on_tick (s : script) (t : tick) : script :=
  match t with
  | Mutations batch => if observing s then onMutations batch s else s
  | UrlPoll currentUrl => checkUrlChange currentUrl s
  | Timeout i url now pg => onTimeout i url now pg s
  | Refresh url now pg => onRefresh url now pg s
  | Stop => stopWatching s
  end.

Definition ticks (s : script) (ts : list tick) : script := foldl on_tick s ts.

(** At most one timeout is pending, and it is the one that
    [debounceTimer] names. *)
Definition one_timer (s : script) : Prop :=
  pending s = [] ∨ ∃ i, debounceTimer s = Some i ∧ pending s = [i].

(** A tick that runs no timeout and forces no report. *)
Definition schedules_only (t : tick) : bool :=
  match t with
  | Mutations _ | UrlPoll _ => true
  | _ => false
  end.

End PageWatcher.

(** ** The context bar of the side panel *)

Module ContextBar.
Import JS PageWatcher.

(** [context.site === name] *)
Definition site_is (ctx : context) (name : string) : bool :=
  negb (strict_ne (field ctx "site") (JStr name)).

Definition getSiteLabel (ctx : context) : json :=
  if site_is ctx "close_lead" then or_else (field ctx "companyName") (JStr "Close Lead")
  else if site_is ctx "close_dialer" then JStr "Close Dialer"
  else if site_is ctx "progressive" then JStr "Progressive"
  else if site_is ctx "geico" then JStr "Geico"
  else if site_is ctx "bhhc" then JStr "BHHC"
  else if site_is ctx "jmwilson" then JStr "JM Wilson"
  else if site_is ctx "fmcsa" then or_else (field ctx "carrierName") (JStr "FMCSA SAFER")
  else field ctx "site".

(** [if (context[key]) parts.push(`${prefix}${context[key]}`)] *)
Definition part (ctx : context) (prefix key : string) : list string :=
  if truthy (field ctx key) then [prefix +:+ toString (field ctx key)] else [].

Definition getContextDetails (ctx : context) : string :=
  join " | "
    (part ctx "DOT: " "dotNumber" ++ part ctx "MC: " "mcNumber" ++ part ctx "" "contactName" ++
     part ctx "" "phone" ++ part ctx "" "pageType" ++ part ctx "" "operatingStatus").

(** A button of the bar. *)
Record contextAction := { a_label : string; a_action : string; a_primary : bool }.

Definition is_carrier (ctx : context) : bool :=
  site_is ctx "progressive" || site_is ctx "geico" || site_is ctx "bhhc" ||
  site_is ctx "jmwilson".

Definition getContextActions (ctx : context) : list contextAction :=
  if site_is ctx "close_lead" then
    [ {| a_label := "Quote"; a_action := "start_quote"; a_primary := true |};
      {| a_label := "DOT"; a_action := "lookup_dot"; a_primary := false |} ]
  else if site_is ctx "close_dialer" then
    [ {| a_label := "Lead Info"; a_action := "get_lead_info"; a_primary := false |} ]
  else if is_carrier ctx then
    (if truthy (field ctx "dotNumber")
     then [ {| a_label := "Copy DOT"; a_action := "copy_dot"; a_primary := false |} ]
     else []) ++
    [ {| a_label := "Back to Close"; a_action := "back_to_close"; a_primary := false |} ]
  else if site_is ctx "fmcsa" then
    [ {| a_label := "Copy Info"; a_action := "copy_fmcsa_info"; a_primary := false |};
      {| a_label := "Find in Close"; a_action := "find_in_close"; a_primary := false |} ]
  else [].

(** What a click on a button of the bar sets off. *)
Inductive effect :=
| ShowQuotePanel                               (* showQuotePanel() *)
| SendMessage (text : string)                  (* sendMessage(text) *)
| CopyToClipboard (text : string) (toast : string)
| Navigate (url : string)                      (* EXECUTE_BROWSER_ACTION, navigate *)
| NoEffect.

Definition handleContextAction (action : string) (ctx : context) : effect :=
  let dotNumber := field ctx "dotNumber" in
  let carrierName := field ctx "carrierName" in
  if String.eqb action "start_quote" then ShowQuotePanel
  else if String.eqb action "lookup_dot" then
    if truthy dotNumber then SendMessage ("Look up DOT number " +:+ toString dotNumber)
    else SendMessage "Look up the DOT number for this lead"
  else if String.eqb action "get_lead_info" then SendMessage "Get info about the current lead"
  else if String.eqb action "copy_dot" then
    if truthy dotNumber then CopyToClipboard (toString dotNumber) "DOT copied!" else NoEffect
  else if String.eqb action "back_to_close" then Navigate "https://app.close.com/"
  else if String.eqb action "copy_fmcsa_info" then
    CopyToClipboard
      (join SidePanel.newline
         (part ctx "Name: " "carrierName" ++ part ctx "DOT: " "dotNumber" ++
          part ctx "MC: " "mcNumber" ++ part ctx "Status: " "operatingStatus"))
      "FMCSA info copied!"
  else if String.eqb action "find_in_close" then
    if truthy dotNumber then SendMessage ("Find lead in Close with DOT " +:+ toString dotNumber)
    else if truthy carrierName
    then SendMessage ("Find lead in Close named " +:+ toString carrierName)
    else NoEffect
  else NoEffect.

(** The bar as the page shows it. *)
Record bar := {
  hidden : bool;
  data_site : option string;
  siteText : json;
  detailsText : string;
  buttons : list contextAction
}.

(** updateContextBar(context); [None] is a null context. *)
Definition updateContextBar (context : option context) (b : bar) : bar :=
  let hide :=
    {| hidden := true; data_site := data_site b; siteText := siteText b;
       detailsText := detailsText b; buttons := buttons b |} in
  match context with
  | None => hide
  | Some ctx =>
      if site_is ctx "unknown" then hide
      else {| hidden := false; data_site := Some (toString (field ctx "site"));
              siteText := getSiteLabel ctx; detailsText := getContextDetails ctx;
              buttons := getContextActions ctx |}
  end.

End ContextBar.

(** ** Page snapshots *)

Module PageState.
Import JS.
Import BrowserTools.

(** Further properties of an element that the snapshots read; a property
    that the element's interface does not have is [None]. *)
Record facet := {
  el_type : option string;
  el_placeholder : option string;
  required : option bool;
  disabled : option bool;
  closest_label : option nat;             (* el.closest('label') *)
  previousElementSibling : option nat;
  href : string
}.

Record page := {
  doc : document;
  facets : nat -> facet;
  location_href : string;
  doc_title : string;
  body : nat                              (* document.body *)
}.

Definition opt_str (v : option string) : json :=
  match v with Some s => JStr s | None => JUndefined end.
Definition opt_bool (v : option bool) : json :=
  match v with Some b => JBool b | None => JUndefined end.

Definition trimmed_text (pg : page) (el : nat) : string :=
  Worker.trim (textContent (store (doc pg) el)).

Definition findLabelFor (pg : page) (el : nat) : json :=
  let by_for :=
    if String.eqb (el_id (store (doc pg) el)) "" then None
    else querySelector (doc pg)
           ("label[for=" +:+ dquote +:+ el_id (store (doc pg) el) +:+ dquote +:+ "]") in
  match by_for with
  | Some l => JStr (trimmed_text pg l)
  | None =>
      match closest_label (facets pg el) with
      | Some parent => JStr (trimmed_text pg parent)
      | None =>
          match previousElementSibling (facets pg el) with
          | Some prev =>
              if String.eqb (tagName (store (doc pg) prev)) "LABEL"
              then JStr (trimmed_text pg prev) else JNull
          | None => JNull
          end
      end
  end.

Definition form_entry (pg : page) (el : nat) : json :=
  let e := store (doc pg) el in
  let f := facets pg el in
  JObj [("tag", JStr (toLowerCase (tagName e))); ("type", opt_str (el_type f));
        ("name", JStr (el_name e)); ("id", JStr (el_id e)); ("label", findLabelFor pg el);
        ("value", if bool_decide (el_type f = Some "password") then JStr "***"
                  else opt_str (take_chars 50 <$> el_value e));
        ("placeholder", opt_str (el_placeholder f)); ("required", opt_bool (required f));
        ("disabled", opt_bool (disabled f))].

Definition extractForms (pg : page) : list json :=
  form_entry pg <$> take 101 (querySelectorAll (doc pg) "input, select, textarea").

Definition buttons_selector : string :=
  button_selector +:+ ", [role=" +:+ dquote +:+ "button" +:+ dquote +:+ "]".

Definition button_entry (pg : page) (el : nat) : json :=
  let e := store (doc pg) el in
  JObj [("text", if String.eqb (take_chars 50 (trimmed_text pg el)) ""
                 then opt_str (el_value e) else JStr (take_chars 50 (trimmed_text pg el)));
        ("id", JStr (el_id e)); ("disabled", opt_bool (disabled (facets pg el)))].

Definition extractButtons (pg : page) : list json :=
  button_entry pg <$> take 31 (querySelectorAll (doc pg) buttons_selector).

Definition link_entry (pg : page) (a : nat) : json :=
  JObj [("text", JStr (take_chars 50 (trimmed_text pg a))); ("href", JStr (href (facets pg a)))].

Definition extractLinks (pg : page) : list json :=
  link_entry pg <$> take 21 (querySelectorAll (doc pg) "a[href]").

(** [s.replace(/\s+/g, ' ')]; [in_run]: the character before was white space. *)
Fixpoint collapse (in_run : bool) (s : string) : string :=
  match s with
  | EmptyString => EmptyString
  | String c rest =>
      if is_space c then
        if in_run then collapse true rest else String " " (collapse true rest)
      else String c (collapse false rest)
  end.

Definition main_selector : string :=
  "main, article, [role=" +:+ dquote +:+ "main" +:+ dquote +:+ "]".

Definition extractMainText (pg : page) : string :=
  let main := default (body pg) (querySelector (doc pg) main_selector) in
  take_chars 1000 (Worker.trim (collapse false (textContent (store (doc pg) main)))).

(** getPageState() of the content script. *)
Definition getPageState (pg : page) : json :=
  JObj [("url", JStr (location_href pg)); ("title", JStr (doc_title pg));
        ("forms", JArr (extractForms pg)); ("buttons", JArr (extractButtons pg));
        ("links", JArr (take 20 (extractLinks pg))); ("text", JStr (extractMainText pg))].

(** The function that the service worker's getPageState injects. *)
Definition snapshot_entry (pg : page) (el : nat) : json :=
  let e := store (doc pg) el in
  let f := facets pg el in
  JObj [("tag", JStr (toLowerCase (tagName e))); ("type", opt_str (el_type f));
        ("name", JStr (el_name e)); ("id", JStr (el_id e));
        ("placeholder", opt_str (el_placeholder f));
        ("value", opt_str (take_chars 100 <$> el_value e));
        ("text", JStr (take_chars 50 (textContent e)))].

Definition snapshot_elements (pg : page) : list json :=
  snapshot_entry pg <$> take 50 (querySelectorAll (doc pg) "input, select, textarea, button").

Definition snapshot (pg : page) : json :=
  JObj [("url", JStr (location_href pg)); ("title", JStr (doc_title pg));
        ("elements", JArr (snapshot_elements pg))].

(** A login page: a text input and a password input, handles 0 and 1. *)
Definition login_page : page :=
  {| doc :=
       {| store := λ h, if decide (h = 0) then
                          {| tagName := "INPUT"; el_id := "user"; el_name := "user";
                             el_value := Some "dispatcher"; textContent := ""; for_attr := None;
                             nested := None; nested_radio := None; parentText := None;
                             options := None; log := [] |}
                        else if decide (h = 1) then
                          {| tagName := "INPUT"; el_id := "pass"; el_name := "pass";
                             el_value := Some "hunter2"; textContent := ""; for_attr := None;
                             nested := None; nested_radio := None; parentText := None;
                             options := None; log := [] |}
                        else blank "BODY";
          querySelectorAll := λ sel,
            if String.eqb sel "input, select, textarea" then [0; 1]
            else if String.eqb sel "input, select, textarea, button" then [0; 1]
            else [];
          getElementById := λ i,
            if String.eqb i "user" then Some 0 else if String.eqb i "pass" then Some 1 else None;
          evaluate := λ _, Some None;
     syntax_error := sample_syntax_error |};
     facets := λ h,
       {| el_type := if decide (h = 1) then Some "password" else Some "text";
          el_placeholder := Some ""; required := Some false; disabled := Some false;
          closest_label := None; previousElementSibling := None; href := "" |};
     location_href := "https://portal.example.test/login";
     doc_title := "Sign in";
     body := 2 |}.

End PageState.

(** ** The service worker's listener and its cache of page contexts *)

Module Listener.
Import JS.
Import PageWatcher.

Inductive request :=
| CAPTURE_SCREENSHOT
| GET_TAB_STATE
| GET_PAGE_STATE
| EXECUTE_BROWSER_ACTION (a : SidePanel.browserAction)
| PAGE_CONTEXT_UPDATE (message : context)
| GET_CACHED_CONTEXT (tabId : Z)
| OTHER (type : string).

Record worker := {
  browser : Worker.chrome;
  pageContextCache : gmap Z context;
  forwarded : list context              (* messages sent on to the side panel *)
}.

(** [sender.tab?.id] as a value. *)
Definition sender_id (sender_tab : option Z) : json :=
  match sender_tab with Some i => JNum i | None => JUndefined end.

(** [{ type: 'PAGE_CONTEXT_UPDATE', ...message, tabId: sender.tab?.id }] *)
Definition forward (message : context) (sender_tab : option Z) : context :=
  assign "tabId" (sender_id sender_tab)
    (spread [("type", JStr "PAGE_CONTEXT_UPDATE")] message).

(** [operation().then(result => sendResponse(result))]: a rejection leaves
    the request without a response. *)
Definition respond (m : Worker.outcome (json * Worker.chrome)) (w : worker)
    : option json * worker :=
  match m with
  | Worker.Ok (r, c) =>
      (Some r, {| browser := c; pageContextCache := pageContextCache w;
                  forwarded := forwarded w |})
  | Worker.Throw _ => (None, w)
  end.

(** The listener: the response, if one is sent, and the worker afterwards. *)
Definition onMessage (message : request) (sender_tab : option Z) (w : worker)
    : option json * worker :=
  match message with
  | CAPTURE_SCREENSHOT => respond (Worker.captureScreenshot (browser w)) w
  | GET_TAB_STATE => respond (Worker.getTabState (browser w)) w
  | GET_PAGE_STATE => respond (Worker.getPageState (browser w)) w
  | EXECUTE_BROWSER_ACTION a => respond (Worker.Ok (Worker.executeBrowserAction (browser w) a)) w
  | PAGE_CONTEXT_UPDATE message =>
      (None,
       {| browser := browser w;
          pageContextCache :=
            match sender_tab with
            | Some i => if (i =? 0)%Z then pageContextCache w
                        else <[i := message]> (pageContextCache w)
            | None => pageContextCache w
            end;
          forwarded := forwarded w ++ [forward message sender_tab] |})
  | GET_CACHED_CONTEXT tabId =>
      (Some (JObj [("success", JBool true);
                   ("context", match pageContextCache w !! tabId with
                               | Some cached => JObj cached
                               | None => JNull
                               end)]), w)
  | OTHER _ => (None, w)
  end.

(** The worker after a sequence of requests, each with its sender's tab. *)
Definition serve (w : worker) (requests : list (request * option Z)) : worker :=
  foldl (λ w r, (onMessage r.1 r.2 w).2) w requests.

(** A context update that comes from tab [t]. *)
Definition updates_tab (t : Z) (r : request * option Z) : bool :=
  match r with
  | (PAGE_CONTEXT_UPDATE _, Some i) => (i =? t)%Z
  | _ => false
  end.

End Listener.

(** * Properties *)

(** ** Conversation history *)

Module HistoryFacts.
Import JS SidePanel.

Lemma slice_last_length {A} (n : nat) (l : list A) : length (slice_last n l) ≤ n.
Proof. unfold slice_last. rewrite length_drop. lia. Qed.

Lemma slice_last_suffix {A} (n : nat) (l : list A) : slice_last n l `suffix_of` l.
Proof. unfold slice_last. apply suffix_drop. Qed.

Lemma renderMessage_state m p : (renderMessage m p).1 = p.1.
Proof. reflexivity. Qed.

Lemma loadMessages_messages p :
  messages (loadMessages p).1 = messages p.1 ++ default [] (stored p.2).
Proof.
  unfold loadMessages. set (saved := default [] (stored p.2)).
  set (p0 := if (0 <? length saved)%nat then _ else p).
  assert (H0 : messages p0.1 = messages p.1) by (subst p0; by destruct (0 <? _)%nat).
  rewrite <- H0. clear H0. generalize p0. clear p0.
  induction saved as [|msg rest IH]; intros q; simpl.
  - by rewrite app_nil_r.
  - rewrite IH. simpl. by rewrite <- app_assoc.
Qed.

Lemma addMessage_messages m p : messages (addMessage m p).1 = messages p.1 ++ [m].
Proof. reflexivity. Qed.

Lemma handleServerMessage_storage now f p :
  stored (handleServerMessage now f p).2 = stored p.2 ∨
  ∃ l, stored (handleServerMessage now f p).2 = Some (slice_last 100 l).
Proof.
  destruct f;
    try (cbn [handleServerMessage]; destruct (renderDataCard_throws _ _); by left);
    simpl; eauto.
  - left. destruct (current _); [| done]. destruct (list_find _ _) as [[??]|]; [| done].
    unfold updateStreamingMessage. simpl. by destruct (getElementById _ _) as [[??]|].
  - destruct (current _); eauto.
  - left. destruct (current _); [| done]. simpl.
    destruct (getElementById _ _) as [[??]|]; [| done].
    by destruct (list_find _ _) as [[??]|].
  - left. by destruct (getElementById _ _) as [[??]|].
Qed.

Lemma handleFiles_storage read fl p : stored (handleFiles read fl p).2 = stored p.2.
Proof.
  revert p. induction fl as [|f fl IH]; intros p; cbn [handleFiles]; [done |].
  destruct (maxSize <? file_size f)%Z; [by rewrite IH |].
  destruct (negb _); [by rewrite IH |].
  destruct (read f); [by rewrite IH | done].
Qed.

Lemma step_storage read p e :
  stored (step read p e).2 = stored p.2 ∨
  ∃ l, stored (step read p e).2 = Some (slice_last 100 l).
Proof.
  destruct e; cbn [step].
  - apply handleServerMessage_storage.
  - left. unfold browserActionCallback. by destruct (ws p.1) as [[]|].
  - left. unfold onopen, sendTabState. simpl. by destruct (currentTab p.1).
  - left. unfold onclose. simpl. by destruct (_ <? _).
  - left. unfold connectWebSocket. by destruct (ws p.1) as [[]|].
  - left. apply handleFiles_storage.
  - by left.
  - unfold sendMessage. destruct (is_blank text && _); [by left | right].
    simpl. destruct (connected p.1); [destruct (ws p.1) |]; simpl; eauto.
Qed.

Lemma run_storage read p evs :
  snapshot_capped p.2 → snapshot_capped (run read p evs).2.
Proof.
  revert p. induction evs as [|e evs IH]; intros p H; [done |].
  change (run read p (e :: evs)) with (run read (step read p e) evs).
  apply IH. unfold snapshot_capped.
  destruct (step_storage read p e) as [-> | [l ->]]; [exact H | apply slice_last_length].
Qed.

(** C10. Every snapshot that saveMessages persists is the last (at most)
    100 messages of the in-memory history, and nothing else writes the
    stored history: from a first start, whatever the panel does, storage
    holds at most 100 messages.  So the history that a reload restores
    has at most 100 entries; the in-memory history itself grows by one
    with every message added, without bound. *)
Theorem persisted_history_is_capped :
  (∀ p, stored (saveMessages p).2 = Some (slice_last 100 (messages p.1))) ∧
  (∀ l : list message, length (slice_last 100 l) ≤ 100 ∧ slice_last 100 l `suffix_of` l) ∧
  (∀ read welcome tab evs,
     snapshot_capped (run read (init welcome None tab) evs).2 ∧
     ∀ welcome',
       length (messages (boot welcome'
                 (stored (run read (init welcome None tab) evs).2)).1) ≤ 100) ∧
  (∀ p welcome,
     messages (boot welcome (stored (saveMessages p).2)).1 = slice_last 100 (messages p.1) ∧
     length (messages (boot welcome (stored (saveMessages p).2)).1) ≤ 100) ∧
  (∀ p now n,
     length (messages (handle_all p (replicate n (now, agent_message "ok"))).1)
     = length (messages p.1) + n).
Proof.
  split_and!.
  - done.
  - intros l. split; [apply slice_last_length | apply slice_last_suffix].
  - intros read welcome tab evs.
    assert (H : snapshot_capped (run read (init welcome None tab) evs).2).
    { apply run_storage. unfold init, connectWebSocket, boot. by destruct tab. }
    split; [exact H |]. intros welcome'. unfold boot. rewrite loadMessages_messages.
    change (length (default [] (stored (run read (init welcome None tab) evs).2)) ≤ 100).
    unfold snapshot_capped in H.
    destruct (stored (run read (init welcome None tab) evs).2); simpl; [done | lia].
  - intros p welcome. unfold boot. rewrite loadMessages_messages. simpl.
    split; [done | apply slice_last_length].
  - intros p now n. revert p. induction n as [|n IH]; intros p; simpl.
    + lia.
    + unfold handle_all in IH. rewrite IH. simpl.
      rewrite length_app. simpl. lia.
Qed.

End HistoryFacts.

(** ** Streaming *)

Module StreamingFacts.
Import JS SidePanel.

Lemma string_app_assoc (a b c : string) : (a +:+ b) +:+ c = a +:+ (b +:+ c).
Proof.
  induction a as [|x a IH]; [done |].
  change (String x ((a +:+ b) +:+ c) = String x (a +:+ (b +:+ c))). by rewrite IH.
Qed.

Lemma string_app_empty_r (a : string) : a +:+ "" = a.
Proof.
  induction a as [|x a IH]; [done |].
  change (String x (a +:+ "") = String x a). by rewrite IH.
Qed.

Lemma updateStreamingMessage_state i c p : (updateStreamingMessage i c p).1 = p.1.
Proof. unfold updateStreamingMessage. by destruct (getElementById _ _) as [[??]|]. Qed.

Lemma finishStreamingMessage_messages i p :
  messages (finishStreamingMessage i p).1 = messages p.1 ∧
  currentStreamId (finishStreamingMessage i p).1 = currentStreamId p.1.
Proof. unfold finishStreamingMessage. by destruct (getElementById _ _) as [[??]|]. Qed.

Lemma stream_id_current now : current (Some (stream_id now)) = Some (stream_id now).
Proof. reflexivity. Qed.

(** The first message that carries [sid], when only the last one does. *)
Lemma find_last_by_id sid (old : list message) (m : message) :
  Forall (λ x, mid x ≠ Some sid) old → mid m = Some sid →
  list_find (λ x, mid x = Some sid) (old ++ [m]) = Some (length old, m).
Proof.
  intros Hold Hm. rewrite list_find_app_r by (by apply list_find_None).
  simpl. rewrite decide_True by done. done.
Qed.

Section OneStream.
Variables (old : list message) (t0 : Z).
Let sid := stream_id t0.
Let opened := opened t0.
Let streaming_at := streaming_at old t0.
Hypothesis fresh : Forall (λ x, mid x ≠ Some sid) old.

Lemma start_opens p :
  messages p.1 = old → streaming_at "" (handleServerMessage t0 response_start p).
Proof. intros H. split; simpl; [by rewrite H | done]. Qed.

Lemma chunk_appends text t c p :
  streaming_at text p →
  streaming_at (text +:+ c) (handleServerMessage t (response_chunk c) p).
Proof.
  intros [Hm Hc]. unfold handleServerMessage. rewrite Hc.
  rewrite stream_id_current. rewrite Hm.
  rewrite (find_last_by_id _ old (opened text)) by done.
  split.
  - rewrite updateStreamingMessage_state. simpl.
    rewrite insert_app_r_alt by lia. by rewrite Nat.sub_diag.
  - by rewrite updateStreamingMessage_state.
Qed.

Lemma chunks_append text (chunks : list (Z * string)) p :
  streaming_at text p →
  streaming_at (text +:+ concat_strings chunks.*2)
    (handle_all p ((λ tc, (tc.1, response_chunk tc.2)) <$> chunks)).
Proof.
  revert text p. induction chunks as [|[t c] rest IH]; intros text p H; simpl.
  - by rewrite string_app_empty_r.
  - rewrite <- string_app_assoc. apply IH. exact (chunk_appends text t c p H).
Qed.

Lemma end_closes text te p :
  streaming_at text p →
  messages (handleServerMessage te response_end p).1 = old ++ [opened text] ∧
  currentStreamId (handleServerMessage te response_end p).1 = None.
Proof.
  intros [Hm Hc]. unfold handleServerMessage. rewrite Hc.
  rewrite stream_id_current.
  destruct (finishStreamingMessage_messages (stream_id t0) p) as [Hf _].
  split; [| done].
  change (messages (finishStreamingMessage (stream_id t0) p).1 = old ++ [opened text]).
  by rewrite Hf.
Qed.

(** With an id that no earlier message carries, the streamed message ends
    up holding the chunks in order. *)
Lemma fresh_stream_holds_concatenation te (chunks : list (Z * string)) p :
  messages p.1 = old →
  let p' := handle_all p ((t0, response_start)
              :: ((λ tc, (tc.1, response_chunk tc.2)) <$> chunks) ++ [(te, response_end)]) in
  messages p'.1 = old ++ [opened (concat_strings chunks.*2)] ∧
  currentStreamId p'.1 = None.
Proof.
  intros Hold p'. subst p'. unfold handle_all.
  rewrite app_comm_cons, foldl_snoc.
  apply (end_closes (concat_strings chunks.*2) te).
  apply (chunks_append "" chunks (handleServerMessage t0 response_start p)).
  by apply start_opens.
Qed.
End OneStream.

(** C1 (what the dispatcher does when two streams start within one
    millisecond).  The stream id is "stream-" followed by the clock
    reading, and a chunk is appended to the first message that carries the
    current id.  When a second response_start is handled at the clock
    reading of an earlier one, the chunks of the second stream land in the
    message of the first: after start, chunk "a", end, start, chunk "b",
    end, all at reading 1000, the first message holds "ab" and the message
    of the second stream is still empty instead of holding "b". *)
Theorem second_stream_in_same_millisecond_loses_its_chunks :
  let frames := [(1000%Z, response_start); (1000%Z, response_chunk "a"); (1000%Z, response_end);
                 (1000%Z, response_start); (1000%Z, response_chunk "b"); (1000%Z, response_end)] in
  content <$> messages (handle_all (boot [] None) frames).1 = ["ab"; ""] ∧
  mid <$> messages (handle_all (boot [] None) frames).1
    = [Some "stream-1000"; Some "stream-1000"].
Proof. split; vm_compute; reflexivity. Qed.

End StreamingFacts.

(** ** Tool lifecycle *)

Module ToolFacts.
Import JS SidePanel.

Lemma find_only_last {A} (P : A → Prop) `{∀ x, Decision (P x)} (old : list A) (x : A) :
  Forall (λ y, ¬ P y) old → P x → list_find P (old ++ [x]) = Some (length old, x).
Proof.
  intros Hold Hx. rewrite list_find_app_r by (by apply list_find_None).
  simpl. by rewrite decide_True.
Qed.

Lemma remove_first_Forall (P : node → Prop) f (l : list node) :
  Forall P l → Forall P (remove_first f l).
Proof.
  induction 1 as [|x l Hx Hl IH]; simpl; [constructor |].
  destruct (f x); [done | by constructor].
Qed.

Lemma tool_id_current t : current (Some (tool_id t)) = Some (tool_id t).
Proof. reflexivity. Qed.

(** What tool_call leaves on the page: the shown nodes, less the welcome
    banner, then the loading card. *)
Lemma tool_call_dom p t tool args :
  ∃ shown,
    (∀ P : node → Prop, Forall P (dom p.2) → Forall P shown) ∧
    dom (handleServerMessage t (tool_call tool args) p).2 =
      shown ++ [{| nid := tool_id t; nclasses := ["tool-card"; "loading"];
                   nbody := BToolLoading (toolInfo (Some tool)).2 |}].
Proof.
  eexists. split; [| reflexivity].
  intros P HP. simpl. destruct (existsb _ _ && _); [by apply remove_first_Forall | done].
Qed.

(** tool_result resolves the first entry and the first card that carry the
    current tool id; the frame itself names no invocation. *)
Lemma tool_result_resolves p t result tid k m j card :
  current (currentToolId p.1) = Some tid →
  list_find (λ x, toolId x = Some tid) (messages p.1) = Some (k, m) →
  getElementById tid (dom p.2) = Some (j, card) →
  handleServerMessage t (tool_result result) p =
    (with_currentToolId None (with_messages (<[k := resolved_entry m result]> (messages p.1)) p.1),
     with_dom (<[j := resolved_card card m result]> (dom p.2)) p.2).
Proof.
  intros Hc Hm Hd. unfold handleServerMessage. rewrite Hc, Hd, Hm.
  destruct (isErrorResult result) eqn:He;
    unfold resolved_entry, resolved_card; rewrite He; reflexivity.
Qed.

(** With an id that no earlier message and no earlier card carries, a
    tool_call for "search_leads" followed by a tool_result with result
    {leads:[l]} adds one tool-status entry; it is "loading" after the call
    and "complete" with the summary "Found 1 lead" after the result, and
    so is its card.  A tool_result leaves the panel as it is when no
    invocation is current. *)
Lemma fresh_tool_call_then_result :
  ∀ p t1 t2 args l,
    Forall (λ m, toolId m ≠ Some (tool_id t1)) (messages p.1) →
    Forall (λ n, nid n ≠ tool_id t1) (dom p.2) →
    let p1 := handleServerMessage t1 (tool_call "search_leads" args) p in
    let p2 := handleServerMessage t2 (tool_result (JObj [("leads", JArr [l])])) p1 in
    (messages p1.1 = messages p.1 ++ [tool_entry t1 "search_leads" args "loading" None] ∧
     messages p2.1 = messages p.1 ++
       [tool_entry t1 "search_leads" args "complete" (Some "Found 1 lead")] ∧
     (∃ shown,
        dom p1.2 = shown ++ [{| nid := tool_id t1; nclasses := ["tool-card"; "loading"];
                                nbody := BToolLoading "Searching Close CRM..." |}] ∧
        dom p2.2 = shown ++ [{| nid := tool_id t1; nclasses := ["tool-card"; "complete"];
                                nbody := BToolDone false "Close CRM Search" "Found 1 lead" |}]) ∧
     currentToolId p1.1 = Some (tool_id t1) ∧ currentToolId p2.1 = None) ∧
    (∀ q t result tid k m j card,
       current (currentToolId q.1) = Some tid →
       list_find (λ x, toolId x = Some tid) (messages q.1) = Some (k, m) →
       getElementById tid (dom q.2) = Some (j, card) →
       messages (handleServerMessage t (tool_result result) q).1
         = <[k := resolved_entry m result]> (messages q.1) ∧
       currentToolId (handleServerMessage t (tool_result result) q).1 = None) ∧
    (∀ q t result,
       current (currentToolId q.1) = None →
       handleServerMessage t (tool_result result) q = q).
Proof.
  intros p t1 t2 args l Hm Hd p1 p2.
  destruct (tool_call_dom p t1 "search_leads" args) as (shown & Hshown & Hdom).
  fold p1 in Hdom.
  assert (Hfind : list_find (λ x, toolId x = Some (tool_id t1)) (messages p1.1)
                  = Some (length (messages p.1),
                          tool_entry t1 "search_leads" args "loading" None)).
  { apply (find_only_last (λ x, toolId x = Some (tool_id t1))); [| done].
    eapply Forall_impl; [exact Hm | done]. }
  assert (Hget : getElementById (tool_id t1) (dom p1.2)
                 = Some (length shown,
                         {| nid := tool_id t1; nclasses := ["tool-card"; "loading"];
                            nbody := BToolLoading (toolInfo (Some "search_leads")).2 |})).
  { rewrite Hdom. unfold getElementById.
    apply (find_only_last (λ n, nid n = tool_id t1)); [| done].
    apply Hshown. eapply Forall_impl; [exact Hd | done]. }
  pose proof (tool_result_resolves p1 t2 (JObj [("leads", JArr [l])]) _ _ _ _ _
                (tool_id_current t1) Hfind Hget) as Hres.
  fold p2 in Hres.
  split_and!.
  - reflexivity.
  - rewrite Hres. cbn [fst messages with_currentToolId with_messages].
    change (messages p1.1) with
      (messages p.1 ++ [tool_entry t1 "search_leads" args "loading" None]).
    rewrite insert_app_r_alt by lia. rewrite Nat.sub_diag. reflexivity.
  - exists shown. split; [exact Hdom |].
    rewrite Hres. cbn [snd dom with_dom]. rewrite Hdom.
    rewrite insert_app_r_alt by lia. rewrite Nat.sub_diag. reflexivity.
  - reflexivity.
  - by rewrite Hres.
  - intros q t result tid k m j card Hc Hf Hg.
    rewrite (tool_result_resolves q t result tid k m j card Hc Hf Hg). done.
  - intros q t result Hc. unfold handleServerMessage. by rewrite Hc.
Qed.

(** The scenario on a panel that has just started with an empty history. *)
Lemma fresh_tool_call_example :
  let p := boot [] None in
  let p1 := handleServerMessage 1000 (tool_call "search_leads" (JObj [("query", JStr "LDJ")])) p in
  let p2 := handleServerMessage 1001 (tool_result (JObj [("leads", JArr [JObj []])])) p1 in
  toolStatus <$> messages p1.1 = [Some "loading"] ∧
  toolSummary <$> messages p2.1 = [Some "Found 1 lead"] ∧
  handleServerMessage 1002 (tool_result JNull) p = p.
Proof.
  pose proof (fresh_tool_call_then_result (boot [] None) 1000 1001
                (JObj [("query", JStr "LDJ")]) (JObj [])
                (Forall_nil_2 _) (Forall_nil_2 _)) as H.
  cbv zeta in H. destruct H as ((Ha & Hb & _) & _ & H3).
  cbv zeta. split_and!.
  - by rewrite Ha.
  - by rewrite Hb.
  - apply (H3 (boot [] None) 1002%Z JNull). reflexivity.
Qed.

(** C6 (what the dispatcher does when two tools are called within one
    millisecond).  The tool id is "tool-" followed by the clock reading,
    and a tool_result resolves the first entry and the first card that
    carry the current id.  When a tool_call for "search_leads" is handled
    at the clock reading of an earlier one, its tool_result lands on the
    entry of the earlier invocation: after call, result {leads:[]}, call,
    result {leads:[l]}, all at reading 1000, the first entry, complete
    with "Found 0 leads" after its own result, now reads "Found 1 lead",
    and the entry and the card of the second invocation are still
    "loading", without a summary, while no invocation is current. *)
Theorem second_tool_in_same_millisecond_stays_loading :
  let l := JObj [("display_name", JStr "LDJ Trucking")] in
  let first := [(1000%Z, tool_call "search_leads" (JObj [("query", JStr "LDJ")]));
                (1000%Z, tool_result (JObj [("leads", JArr [])]))] in
  let second := [(1000%Z, tool_call "search_leads" (JObj [("query", JStr "ACME")]));
                 (1000%Z, tool_result (JObj [("leads", JArr [l])]))] in
  let p1 := handle_all (boot [] None) first in
  let p2 := handle_all p1 second in
  (toolId <$> messages p1.1 = [Some "tool-1000"] ∧
   toolStatus <$> messages p1.1 = [Some "complete"] ∧
   toolSummary <$> messages p1.1 = [Some "Found 0 leads"]) ∧
  (toolId <$> messages p2.1 = [Some "tool-1000"; Some "tool-1000"] ∧
   toolArgs <$> messages p2.1 = [JObj [("query", JStr "LDJ")]; JObj [("query", JStr "ACME")]] ∧
   toolStatus <$> messages p2.1 = [Some "complete"; Some "loading"] ∧
   toolSummary <$> messages p2.1 = [Some "Found 1 lead"; None] ∧
   nclasses <$> dom p2.2 = [["tool-card"; "complete"]; ["tool-card"; "loading"]] ∧
   nbody <$> dom p2.2 = [BToolDone false "Close CRM Search" "Found 1 lead";
                         BToolLoading "Searching Close CRM..."] ∧
   currentToolId p2.1 = None).
Proof. vm_compute. split_and!; reflexivity. Qed.

End ToolFacts.

(** ** Transport *)

Module TransportFacts.
Import JS SidePanel.

Lemma sendTabState_sent p :
  sent (sendTabState p).2 =
    sent p.2 ++ match ws p.1, currentTab p.1 with
                | Some _, Some t => [out_tab_state t]
                | _, _ => []
                end.
Proof.
  unfold sendTabState. destruct (ws p.1), (currentTab p.1); simpl;
    by rewrite ?app_nil_r.
Qed.

Lemma sendTabState_state p : (sendTabState p).1 = p.1.
Proof. unfold sendTabState. by destruct (ws p.1), (currentTab p.1). Qed.

Lemma onclose_budget p : budget (onclose p) = budget p.
Proof.
  unfold budget, onclose, reconnects. cbn [fst snd on_state on_world reconnectAttempts
    with_ws with_connected with_reconnectAttempts].
  destruct (reconnectAttempts p.1 <? maxReconnectAttempts) eqn:E.
  - apply Nat.ltb_lt in E.
    cbn [fst snd on_state on_world reconnectAttempts with_reconnectAttempts timers with_timers].
    rewrite List.filter_app, length_app. cbn [List.filter is_reconnect length]. lia.
  - done.
Qed.

Lemma handleServerMessage_transport now f p :
  reconnectAttempts (handleServerMessage now f p).1 = reconnectAttempts p.1 ∧
  timers (handleServerMessage now f p).2 = timers p.2.
Proof.
  destruct f;
    try (cbn [handleServerMessage]; by destruct (renderDataCard_throws _ _));
    simpl; try done.
  - destruct (current _); [| done]. destruct (list_find _ _) as [[??]|]; [| done].
    unfold updateStreamingMessage. simpl. by destruct (getElementById _ _) as [[??]|].
  - destruct (current _); [| done]. simpl.
    unfold finishStreamingMessage. by destruct (getElementById _ _) as [[??]|].
  - destruct (current _); [| done]. simpl.
    destruct (getElementById _ _) as [[??]|]; [| done].
    by destruct (list_find _ _) as [[??]|].
  - by destruct (getElementById _ _) as [[??]|].
Qed.

Lemma handleFiles_transport read fl p :
  reconnectAttempts (handleFiles read fl p).1 = reconnectAttempts p.1 ∧
  timers (handleFiles read fl p).2 = timers p.2.
Proof.
  revert p. induction fl as [|f fl IH]; intros p; simpl; [done |].
  destruct (maxSize <? file_size f)%Z; [by rewrite !(proj1 (IH _)), !(proj2 (IH _)) |].
  destruct (negb _); [by rewrite !(proj1 (IH _)), !(proj2 (IH _)) |].
  destruct (read f); [| done]. by rewrite !(proj1 (IH _)), !(proj2 (IH _)).
Qed.

Lemma sendMessage_transport now text p :
  reconnectAttempts (sendMessage now text p).1 = reconnectAttempts p.1 ∧
  reconnects (sendMessage now text p) = reconnects p.
Proof.
  unfold sendMessage, reconnects.
  destruct (is_blank text && _); [done |]. simpl.
  destruct (connected p.1); simpl.
  - destruct (ws p.1); simpl; [done |].
    by rewrite List.filter_app, length_app, Nat.add_0_r.
  - by rewrite List.filter_app, length_app, Nat.add_0_r.
Qed.

Lemma step_budget read p e : e ≠ EOpen → budget (step read p e) = budget p.
Proof.
  intros He. destruct e; cbn [step]; [| | done | | | | |].
  - unfold budget, reconnects.
    by rewrite (proj1 (handleServerMessage_transport now f p)),
               (proj2 (handleServerMessage_transport now f p)).
  - unfold browserActionCallback. destruct (ws p.1) as [[]|]; done.
  - apply onclose_budget.
  - unfold connectWebSocket. destruct (ws p.1) as [[]|]; done.
  - unfold budget, reconnects.
    by rewrite (proj1 (handleFiles_transport read fileList p)),
               (proj2 (handleFiles_transport read fileList p)).
  - done.
  - unfold budget.
    by rewrite (proj1 (sendMessage_transport now text p)),
               (proj2 (sendMessage_transport now text p)).
Qed.

Lemma run_budget read p evs :
  Forall (λ e, e ≠ EOpen) evs → budget (run read p evs) = budget p.
Proof.
  intros H. revert p. induction H as [|e evs He _ IH]; intros p; [done |].
  change (run read p (e :: evs)) with (run read (step read p e) evs).
  rewrite IH. by apply step_budget.
Qed.

(** C8 (the transport of the side panel, and the earlier worker's).  In the
    side panel a close schedules one reconnection after the configured
    delay when the counter is below the configured maximum, and counts it;
    beyond the maximum it schedules nothing.  An open resets the counter
    and sends the tab state when one is known.  So however the panel runs
    without an open (closes, timers, frames, sends and attachments in any
    order), no more reconnections are scheduled than the counter still
    allowed at the start, at most the maximum.  The earlier worker that
    owned the socket has no counter: every close schedules a reconnection,
    and an open sends nothing to the backend. *)
Theorem side_panel_reconnects_within_cap :
  (∀ p,
     if reconnectAttempts p.1 <? maxReconnectAttempts then
       timers (onclose p).2 = timers p.2 ++ [TReconnect reconnectDelay] ∧
       reconnectAttempts (onclose p).1 = S (reconnectAttempts p.1)
     else
       timers (onclose p).2 = timers p.2 ∧
       reconnectAttempts (onclose p).1 = reconnectAttempts p.1) ∧
  (∀ p,
     reconnectAttempts (onopen p).1 = 0 ∧ connected (onopen p).1 = true ∧
     sent (onopen p).2 =
       sent p.2 ++ match currentTab p.1 with Some t => [out_tab_state t] | None => [] end) ∧
  (∀ read p evs,
     Forall (λ e, e ≠ EOpen) evs →
     reconnects (run read p evs)
       ≤ reconnects p + (maxReconnectAttempts - reconnectAttempts p.1) ∧
     reconnects p + (maxReconnectAttempts - reconnectAttempts p.1)
       ≤ reconnects p + maxReconnectAttempts) ∧
  (∀ n s,
     length (LegacyWorker.timers (LegacyWorker.failed_rounds n s))
       = length (LegacyWorker.timers s) + n ∧
     LegacyWorker.sent (LegacyWorker.onopen s) = LegacyWorker.sent s).
Proof.
  split_and!.
  - intros p. unfold onclose. simpl.
    by destruct (reconnectAttempts p.1 <? maxReconnectAttempts).
  - intros p. unfold onopen. rewrite sendTabState_state, sendTabState_sent.
    split_and!; done.
  - intros read p evs H. pose proof (run_budget read p evs H) as Hb.
    unfold budget in Hb. lia.
  - intros n s. split; [| done].
    unfold LegacyWorker.failed_rounds.
    induction n as [|n IH]; [simpl; lia |].
    rewrite Nat.iter_succ. set (x := Nat.iter n _ s) in *.
    unfold LegacyWorker.onclose. cbn [LegacyWorker.timers]. rewrite length_app.
    replace (LegacyWorker.timers (LegacyWorker.connectWebSocket true x))
      with (LegacyWorker.timers x).
    + cbn [length]. lia.
    + unfold LegacyWorker.connectWebSocket. by destruct (LegacyWorker.ws x) as [[]|].
Qed.

(** Seven failed rounds after start-up schedule five reconnections. *)
Lemma side_panel_reconnects_witness :
  let evs := concat (replicate 7 [EClose; EReconnectTimer]) in
  Forall (λ e, e ≠ EOpen) evs ∧
  reconnects (run (λ _, None) (boot [] None) evs) ≤ 5 ∧
  reconnects (run (λ _, None) (boot [] None) evs) = 5.
Proof.
  intros evs.
  assert (H : Forall (λ e, e ≠ EOpen) evs) by (subst evs; repeat constructor; done).
  split_and!; [exact H | | reflexivity].
  exact (proj1 (proj1 (proj2 (proj2 side_panel_reconnects_within_cap))
                  (λ _, None) (boot [] None) evs H)).
Defined.

(** C8, the transport without a cap: the earlier worker schedules a sixth
    reconnection after six closes in a row, one more than the side panel's
    maximum of five allows, and sends nothing when its socket opens. *)
Lemma legacy_worker_reconnects_past_cap :
  length (LegacyWorker.timers (LegacyWorker.failed_rounds 6 LegacyWorker.initial)) = 6 ∧
  ¬ (length (LegacyWorker.timers (LegacyWorker.failed_rounds 6 LegacyWorker.initial))
       ≤ maxReconnectAttempts) ∧
  LegacyWorker.sent (LegacyWorker.onopen (LegacyWorker.connectWebSocket true LegacyWorker.initial))
    = [].
Proof. split_and!; [reflexivity | vm_compute; lia | reflexivity]. Qed.

End TransportFacts.

(** ** Attachments *)

Module AttachmentFacts.
Import JS SidePanel.

Lemma acceptable_spec f :
  acceptable f = true ↔ (file_size f ≤ maxSize)%Z ∧ file_type f ∈ allowedTypes.
Proof.
  unfold acceptable. rewrite andb_true_iff, negb_true_iff, Z.ltb_ge.
  rewrite existsb_exists. split; intros [Hs Ht]; (split; [done |]).
  - destruct Ht as (t & Hin & Heq). apply String.eqb_eq in Heq. subst t.
    by apply list_elem_of_In.
  - exists (file_type f). split; [by apply list_elem_of_In | apply String.eqb_refl].
Qed.

Lemma type_check_spec f :
  existsb (String.eqb (file_type f)) allowedTypes = true ↔ file_type f ∈ allowedTypes.
Proof.
  rewrite existsb_exists. split.
  - intros (t & Hin & Heq). apply String.eqb_eq in Heq. subst t. by apply list_elem_of_In.
  - intros H. exists (file_type f). split; [by apply list_elem_of_In | apply String.eqb_refl].
Qed.

Lemma handleFiles_sent read fl p : sent (handleFiles read fl p).2 = sent p.2.
Proof.
  revert p. induction fl as [|f fl IH]; intros p; simpl; [done |].
  destruct (maxSize <? file_size f)%Z; [by rewrite IH |].
  destruct (negb _); [by rewrite IH |].
  destruct (read f); [by rewrite IH | done].
Qed.

Lemma handleFiles_pending read fl p :
  Forall within_limits (pendingFiles p.1) →
  Forall within_limits (pendingFiles (handleFiles read fl p).1).
Proof.
  revert p. induction fl as [|f fl IH]; intros p H; cbn [handleFiles]; [done |].
  destruct (maxSize <? file_size f)%Z eqn:Es; [by apply IH |].
  destruct (existsb _ allowedTypes) eqn:Et; cbn [negb]; [| by apply IH].
  destruct (read f) as [b|]; [| done]. apply IH. simpl.
  apply Forall_app. split; [done |]. constructor; [| constructor].
  split; simpl.
  - apply Z.ltb_ge in Es. lia.
  - by apply type_check_spec.
Qed.

Lemma handleServerMessage_files now f p :
  pendingFiles (handleServerMessage now f p).1 = pendingFiles p.1 ∧
  sent (handleServerMessage now f p).2 = sent p.2.
Proof.
  destruct f;
    try (cbn [handleServerMessage]; by destruct (renderDataCard_throws _ _));
    simpl; try done.
  - destruct (current _); [| done]. destruct (list_find _ _) as [[??]|]; [| done].
    unfold updateStreamingMessage. simpl. by destruct (getElementById _ _) as [[??]|].
  - destruct (current _); [| done]. simpl.
    unfold finishStreamingMessage. by destruct (getElementById _ _) as [[??]|].
  - destruct (current _); [| done]. simpl.
    destruct (getElementById _ _) as [[??]|]; [| done].
    by destruct (list_find _ _) as [[??]|].
  - by destruct (getElementById _ _) as [[??]|].
Qed.

Lemma loadMessages_files (q : panel) :
  pendingFiles (loadMessages q).1 = pendingFiles q.1 ∧
  sent (loadMessages q).2 = sent q.2.
Proof.
  unfold loadMessages. set (saved := default [] (stored q.2)).
  set (q0 := if (0 <? length saved) then _ else q).
  assert (H0 : pendingFiles q0.1 = pendingFiles q.1 ∧ sent q0.2 = sent q.2)
    by (subst q0; by destruct (0 <? _)).
  destruct H0 as [<- <-]. generalize q0. clear.
  induction saved as [|m l IH]; intros q0; simpl; [done |].
  destruct (IH (renderMessage m (on_state (with_messages (messages q0.1 ++ [m])) q0)))
    as [-> ->]. done.
Qed.

Lemma outbound_files_send f p :
  outbound_files (send f p) = outbound_files p ++ frame_files f.
Proof.
  unfold outbound_files, send. simpl.
  by rewrite fmap_app, concat_app; simpl; rewrite app_nil_r.
Qed.

Lemma sendMessage_cases now text p :
  (sendMessage now text p = p) ∨
  (pendingFiles (sendMessage now text p).1 = [] ∧
   ((connected p.1 = true ∧ is_Some (ws p.1) ∧
     sent (sendMessage now text p).2 =
       sent p.2 ++ [out_message (if String.eqb text "" then "Please analyze this file." else text)
                      (currentTab p.1)
                      (if (0 <? length (pendingFiles p.1))%nat
                       then Some (pendingFiles p.1) else None)]) ∨
    ((connected p.1 = false ∨ ws p.1 = None) ∧
     sent (sendMessage now text p).2 = sent p.2))).
Proof.
  unfold sendMessage. destruct (is_blank text && _); [by left | right].
  simpl. destruct (connected p.1); simpl.
  - destruct (ws p.1) eqn:Ews; simpl.
    + split; [done |]. left. split_and!; [done | by eexists | done].
    + split; [done |]. right. split; [by right | done].
  - split; [done |]. right. split; [by left | done].
Qed.

Lemma step_keeps_limits read p e :
  Forall within_limits (pendingFiles p.1) → Forall within_limits (outbound_files p) →
  Forall within_limits (pendingFiles (step read p e).1) ∧
  Forall within_limits (outbound_files (step read p e)).
Proof.
  intros Hp Ho. destruct e; cbn [step].
  - unfold outbound_files.
    by rewrite (proj1 (handleServerMessage_files now f p)),
               (proj2 (handleServerMessage_files now f p)).
  - unfold browserActionCallback. destruct (ws p.1) as [[]|]; try done.
    split; [done |]. rewrite outbound_files_send. simpl. by rewrite app_nil_r.
  - unfold onopen. rewrite TransportFacts.sendTabState_state. split; [done |].
    unfold outbound_files. rewrite TransportFacts.sendTabState_sent. simpl.
    destruct (currentTab p.1); rewrite fmap_app, concat_app; simpl;
      by rewrite app_nil_r.
  - unfold onclose. simpl. by destruct (_ <? _).
  - unfold connectWebSocket. by destruct (ws p.1) as [[]|].
  - split; [by apply handleFiles_pending |].
    unfold outbound_files. by rewrite handleFiles_sent.
  - split; [| done]. simpl. by apply Forall_delete.
  - destruct (sendMessage_cases now text p) as [-> | [Hnil [(_ & _ & Hs) | [_ Hs]]]];
      [done | |]; rewrite Hnil; (split; [constructor |]);
      unfold outbound_files; rewrite Hs; [| done].
    rewrite fmap_app, concat_app. apply Forall_app. split; [done |].
    simpl. rewrite app_nil_r. by destruct (0 <? _).
Qed.

Lemma run_keeps_limits read p evs :
  Forall within_limits (pendingFiles p.1) → Forall within_limits (outbound_files p) →
  Forall within_limits (pendingFiles (run read p evs).1) ∧
  Forall within_limits (outbound_files (run read p evs)).
Proof.
  revert p. induction evs as [|e evs IH]; intros p Hp Ho; [done |].
  change (run read p (e :: evs)) with (run read (step read p e) evs).
  destruct (step_keeps_limits read p e Hp Ho). by apply IH.
Qed.

(** C7.  A file over 10MB, or of a type outside the allow-list, is answered
    with an alert that names it and is not queued; whatever the panel then
    does, each attachment of each frame it hands to the socket is within
    the size cap and of an allowed type.  A file that passes both checks
    and that the reader encodes is queued with its name, its type and the
    encoded text.  The next sendMessage empties the queue; it hands the
    socket one message frame whose files array is the queue when the panel
    is connected, and no frame at all when it is not. *)
Theorem attachments_checked_then_sent_if_connected :
  (∀ read f rest p,
     (maxSize < file_size f)%Z →
     handleFiles read (f :: rest) p = handleFiles read rest (alert (too_large_text f) p)) ∧
  (∀ read f rest p,
     (file_size f ≤ maxSize)%Z → file_type f ∉ allowedTypes →
     handleFiles read (f :: rest) p = handleFiles read rest (alert (unsupported_text f) p)) ∧
  (∀ read welcome storage tab evs,
     Forall within_limits (outbound_files (run read (init welcome storage tab) evs))) ∧
  (∀ read f base64 rest p,
     acceptable f = true → read f = Some base64 →
     handleFiles read (f :: rest) p =
       handleFiles read rest
         (on_state (with_pendingFiles (pendingFiles p.1 ++ [attach f base64])) p)) ∧
  (∀ now text p,
     connected p.1 = true → is_Some (ws p.1) → pendingFiles p.1 ≠ [] →
     sent (sendMessage now text p).2 =
       sent p.2 ++ [out_message (if String.eqb text "" then "Please analyze this file." else text)
                      (currentTab p.1) (Some (pendingFiles p.1))] ∧
     pendingFiles (sendMessage now text p).1 = []) ∧
  (∀ now text p,
     connected p.1 = false ∨ ws p.1 = None → pendingFiles p.1 ≠ [] →
     sent (sendMessage now text p).2 = sent p.2 ∧
     pendingFiles (sendMessage now text p).1 = []).
Proof.
  split_and!.
  - intros read f rest p H. cbn [handleFiles]. apply Z.ltb_lt in H. by rewrite H.
  - intros read f rest p Hs Ht. cbn [handleFiles].
    apply Z.ltb_ge in Hs. rewrite Hs.
    destruct (existsb _ allowedTypes) eqn:E; [by apply type_check_spec in E | done].
  - intros read welcome storage tab evs.
    apply run_keeps_limits.
    + unfold init, connectWebSocket, boot.
      destruct tab; destruct (ws _) as [[]|]; cbn [fst on_state pendingFiles with_ws
        with_currentTab]; rewrite (proj1 (loadMessages_files _)); constructor.
    + unfold outbound_files, init, connectWebSocket, boot.
      destruct tab; destruct (ws _) as [[]|]; cbn [snd on_state];
        rewrite (proj2 (loadMessages_files _)); constructor.
  - intros read f base64 rest p Ha Hr. cbn [handleFiles].
    apply acceptable_spec in Ha as [Hs Ht].
    apply Z.ltb_ge in Hs. rewrite Hs.
    apply type_check_spec in Ht. rewrite Ht. cbn [negb]. by rewrite Hr.
  - intros now text p Hc Hw Hne.
    unfold sendMessage.
    assert (Hlen : (0 <? length (pendingFiles p.1)) = true).
    { destruct (pendingFiles p.1); [done | done]. }
    rewrite Hlen. rewrite andb_false_r. simpl.
    rewrite Hc. destruct Hw as [r ->]. simpl. by rewrite Hlen.
  - intros now text p Hd Hne.
    unfold sendMessage.
    assert (Hlen : (0 <? length (pendingFiles p.1)) = true).
    { destruct (pendingFiles p.1); [done | done]. }
    rewrite Hlen. rewrite andb_false_r. simpl.
    destruct Hd as [-> | ->]; [done |]. by destruct (connected p.1).
Qed.

(** A 12MB PDF is turned away with an alert; a 2MB PNG is queued and goes
    out with the next message of a connected panel. *)
Lemma attachments_witness :
  let read := λ _ : File, Some "data:image/png;base64,iVBORw0KGgo=" in
  let big := {| file_name := "big.pdf"; file_type := "application/pdf";
                file_size := 12 * 1024 * 1024 |} in
  let png := {| file_name := "scan.png"; file_type := "image/png";
                file_size := 2 * 1024 * 1024 |} in
  let p := onopen (init [] None None) in
  let q := handleFiles read [png] p in
  handleFiles read [big] p = alert (too_large_text big) p ∧
  handleFiles read [{| file_name := "a.gif"; file_type := "image/gif"; file_size := 10 |}] p
    = alert (unsupported_text {| file_name := "a.gif"; file_type := "image/gif";
                                 file_size := 10 |}) p ∧
  pendingFiles q.1 = [attach png "data:image/png;base64,iVBORw0KGgo="] ∧
  sent (sendMessage 5 "see attached" q).2
    = [out_message "see attached" None (Some [attach png "data:image/png;base64,iVBORw0KGgo="])] ∧
  sent (sendMessage 5 "see attached" (init [] None None)).2 = [] ∧
  sent (sendMessage 5 "" (handleFiles read [png] (init [] None None))).2 = [].
Proof.
  intros read big png p q.
  destruct attachments_checked_then_sent_if_connected as (H1 & H2 & _ & H4 & H5 & H6).
  split_and!.
  - apply (H1 read big [] p). reflexivity.
  - apply (H2 read _ [] p); [vm_compute; discriminate |].
    intros Hin%type_check_spec. vm_compute in Hin. discriminate.
  - unfold q. rewrite (H4 read png "data:image/png;base64,iVBORw0KGgo=" [] p); reflexivity.
  - apply (H5 5%Z "see attached" q); [reflexivity | by eexists | discriminate].
  - reflexivity.
  - apply (H6 5%Z "" (handleFiles read [png] (init [] None None)));
      [by left | discriminate].
Defined.

(** C7, an accepted file that never goes out: a 2MB PNG is accepted and
    queued while the socket is still connecting; the user sends, which
    empties the queue without a frame; the socket opens; the next message
    frame that the panel sends carries no files, and no frame ever carried
    the PNG. *)
Lemma accepted_file_dropped_when_disconnected :
  let read := λ _ : File, Some "data:image/png;base64,iVBORw0KGgo=" in
  let png := {| file_name := "scan.png"; file_type := "image/png";
                file_size := 2 * 1024 * 1024 |} in
  let p0 := init [] None None in
  let p1 := run read p0 [EFiles [png]] in
  let p4 := run read p0 [EFiles [png]; ESend 1 "see attached"; EOpen; ESend 2 "hello"] in
  acceptable png = true ∧
  pendingFiles p1.1 = [attach png "data:image/png;base64,iVBORw0KGgo="] ∧
  sent p4.2 = [out_message "hello" None None] ∧
  outbound_files p4 = [].
Proof. vm_compute. split_and!; reflexivity. Qed.

End AttachmentFacts.

(** ** Element resolver *)

Module ResolverFacts.
Import JS BrowserTools.

Lemma first_of_first_some a rest : first_of a (first_some rest) = first_some (a :: rest).
Proof. by destruct a. Qed.

(** The first answer wins, and an attempt is reached exactly when all the
    attempts before it found nothing. *)
Lemma first_some_spec (attempts : list (option nat)) (el : nat) :
  first_some attempts = Some el ↔
  ∃ i, attempts !! i = Some (Some el) ∧ ∀ j, j < i → attempts !! j = Some None.
Proof.
  induction attempts as [|a rest IH]; simpl.
  - split; [done | by intros (i & H & _)].
  - destruct a as [x|].
    + split.
      * intros [= ->]. exists 0. split; [done | lia].
      * intros (i & Hi & Hlt). destruct i as [|i]; [by simplify_eq/= |].
        specialize (Hlt 0 ltac:(lia)). done.
    + rewrite IH. split.
      * intros (i & Hi & Hlt). exists (S i). split; [done |].
        intros [|j] Hj; [done |]. apply Hlt. lia.
      * intros (i & Hi & Hlt). destruct i as [|i]; [done |].
        exists i. split; [done |]. intros j Hj. apply (Hlt (S j)). lia.
Qed.

Lemma findElement_without_selector d t :
  hint (selector t) = None →
  findElement d t = first_some ((λ s, s d t) <$> fallbacks).
Proof.
  intros H. unfold findElement. rewrite H. simpl.
  by destruct (by_id d t), (by_name d t), (by_fieldref d t), (by_label d t),
              (by_placeholder d t), (by_buttonText d t).
Qed.

(** C3.  A present hint that is never tried.  On the page whose input has
    the id "email", a target with a selector hint that matches nothing and
    the id hint "email" does not resolve: the selector branch returns the
    answer of querySelector at once, null here, and fillField answers
    "Element not found", although no query throws, the id strategy finds
    the input, and the same target without its selector hint resolves to
    it.  The strategies after the selector do fall through: an id that
    matches nothing together with the label of the input resolves through
    the label. *)
Theorem selector_miss_hides_matching_id :
  let t := {| selector := Some ".missing"; id := Some "email"; name := None;
              fieldref := None; label := None; placeholder := None; buttonText := None |} in
  let without_selector :=
    {| selector := None; id := Some "email"; name := None;
       fieldref := None; label := None; placeholder := None; buttonText := None |} in
  let id_and_label :=
    {| selector := None; id := Some "e-mail"; name := None; fieldref := None;
       label := Some "email address"; placeholder := None; buttonText := None |} in
  findElement_throws email_page t = None ∧
  querySelector email_page ".missing" = None ∧
  by_id email_page t = Some 0 ∧
  findElement email_page without_selector = Some 0 ∧
  findElement email_page t = None ∧
  (fillField email_page t "driver@example.com").1
    = failure "Element not found" [("target", target_json t)] ∧
  by_id email_page id_and_label = None ∧
  findElement email_page id_and_label = Some 0.
Proof. vm_compute. split_and!; reflexivity. Qed.

End ResolverFacts.

(** ** Radio groups *)

Module RadioFacts.
Import JS BrowserTools.

















End RadioFacts.

(** ** Fill *)

Module FillFacts.
Import JS BrowserTools.

(** The content script, on an input or a textarea: the value is set
    through the native setter, then input, change and blur are dispatched,
    and the answer describes the element. *)
Lemma content_script_fill d t v el :
  findElement d t = Some el →
  tagName (store d el) = "INPUT" ∨ tagName (store d el) = "TEXTAREA" →
  let '(res, d') := BrowserTools.fillField d t v in
  el_value (store d' el) = Some v ∧
  log (store d' el) = log (store d el) ++
    [Focus; NativeSet v; Dispatch "input"; Dispatch "change"; Dispatch "blur"] ∧
  get res "success" = JBool true ∧
  get res "element" = describeElement (store d' el).
Proof.
  intros Hf Htag. unfold BrowserTools.fillField. rewrite Hf.
  assert (Hacc : native_setter_accepts
            (if String.eqb (tagName (store (update el (record_op Focus) d) el)) "TEXTAREA"
             then "TEXTAREA" else "INPUT")
            (store (update el (record_op Focus) d) el) = true).
  { unfold native_setter_accepts. simpl. rewrite decide_True by done. simpl.
    destruct Htag as [-> | ->]; reflexivity. }
  rewrite Hacc. simpl. rewrite !decide_True by done. simpl.
  rewrite <- !app_assoc. done.
Qed.

(** The service worker, on an input of the active tab: the value is set
    through the native setter, then input and change are dispatched, and
    the answer is the bare success. *)
Lemma worker_fill c t d sel v el :
  Worker.active_tab c = Worker.Ok (Some t) →
  Worker.page c (Worker.tab_id t) = Worker.Ok d →
  syntax_error d sel = None →
  querySelector d sel = Some el → tagName (store d el) = "INPUT" →
  let '(res, c') := Worker.executeBrowserAction c (Worker.sample_action "fill" sel v) in
  res = Worker.success [] ∧
  Worker.page_value c' (Worker.tab_id t) el = Some v ∧
  Worker.page_log c' (Worker.tab_id t) el =
    log (store d el) ++ [NativeSet v; Dispatch "input"; Dispatch "change"].
Proof.
  intros Ht Hp Hs Hq Htag.
  unfold Worker.executeBrowserAction, Worker.sample_action. cbn [SidePanel.action].
  change (String.eqb "fill" "navigate") with false.
  cbn.
  unfold Worker.fillField, Worker.in_active_tab. rewrite Ht. cbn.
  unfold Worker.executeScript. rewrite Hp. cbn.
  unfold Worker.inj_fill, Worker.query. rewrite Hs. cbn. rewrite Hq.
  unfold Worker.nativeInputValueSetter, native_setter_accepts. rewrite Htag. cbn.
  unfold Worker.page_value, Worker.page_log. cbn.
  rewrite !decide_True by done. cbn. rewrite !decide_True by done. cbn.
  rewrite <- !app_assoc. done.
Qed.

(** C4 (the fill of the service worker, the path that a browser_action
    frame takes).  A fill of the email input of the active tab sets the
    value through the native setter and dispatches input and change, but
    no blur, and answers with the bare success, without a description of
    the element; the fill of the content script on the same page
    dispatches input, change and blur and describes the element. *)
Theorem worker_fill_dispatches_no_blur :
  let v := "driver@example.com" in
  let worker :=
    Worker.executeBrowserAction Worker.sample_chrome (Worker.sample_action "fill" "#email" v) in
  let content :=
    BrowserTools.fillField email_page
      {| selector := Some "#email"; id := None; name := None; fieldref := None;
         label := None; placeholder := None; buttonText := None |} v in
  (worker.1 = Worker.success [] ∧ get worker.1 "element" = JUndefined ∧
   Worker.page_value worker.2 7 0 = Some v ∧
   Worker.page_log worker.2 7 0 = [NativeSet v; Dispatch "input"; Dispatch "change"] ∧
   Dispatch "blur" ∉ Worker.page_log worker.2 7 0) ∧
  (get content.1 "success" = JBool true ∧
   get content.1 "element" = JObj [("tag", JStr "input"); ("id", JStr "email");
                                   ("name", JStr "email"); ("text", JStr "")] ∧
   el_value (store content.2 0) = Some v ∧
   log (store content.2 0) = [Focus; NativeSet v; Dispatch "input"; Dispatch "change";
                              Dispatch "blur"]).
Proof.
  intros v worker content.
  assert (Hlog : Worker.page_log worker.2 7 0
                 = [NativeSet v; Dispatch "input"; Dispatch "change"])
    by (vm_compute; reflexivity).
  split; split_and!; try (vm_compute; reflexivity).
  rewrite Hlog, !elem_of_cons, elem_of_nil. intros [H | [H | [H | []]]]; discriminate.
Qed.

End FillFacts.

(** ** Action executor and the answer to the backend *)

Module ExecutorFacts.
Import JS.
Import Worker.

Lemma envelope_truthy r : is_envelope r → truthy r = true.
Proof.
  intros [H | [H _]]; destruct r as [| | | |s|l|l]; simpl in *; try done;
    by destruct (String.eqb _ _).
Qed.

Lemma success_envelope extra :
  assoc_last "success" extra = None → is_envelope (success extra).
Proof. intros H. left. unfold success, get. simpl. by rewrite H. Qed.

Lemma failure_envelope msg :
  is_envelope (failure msg []).
Proof. right. split; [done | by exists msg]. Qed.

Lemma inj_click_envelope sel d : answers_envelope (inj_click sel d).
Proof.
  unfold inj_click, query. destruct (syntax_error d sel); simpl; [done |].
  destruct (querySelector d sel); simpl;
    [by apply success_envelope | apply failure_envelope].
Qed.

Lemma inj_fill_envelope sel val d : answers_envelope (inj_fill sel val d).
Proof.
  unfold inj_fill, query. destruct (syntax_error d sel); simpl; [done |].
  destruct (querySelector d sel); simpl; [| apply failure_envelope].
  unfold nativeInputValueSetter. destruct (native_setter_accepts _ _); simpl;
    [by apply success_envelope | done].
Qed.

Lemma inj_select_envelope sel val d : answers_envelope (inj_select sel val d).
Proof.
  unfold inj_select. destruct (select_first d _) as [[select|]|msg]; simpl;
    [| apply failure_envelope | done].
  destruct (options _); simpl; [| done].
  destruct (List.find _ _); simpl; [by apply success_envelope | apply failure_envelope].
Qed.

Lemma inj_radio_envelope labelText d : answers_envelope (inj_radio labelText d).
Proof.
  unfold inj_radio. destruct (List.find _ (querySelectorAll d "label")); simpl.
  - destruct (match nested_radio _ with Some r => _ | None => _ end); simpl;
      by apply success_envelope.
  - destruct (List.find _ _); simpl; [by apply success_envelope | apply failure_envelope].
Qed.

Lemma inj_search_envelope sel val auto d : answers_envelope (inj_search sel val auto d).
Proof.
  unfold inj_search. destruct (select_first d _) as [[input|]|msg]; simpl;
    [| apply failure_envelope | done].
  unfold nativeInputValueSetter. destruct (native_setter_accepts _ _); simpl;
    [by apply success_envelope | done].
Qed.

Lemma injected_envelope a f d : injected a = Some f → answers_envelope (f d).
Proof.
  unfold injected.
  repeat (destruct (String.eqb _ _);
    [intros [= <-];
     first [ apply inj_click_envelope | apply inj_fill_envelope
           | apply inj_select_envelope | apply inj_radio_envelope
           | apply inj_search_envelope ] |]).
  done.
Qed.

(** The switch of the executor, at a tag that injects a function. *)
Lemma executor_injects c a f :
  injected a = Some f →
  executeBrowserAction c a =
    match in_active_tab c f with
    | Ok rc => rc
    | Throw msg => (failure msg [], c)
    end.
Proof.
  unfold injected, executeBrowserAction. cbv zeta.
  destruct (String.eqb_spec (SidePanel.action a) "click") as [-> | _];
    [by intros [= <-] |].
  destruct (String.eqb_spec (SidePanel.action a) "fill") as [-> | _];
    [by intros [= <-] |].
  destruct (String.eqb_spec (SidePanel.action a) "select_option") as [-> | _];
    [by intros [= <-] |].
  destruct (String.eqb_spec (SidePanel.action a) "click_radio") as [-> | _];
    [by intros [= <-] |].
  destruct (String.eqb_spec (SidePanel.action a) "fill_search") as [-> | _];
    [by intros [= <-] |].
  done.
Qed.

(** The answer of an action that injects a function into a page that the
    browser reaches. *)
Lemma injected_answer c a t d f :
  active_tab c = Ok (Some t) → page c (tab_id t) = Ok d → injected a = Some f →
  (executeBrowserAction c a).1 =
    match f d with
    | Ok (r, _) => r
    | Throw msg => script_failure c msg
    end.
Proof.
  intros Ht Hp Hf. rewrite (executor_injects c a f Hf).
  unfold in_active_tab. rewrite Ht. cbn. unfold executeScript. rewrite Hp. cbn.
  pose proof (injected_envelope a f d Hf) as He.
  destruct (f d) as [[r d']|msg]; cbn.
  - unfold or_else. by rewrite (envelope_truthy r He).
  - unfold script_failure. by destruct (throw_rejects c).
Qed.

Lemma injected_click a :
  SidePanel.action a = "click" → injected a = Some (inj_click (SidePanel.selector a)).
Proof. unfold injected. by intros ->. Qed.

Lemma injected_fill a :
  SidePanel.action a = "fill" →
  injected a = Some (inj_fill (SidePanel.selector a) (SidePanel.value a)).
Proof. unfold injected. by intros ->. Qed.

Lemma injected_select a :
  SidePanel.action a = "select_option" →
  injected a = Some (inj_select (SidePanel.selector a) (SidePanel.value a)).
Proof. unfold injected. by intros ->. Qed.

Lemma injected_search a :
  SidePanel.action a = "fill_search" →
  injected a = Some (inj_search (SidePanel.selector a) (SidePanel.value a)
                       (default true (SidePanel.select_first a))).
Proof. unfold injected. by intros ->. Qed.

Lemma in_active_tab_envelope c f :
  (∀ d, answers_envelope (f d)) → answers_envelope (in_active_tab c f).
Proof.
  intros Hf. unfold in_active_tab.
  destruct (active_tab c) as [[t|]|msg]; simpl; [| apply failure_envelope | done].
  unfold executeScript. destruct (page c (tab_id t)) as [d|msg]; simpl; [| done].
  specialize (Hf d). destruct (f d) as [[r d']|msg]; simpl.
  - unfold or_else. by rewrite (envelope_truthy r Hf).
  - destruct (throw_rejects c); simpl; [done | apply failure_envelope].
Qed.

Lemma operations_answer_envelopes c :
  (∀ u, answers_envelope (navigateToUrl c u)) ∧
  answers_envelope (captureScreenshot c) ∧
  answers_envelope (getTabState c) ∧
  (∀ i, answers_envelope (getSpecificTabState c i)) ∧
  (∀ s, answers_envelope (executeInTab c s)) ∧
  answers_envelope (getPageState c).
Proof.
  split_and!.
  - intros u. unfold navigateToUrl.
    destruct (active_tab c) as [[t|]|]; simpl; [| apply failure_envelope | done].
    destruct (tabs_update c _ _); simpl; [by apply success_envelope | done].
  - unfold captureScreenshot.
    destruct (captureVisibleTab c); simpl; [by apply success_envelope | apply failure_envelope].
  - unfold getTabState.
    destruct (active_tab c) as [[t|]|]; simpl;
      [by apply success_envelope | apply failure_envelope | done].
  - intros i. unfold getSpecificTabState.
    destruct (tabs_get c i); simpl; [by apply success_envelope | apply failure_envelope].
  - intros s. unfold executeInTab.
    destruct (active_tab c) as [[t|]|]; simpl; [| apply failure_envelope | done].
    destruct (new_Function c s); simpl; [| done].
    unfold executeScript. destruct (page c _); simpl; [| done].
    destruct (script_result c s); simpl; [by apply success_envelope |].
    destruct (throw_rejects c); simpl; [done | by apply success_envelope].
  - unfold getPageState.
    destruct (active_tab c) as [[t|]|]; simpl; [| apply failure_envelope | done].
    unfold executeScript. destruct (page c _); simpl; [| done].
    by apply success_envelope.
Qed.

(** The try/catch of the executor turns a throw into a failure answer. *)
Lemma caught_envelope {S} (m : outcome (json * S)) (c : S) :
  answers_envelope m →
  is_envelope (match m with Ok rc => rc | Throw msg => (failure msg [], c) end).1.
Proof. destruct m as [[r s]|msg]; simpl; [done | intros _; apply failure_envelope]. Qed.

Lemma executor_answers_envelope c a : is_envelope (executeBrowserAction c a).1.
Proof.
  destruct (operations_answer_envelopes c) as (Hn & Hs & Ht & Hg & He & Hp).
  unfold executeBrowserAction. apply caught_envelope.
  repeat (destruct (String.eqb _ _);
    [first [ apply Hn | apply Hs | apply Ht | apply Hg | apply He | apply Hp
           | apply in_active_tab_envelope; intros d;
             first [ apply inj_click_envelope | apply inj_fill_envelope
                   | apply inj_select_envelope | apply inj_radio_envelope
                   | apply inj_search_envelope ] ] |]).
  apply failure_envelope.
Qed.

Lemma eqb_tag_false (tag k : string) (l : list string) :
  tag ∉ l → k ∈ l → String.eqb tag k = false.
Proof.
  intros Hn Hk. destruct (String.eqb_spec tag k) as [-> | ?]; [done | done].
Qed.

Ltac in_tags := apply list_elem_of_In; simpl; tauto.

Ltac each_tag H :=
  rewrite !elem_of_cons, elem_of_nil in H;
  repeat (destruct H as [H | H]); [.. | done].

Lemma unknown_tag_answer c a :
  SidePanel.action a ∉ known_tags →
  (executeBrowserAction c a).1 = failure ("Unknown action: " +:+ SidePanel.action a) [].
Proof.
  intros H. unfold executeBrowserAction.
  rewrite !(eqb_tag_false _ _ known_tags H) by in_tags. done.
Qed.

Lemma no_active_tab_answer c a :
  active_tab c = Ok None → SidePanel.action a ∈ tab_tags →
  (executeBrowserAction c a).1 = no_active_tab.
Proof.
  intros Ht H. unfold tab_tags in H. each_tag H;
    unfold executeBrowserAction; rewrite H; cbn;
    unfold navigateToUrl, getTabState, executeInTab, getPageState, clickElement, fillField,
      selectOption, clickRadio, fillSearch, in_active_tab; rewrite Ht; reflexivity.
Qed.

Lemma rejected_query_answer c a msg :
  active_tab c = Throw msg → SidePanel.action a ∈ tab_tags →
  (executeBrowserAction c a).1 = failure msg [].
Proof.
  intros Ht H. unfold tab_tags in H. each_tag H;
    unfold executeBrowserAction; rewrite H; cbn;
    unfold navigateToUrl, getTabState, executeInTab, getPageState, clickElement, fillField,
      selectOption, clickRadio, fillSearch, in_active_tab; rewrite Ht; reflexivity.
Qed.

Lemma element_not_found_answer c a t d :
  active_tab c = Ok (Some t) → page c (tab_id t) = Ok d →
  syntax_error d (SidePanel.selector a) = None →
  querySelector d (SidePanel.selector a) = None →
  SidePanel.action a = "click" ∨ SidePanel.action a = "fill" →
  (executeBrowserAction c a).1 = failure "Element not found" [].
Proof.
  intros Ht Hp Hs Hq [H | H].
  - rewrite (injected_answer c a t d _ Ht Hp (injected_click a H)).
    unfold inj_click, query. by rewrite Hs; cbn; rewrite Hq.
  - rewrite (injected_answer c a t d _ Ht Hp (injected_fill a H)).
    unfold inj_fill, query. by rewrite Hs; cbn; rewrite Hq.
Qed.

Lemma malformed_selector_answer c a t d msg :
  active_tab c = Ok (Some t) → page c (tab_id t) = Ok d →
  syntax_error d (SidePanel.selector a) = Some msg →
  SidePanel.action a = "click" ∨ SidePanel.action a = "fill" →
  (executeBrowserAction c a).1 = script_failure c msg.
Proof.
  intros Ht Hp Hs [H | H].
  - rewrite (injected_answer c a t d _ Ht Hp (injected_click a H)).
    unfold inj_click, query. by rewrite Hs.
  - rewrite (injected_answer c a t d _ Ht Hp (injected_fill a H)).
    unfold inj_fill, query. by rewrite Hs.
Qed.

Lemma setter_refused_answer c a t d el :
  active_tab c = Ok (Some t) → page c (tab_id t) = Ok d →
  SidePanel.action a = "fill" →
  syntax_error d (SidePanel.selector a) = None →
  querySelector d (SidePanel.selector a) = Some el → tagName (store d el) ≠ "INPUT" →
  (executeBrowserAction c a).1 = script_failure c "Illegal invocation".
Proof.
  intros Ht Hp H Hs Hq Htag.
  rewrite (injected_answer c a t d _ Ht Hp (injected_fill a H)).
  unfold inj_fill, query. rewrite Hs. cbn. rewrite Hq.
  unfold nativeInputValueSetter, native_setter_accepts.
  by destruct (String.eqb_spec (tagName (store d el)) "INPUT") as [? | _].
Qed.

Lemma selector_list_answer c a t d :
  active_tab c = Ok (Some t) → page c (tab_id t) = Ok d →
  SidePanel.action a = "select_option" ∨ SidePanel.action a = "fill_search" →
  (∀ msg, select_first d (selectors_of a) = Throw msg →
     (executeBrowserAction c a).1 = script_failure c msg) ∧
  (select_first d (selectors_of a) = Ok None →
     (executeBrowserAction c a).1 =
       failure (if String.eqb (SidePanel.action a) "select_option"
                then "Select element not found" else "Search input not found") []).
Proof.
  unfold selectors_of. intros Ht Hp [H | H].
  - rewrite (injected_answer c a t d _ Ht Hp (injected_select a H)), H.
    unfold inj_select. split; by intros; simplify_eq; rewrite H0 || (intros ->).
  - rewrite (injected_answer c a t d _ Ht Hp (injected_search a H)), H.
    unfold inj_search. split; by intros; simplify_eq; rewrite H0 || (intros ->).
Qed.

Lemma options_not_iterable_answer c a t d el :
  active_tab c = Ok (Some t) → page c (tab_id t) = Ok d →
  SidePanel.action a = "select_option" →
  select_first d (selectors_of a) = Ok (Some el) → options (store d el) = None →
  (executeBrowserAction c a).1 = script_failure c "select.options is not iterable".
Proof.
  unfold selectors_of. intros Ht Hp H Hsel Ho.
  rewrite (injected_answer c a t d _ Ht Hp (injected_select a H)).
  unfold inj_select. rewrite Hsel. cbn. by rewrite Ho.
Qed.

Lemma unreachable_page_answer c a t msg :
  active_tab c = Ok (Some t) → page c (tab_id t) = Throw msg →
  SidePanel.action a ∈
    ["click"; "fill"; "get_page_state"; "select_option"; "click_radio"; "fill_search"] →
  (executeBrowserAction c a).1 = failure msg [].
Proof.
  intros Ht Hp H. each_tag H;
    unfold executeBrowserAction; rewrite H; cbn;
    unfold clickElement, fillField, selectOption, clickRadio, fillSearch, getPageState,
      in_active_tab;
    rewrite Ht; cbn; unfold executeScript; rewrite Hp; reflexivity.
Qed.

(** execute_script: the script text is compiled in the worker and run in
    the page. *)
Lemma execute_script_answer c a t :
  active_tab c = Ok (Some t) → SidePanel.action a = "execute_script" →
  (∀ msg, new_Function c (SidePanel.script a) = Throw msg →
     (executeBrowserAction c a).1 = failure msg []) ∧
  (∀ msg, new_Function c (SidePanel.script a) = Ok () →
     page c (tab_id t) = Throw msg →
     (executeBrowserAction c a).1 = failure msg []) ∧
  (∀ d, new_Function c (SidePanel.script a) = Ok () → page c (tab_id t) = Ok d →
     (executeBrowserAction c a).1 =
       match script_result c (SidePanel.script a) with
       | Ok r => success [("result", r)]
       | Throw msg =>
           if throw_rejects c then failure msg [] else success [("result", JUndefined)]
       end).
Proof.
  intros Ht H. unfold executeBrowserAction. rewrite H. cbn.
  unfold executeInTab. rewrite Ht. cbn. split_and!.
  - by intros msg ->.
  - intros msg -> Hp. cbn. unfold executeScript. by rewrite Hp.
  - intros d -> Hp. cbn. unfold executeScript. rewrite Hp. cbn.
    destruct (script_result c _); cbn; [done |]. by destruct (throw_rejects c).
Qed.

Lemma callback_sends a response p :
  SidePanel.sent (SidePanel.browserActionCallback a response p).2 =
    SidePanel.sent p.2 ++
    match SidePanel.ws p.1 with
    | Some SidePanel.OPEN =>
        [SidePanel.out_browser_action_result (SidePanel.actionId a)
           (or_else response no_response)]
    | _ => []
    end.
Proof.
  unfold SidePanel.browserActionCallback.
  destruct (SidePanel.ws p.1) as [[]|]; simpl; by rewrite ?app_nil_r.
Qed.

(** C2.  The executor never throws: for every action its answer is an
    envelope, success or failure with a message.  An unknown tag, a
    missing active tab, a tab query that is rejected and a page that
    cannot be reached are each answered with {success:false, error}; so is,
    for click and fill, a well-formed selector that finds nothing.  An
    action of click, fill, select_option, click_radio or fill_search
    answers what its injected function returns, and when that function
    throws (a selector that is not CSS, the value setter on an element
    that is not an input, a matched element without options) the answer
    is a failure that carries the message of the exception if the browser
    rejects the injection and 'Script execution failed' if it leaves the
    result undefined.  For execute_script a text that does not compile is
    a failure, but a script that throws in the page is a failure only
    when the browser rejects the injection; otherwise the answer is
    {success:true} with an undefined result.  The side panel hands the
    socket one browser_action_result with the action's id when the answer
    comes back while the socket is open, and nothing when the socket is
    not open; so a browser_action frame handled on an open socket that is
    still open when the worker answers is followed by exactly one result
    frame with the same id, which carries the executor's envelope. *)
Theorem browser_action_answered_while_socket_open :
  (∀ c a, is_envelope (executeBrowserAction c a).1) ∧
  (∀ c a, SidePanel.action a ∉ known_tags →
     (executeBrowserAction c a).1
       = failure ("Unknown action: " +:+ SidePanel.action a) []) ∧
  (∀ c a, active_tab c = Ok None → SidePanel.action a ∈ tab_tags →
     (executeBrowserAction c a).1 = failure "No active tab" []) ∧
  (∀ c a msg, active_tab c = Throw msg → SidePanel.action a ∈ tab_tags →
     (executeBrowserAction c a).1 = failure msg []) ∧
  (∀ c a t msg,
     active_tab c = Ok (Some t) → page c (tab_id t) = Throw msg →
     SidePanel.action a ∈
       ["click"; "fill"; "get_page_state"; "select_option"; "click_radio"; "fill_search"] →
     (executeBrowserAction c a).1 = failure msg []) ∧
  (∀ c a t d,
     active_tab c = Ok (Some t) → page c (tab_id t) = Ok d →
     syntax_error d (SidePanel.selector a) = None →
     querySelector d (SidePanel.selector a) = None →
     SidePanel.action a = "click" ∨ SidePanel.action a = "fill" →
     (executeBrowserAction c a).1 = failure "Element not found" []) ∧
  (∀ c a t d f,
     active_tab c = Ok (Some t) → page c (tab_id t) = Ok d → injected a = Some f →
     (executeBrowserAction c a).1 =
       match f d with
       | Ok (r, _) => r
       | Throw msg =>
           failure (if throw_rejects c then msg else "Script execution failed") []
       end) ∧
  (∀ c a t d msg,
     active_tab c = Ok (Some t) → page c (tab_id t) = Ok d →
     syntax_error d (SidePanel.selector a) = Some msg →
     SidePanel.action a = "click" ∨ SidePanel.action a = "fill" →
     (executeBrowserAction c a).1 =
       failure (if throw_rejects c then msg else "Script execution failed") []) ∧
  (∀ c a t d el,
     active_tab c = Ok (Some t) → page c (tab_id t) = Ok d →
     SidePanel.action a = "fill" →
     syntax_error d (SidePanel.selector a) = None →
     querySelector d (SidePanel.selector a) = Some el → tagName (store d el) ≠ "INPUT" →
     (executeBrowserAction c a).1 =
       failure (if throw_rejects c then "Illegal invocation"
                else "Script execution failed") []) ∧
  (∀ c a t d msg,
     active_tab c = Ok (Some t) → page c (tab_id t) = Ok d →
     SidePanel.action a = "select_option" ∨ SidePanel.action a = "fill_search" →
     select_first d (selectors_of a) = Throw msg →
     (executeBrowserAction c a).1 =
       failure (if throw_rejects c then msg else "Script execution failed") []) ∧
  (∀ c a t d el,
     active_tab c = Ok (Some t) → page c (tab_id t) = Ok d →
     SidePanel.action a = "select_option" →
     select_first d (selectors_of a) = Ok (Some el) → options (store d el) = None →
     (executeBrowserAction c a).1 =
       failure (if throw_rejects c then "select.options is not iterable"
                else "Script execution failed") []) ∧
  (∀ c a t,
     active_tab c = Ok (Some t) → SidePanel.action a = "execute_script" →
     (∀ msg, new_Function c (SidePanel.script a) = Throw msg →
        (executeBrowserAction c a).1 = failure msg []) ∧
     (∀ msg, new_Function c (SidePanel.script a) = Ok () →
        page c (tab_id t) = Throw msg →
        (executeBrowserAction c a).1 = failure msg []) ∧
     (∀ d, new_Function c (SidePanel.script a) = Ok () → page c (tab_id t) = Ok d →
        (executeBrowserAction c a).1 =
          match script_result c (SidePanel.script a) with
          | Ok r => success [("result", r)]
          | Throw msg =>
              if throw_rejects c then failure msg [] else success [("result", JUndefined)]
          end)) ∧
  (∀ a response p,
     SidePanel.sent (SidePanel.browserActionCallback a response p).2 =
       SidePanel.sent p.2 ++
       match SidePanel.ws p.1 with
       | Some SidePanel.OPEN =>
           [SidePanel.out_browser_action_result (SidePanel.actionId a)
              (or_else response no_response)]
       | _ => []
       end) ∧
  (∀ c a now p,
     SidePanel.ws p.1 = Some SidePanel.OPEN →
     SidePanel.sent
       (SidePanel.browserActionCallback a (executeBrowserAction c a).1
          (SidePanel.handleServerMessage now (SidePanel.browser_action a) p)).2
     = SidePanel.sent p.2 ++
       [SidePanel.out_browser_action_result (SidePanel.actionId a)
          (executeBrowserAction c a).1]).
Proof.
  split_and!.
  - apply executor_answers_envelope.
  - apply unknown_tag_answer.
  - apply no_active_tab_answer.
  - apply rejected_query_answer.
  - apply unreachable_page_answer.
  - apply element_not_found_answer.
  - apply injected_answer.
  - apply malformed_selector_answer.
  - apply setter_refused_answer.
  - intros c a t d msg Ht Hp H. by apply (selector_list_answer c a t d Ht Hp H).
  - apply options_not_iterable_answer.
  - apply execute_script_answer.
  - apply callback_sends.
  - intros c a now p Hws. rewrite callback_sends. simpl. rewrite Hws.
    unfold or_else. by rewrite (envelope_truthy _ (executor_answers_envelope c a)).
Qed.

(** On the sample browser: an unknown tag, a selector that finds nothing,
    a selector that is not CSS, a script that throws where the browser
    leaves the result undefined, and the answer that goes back over an
    open socket. *)
Lemma browser_action_witness :
  let c := sample_chrome in
  let t := {| tab_id := 7; tab_url := "https://example.test/form"; tab_title := "Form" |} in
  let p := SidePanel.onopen (SidePanel.init [] None None) in
  (executeBrowserAction c (sample_action "hover" "#email" "")).1
    = failure "Unknown action: hover" [] ∧
  (executeBrowserAction c (sample_action "click" "#submit" "")).1
    = failure "Element not found" [] ∧
  (executeBrowserAction c (sample_action "click" "##bad" "")).1
    = failure "Failed to execute 'querySelector' on 'Document': '##bad' is not a valid selector." [] ∧
  (executeBrowserAction lenient_chrome (sample_action "fill" "##bad" "x")).1
    = failure "Script execution failed" [] ∧
  (executeBrowserAction lenient_chrome (sample_action "execute_script" "" "")).1
    = success [("result", JUndefined)] ∧
  SidePanel.sent
    (SidePanel.browserActionCallback (sample_action "click" "#submit" "")
       (executeBrowserAction c (sample_action "click" "#submit" "")).1
       (SidePanel.handleServerMessage 5
          (SidePanel.browser_action (sample_action "click" "#submit" "")) p)).2
  = [SidePanel.out_browser_action_result "act-1" (failure "Element not found" [])].
Proof.
  intros c t p.
  destruct browser_action_answered_while_socket_open
    as (_ & H2 & _ & _ & _ & H6 & _ & H8 & _ & _ & _ & H12 & _ & H14).
  split_and!.
  - apply (H2 c (sample_action "hover" "#email" "")).
    intros Hin. apply list_elem_of_In in Hin. simpl in Hin.
    repeat (destruct Hin as [Hin | Hin]; [discriminate |]). done.
  - apply (H6 c (sample_action "click" "#submit" "") t email_page);
      [reflexivity | reflexivity | reflexivity | reflexivity | by left].
  - apply (H8 c (sample_action "click" "##bad" "") t email_page
             "Failed to execute 'querySelector' on 'Document': '##bad' is not a valid selector.");
      [reflexivity | reflexivity | reflexivity | by left].
  - apply (H8 lenient_chrome (sample_action "fill" "##bad" "x") t email_page
             "Failed to execute 'querySelector' on 'Document': '##bad' is not a valid selector.");
      [reflexivity | reflexivity | reflexivity | by right].
  - destruct (H12 lenient_chrome (sample_action "execute_script" "" "") t eq_refl eq_refl)
      as (_ & _ & H).
    apply (H email_page); reflexivity.
  - rewrite (H14 c (sample_action "click" "#submit" "") 5%Z p eq_refl). reflexivity.
Defined.

(** C2, an action without a result frame: a browser_action frame is
    handled on an open socket, the socket closes before the worker
    answers, and the answer is dropped; after the panel has reconnected no
    browser_action_result has been handed to the socket for the action. *)
Lemma answer_dropped_when_socket_closed :
  let a := sample_action "click" "#submit" "" in
  let answer := (executeBrowserAction sample_chrome a).1 in
  let p := SidePanel.run (λ _, None) (SidePanel.init [] None None)
             [SidePanel.EOpen; SidePanel.EFrame 5 (SidePanel.browser_action a);
              SidePanel.EClose; SidePanel.EWorkerAnswer a answer;
              SidePanel.EReconnectTimer; SidePanel.EOpen] in
  answer = failure "Element not found" [] ∧
  SidePanel.posted p.2 = [a] ∧
  SidePanel.sent p.2 = [].
Proof. vm_compute. split_and!; reflexivity. Qed.

End ExecutorFacts.

(** ** Page-context watcher *)

Module WatcherFacts.
Import JS PageWatcher.

Lemma strict_ne_false a b : strict_ne a b = false → a = b.
Proof.
  destruct a, b; simpl; try done.
  - intros H%negb_false_iff. by apply Bool.eqb_prop in H as ->.
  - intros H%negb_false_iff. by apply Z.eqb_eq in H as ->.
  - intros H%negb_false_iff. by apply String.eqb_eq in H as ->.
Qed.

Lemma is_close_lead a : negb (strict_ne a (JStr "close_lead")) = true ↔ a = JStr "close_lead".
Proof.
  rewrite negb_true_iff. split; [apply strict_ne_false | by intros ->].
Qed.

Lemma hasContextChanged_identity w ctx :
  hasContextChanged w ctx =
    match currentContext w with
    | None => true
    | Some cur => identity_changed (identity cur) (identity ctx)
    end.
Proof.
  unfold hasContextChanged, identity_changed, identity.
  destruct (currentContext w) as [cur|]; [| done].
  destruct (strict_ne (field cur "site") _); [done |].
  destruct (strict_ne (field cur "url") _); [done |].
  destruct (negb _); [| done].
  by destruct (strict_ne (field cur "leadId") _), (strict_ne (field cur "companyName") _).
Qed.

Lemma identity_changed_spec cur ctx :
  identity_changed (identity cur) (identity ctx) = true ↔
  strict_ne (field cur "site") (field ctx "site") = true ∨
  strict_ne (field cur "url") (field ctx "url") = true ∨
  (field ctx "site" = JStr "close_lead" ∧
   (strict_ne (field cur "leadId") (field ctx "leadId") = true ∨
    strict_ne (field cur "companyName") (field ctx "companyName") = true)).
Proof.
  unfold identity_changed, identity.
  rewrite !orb_true_iff, andb_true_iff, orb_true_iff, is_close_lead. tauto.
Qed.

Lemma unforced_update ctx w :
  (hasContextChanged w ctx = true ∧
   ∃ m, payload m = ctx ∧
        sendContextUpdate ctx false w =
          {| currentContext := Some ctx; emitted := emitted w ++ [m] |}) ∨
  (hasContextChanged w ctx = false ∧ sendContextUpdate ctx false w = w).
Proof.
  unfold sendContextUpdate. destruct (hasContextChanged w ctx); simpl.
  - left. split; [done |]. eexists. split; cycle 1.
    + reflexivity.
    + reflexivity.
  - by right.
Qed.

Lemma extract_identity url t pg ctx :
  extractContext url t pg = Some ctx → identity ctx = extracted_identity url pg.
Proof.
  unfold extractContext, extracted_identity, identity, detectSite.
  destruct (match_close_lead url) as [cap|].
  - cbn. intros [= <-].
    destruct pg as [ti bt [c|] [cn|] [ph|] [em|] [dn|] [mn|] [st|] cc ds]; reflexivity.
  - repeat (match goal with |- context [if ?b then _ else _] => destruct b end; cbn);
      try discriminate; intros [= <-].
    all: destruct pg as [ti bt co cn ph em [dn|] mn st [cc|] [ds|]]; cbn; try reflexivity.
    all: repeat (match goal with |- context [if ?b then _ else _] => destruct b end; cbn);
      reflexivity.
Qed.

Lemma extracted_identity_steady url pg :
  identity_changed (extracted_identity url pg) (extracted_identity url pg) = false.
Proof.
  unfold identity_changed, extracted_identity. simpl.
  rewrite !String.eqb_refl. simpl.
  destruct (match_close_lead url) as [l|]; [destruct (companyName pg) |]; simpl;
    rewrite ?String.eqb_refl; simpl; by rewrite andb_false_r.
Qed.

Lemma extraction_defined_by_url url t1 t2 pg1 pg2 :
  is_Some (extractContext url t1 pg1) ↔ is_Some (extractContext url t2 pg2).
Proof.
  unfold extractContext. destruct (detectSite url) as [site cap].
  repeat (match goal with |- context [if ?b then _ else _] => destruct b end);
    split; intros [x H]; try done; by eexists.
Qed.

(** The second of two checks on one URL with one company name sends nothing. *)
Lemma second_check_is_silent w url t1 t2 pg1 pg2 :
  companyName pg1 = companyName pg2 →
  contextCheck false url t2 pg2 (contextCheck false url t1 pg1 w) = contextCheck false url t1 pg1 w.
Proof.
  intros Hco. unfold contextCheck.
  destruct (extractContext url t1 pg1) as [c1|] eqn:E1.
  - destruct (extractContext url t2 pg2) as [c2|] eqn:E2; [| done].
    pose proof (extract_identity _ _ _ _ E1) as H1.
    pose proof (extract_identity _ _ _ _ E2) as H2.
    assert (Hsame : extracted_identity url pg2 = extracted_identity url pg1)
      by (unfold extracted_identity; by rewrite Hco).
    destruct (unforced_update c1 w) as [(Hch & m & _ & Hs1) | (Hch & Hs1)]; rewrite Hs1.
    + set (w1 := {| currentContext := Some c1; emitted := emitted w ++ [m] |}).
      destruct (unforced_update c2 w1) as [(Hch2 & _) | (_ & Hs2)]; [exfalso | exact Hs2].
      rewrite hasContextChanged_identity in Hch2. unfold w1 in Hch2.
      cbn [currentContext] in Hch2.
      rewrite H1, H2, Hsame, extracted_identity_steady in Hch2. done.
    + destruct (unforced_update c2 w) as [(Hch2 & _) | (_ & Hs2)]; [exfalso | exact Hs2].
      rewrite hasContextChanged_identity in Hch, Hch2.
      destruct (currentContext w); [| done]. by rewrite H2, Hsame, <- H1, Hch in Hch2.
  - destruct (extractContext url t2 pg2) as [c2|] eqn:E2; [| done].
    assert (is_Some (extractContext url t1 pg1)) as [x Hx]
      by (eapply extraction_defined_by_url; by eexists).
    congruence.
Qed.

Lemma contextCheck_emits_at_most_one force url t pg w :
  length (emitted (contextCheck force url t pg w)) ≤ length (emitted w) + 1.
Proof.
  unfold contextCheck. destruct (extractContext url t pg) as [ctx|]; [| lia].
  unfold sendContextUpdate. destruct (negb force && _); simpl; [lia |].
  rewrite length_app. simpl. lia.
Qed.

Lemma watcher_keeps_a_context force url t pg w :
  is_Some (currentContext w) → is_Some (currentContext (contextCheck force url t pg w)).
Proof.
  intros H. unfold contextCheck. destruct (extractContext url t pg) as [ctx|]; [| done].
  unfold sendContextUpdate. by destruct (negb force && _).
Qed.

(** C5.  Once the watcher has started it always holds an earlier context.
    An unforced update after an earlier context is sent exactly when
    the site differs, the URL differs, or the new site is close_lead and
    the leadId or the companyName differs; otherwise the watcher is left
    as it is.  The second of two consecutive extractions on one URL with
    the same company name sends nothing, so the two together send at most
    one update; and an extraction of a close_lead page whose leadId
    differs from the earlier one sends exactly one. *)
Theorem unforced_update_sent_only_on_change :
  (∀ url t pg ctx,
     extractContext url t pg = Some ctx →
     currentContext (startWatching url t pg) = Some ctx ∧
     ∀ force url' t' pg' w,
       is_Some (currentContext w) → is_Some (currentContext (contextCheck force url' t' pg' w))) ∧
  (∀ cur sent_before ctx,
     let w := {| currentContext := Some cur; emitted := sent_before |} in
     let changed_now :=
       strict_ne (field cur "site") (field ctx "site") = true ∨
       strict_ne (field cur "url") (field ctx "url") = true ∨
       (field ctx "site" = JStr "close_lead" ∧
        (strict_ne (field cur "leadId") (field ctx "leadId") = true ∨
         strict_ne (field cur "companyName") (field ctx "companyName") = true)) in
     (changed_now →
      ∃ m, payload m = ctx ∧
           sendContextUpdate ctx false w =
             {| currentContext := Some ctx; emitted := sent_before ++ [m] |}) ∧
     (¬ changed_now → sendContextUpdate ctx false w = w)) ∧
  (∀ w url t1 t2 pg1 pg2,
     companyName pg1 = companyName pg2 →
     let w1 := contextCheck false url t1 pg1 w in
     let w2 := contextCheck false url t2 pg2 w1 in
     emitted w2 = emitted w1 ∧ length (emitted w2) ≤ length (emitted w) + 1) ∧
  (∀ cur sent_before ctx,
     field ctx "site" = JStr "close_lead" →
     strict_ne (field cur "leadId") (field ctx "leadId") = true →
     ∃ m, payload m = ctx ∧
          emitted (sendContextUpdate ctx false
                     {| currentContext := Some cur; emitted := sent_before |})
            = sent_before ++ [m]).
Proof.
  refine (conj _ (conj _ (conj _ _))).
  - intros url t pg ctx H. split.
    + unfold startWatching, contextCheck. by rewrite H.
    + intros force url' t' pg' w. apply watcher_keeps_a_context.
  - intros cur e ctx w changed_now. subst changed_now.
    rewrite <- identity_changed_spec.
    destruct (unforced_update ctx w) as [(Hch & m & Hm & Hs) | (Hch & Hs)];
      rewrite hasContextChanged_identity in Hch; unfold w in Hch;
      cbn [currentContext] in Hch.
    + split; [| by rewrite Hch]. intros _. by exists m.
    + split; [by rewrite Hch | done].
  - intros w url t1 t2 pg1 pg2 Hco w1 w2. subst w1 w2.
    rewrite (second_check_is_silent w url t1 t2 pg1 pg2 Hco).
    split; [done | apply contextCheck_emits_at_most_one].
  - intros cur e ctx Hsite Hlead.
    destruct (unforced_update ctx {| currentContext := Some cur; emitted := e |})
      as [(_ & m & Hm & ->) | (Hch & _)]; [by exists m |].
    rewrite hasContextChanged_identity in Hch. cbn [currentContext] in Hch.
    assert (identity_changed (identity cur) (identity ctx) = true); [| congruence].
    apply identity_changed_spec. right. right. split; [done | by left].
Qed.

(** Two extractions on one lead page send one update (the forced one of
    the start); moving to another lead sends exactly one more. *)
Lemma watcher_witness :
  let a := "https://app.close.com/lead/lead_A/" in
  let b := "https://app.close.com/lead/lead_B/" in
  let w0 := startWatching a 100 (lead_page "LDJ Transport") in
  let w1 := contextCheck false a 250 (lead_page "LDJ Transport") w0 in
  let w2 := contextCheck false a 400 (lead_page "LDJ Transport") w1 in
  let w3 := contextCheck false b 900 (lead_page "LDJ Transport") w2 in
  emitted w2 = emitted w1 ∧ length (emitted w2) ≤ length (emitted w0) + 1 ∧
  length (emitted w2) = 1 ∧ length (emitted w3) = 2 ∧
  (∃ ctx m, extractContext b 900 (lead_page "LDJ Transport") = Some ctx ∧
            payload m = ctx ∧ emitted w3 = emitted w2 ++ [m]).
Proof.
  intros a b w0 w1 w2 w3.
  destruct unforced_update_sent_only_on_change as (_ & _ & H2 & H3).
  destruct (H2 w0 a 250%Z 400%Z (lead_page "LDJ Transport") (lead_page "LDJ Transport")
              eq_refl) as [Ha Hb].
  split_and!; [exact Ha | exact Hb | reflexivity | reflexivity |].
  destruct (extractContext b 900 (lead_page "LDJ Transport")) as [ctx|] eqn:E; [| done].
  destruct (currentContext w2) as [cur|] eqn:Ec; [| done].
  destruct (H3 cur (emitted w2) ctx) as (m & Hm & Hs).
  - injection E as <-. reflexivity.
  - injection E as <-. injection Ec as <-. reflexivity.
  - exists ctx, m. split_and!; [done | done |].
    unfold w3, contextCheck. rewrite E. rewrite <- Hs. f_equal. f_equal.
    destruct w2 as [c e0]. simpl in *. by subst.
Defined.

End WatcherFacts.

(** ** Markup and summaries *)

Module MarkupFacts.
Import JS SidePanel.

Lemma string_length_app (a b : string) :
  String.length (a +:+ b) = String.length a + String.length b.
Proof. induction a as [|c a IH]; [reflexivity|]. change (S (String.length (a +:+ b)) = S (String.length a) + String.length b). rewrite IH. reflexivity. Qed.

Lemma take_chars_length n s : String.length (take_chars n s) ≤ n.
Proof.
  unfold take_chars. revert s. induction n as [|n IH]; intros s.
  - destruct s; simpl; lia.
  - destruct s as [|c s]; simpl; [lia|]. specialize (IH s). lia.
Qed.

Lemma includes_char_cons x c s :
  includes (String c s) (String x "") = Ascii.eqb x c || includes s (String x "").
Proof.
  simpl. destruct (Ascii.ascii_dec x c) as [->|Hne].
  - rewrite Ascii.eqb_refl. destruct s; reflexivity.
  - apply Ascii.eqb_neq in Hne. rewrite Hne. reflexivity.
Qed.

Lemma includes_char_app x a b :
  includes (a +:+ b) (String x "") = includes a (String x "") || includes b (String x "").
Proof.
  induction a as [|c a IH].
  - change ("" +:+ b) with b. reflexivity.
  - change (String c a +:+ b) with (String c (a +:+ b)).
    rewrite !includes_char_cons, IH, orb_assoc. reflexivity.
Qed.

(** X1. The text that escapeHtml returns holds neither "<" nor ">":
    whatever a message or a tool summary says, it cannot open or close a
    tag in the markup it is put into. *)
Theorem escapeHtml_leaves_no_markup text :
  includes (escapeHtml text) "<" = false ∧ includes (escapeHtml text) ">" = false.
Proof.
  induction text as [|c rest [IH1 IH2]]; [split; reflexivity|].
  cbn [escapeHtml]. rewrite !includes_char_app, IH1, IH2, !orb_false_r.
  destruct c as [[] [] [] [] [] [] [] []]; split; reflexivity.
Qed.

(** X2. The summary of a tool result that is a string is short: at most
    100 characters when the string starts with "Error", at most 80
    otherwise, whatever the tool. *)
Theorem text_summary_is_short key s :
  String.length (summarizeToolResult key (JStr s))
    ≤ (if startsWith s "Error" then 100 else 80).
Proof.
  unfold summarizeToolResult. cbn [truthy].
  destruct (String.eqb s "") eqn:He; cbn [negb].
  - apply String.eqb_eq in He as ->. vm_compute. lia.
  - destruct (startsWith s "Error"); [apply take_chars_length|].
    destruct (80 <? String.length s) eqn:Hl.
    + rewrite string_length_app. pose proof (take_chars_length 77 s). simpl. lia.
    + apply Nat.ltb_ge in Hl. lia.
Qed.


Lemma app_length_pos (a b : string) : 0 < String.length a → 0 < String.length (a +:+ b).
Proof. rewrite string_length_app. lia. Qed.

Lemma found_count_length n noun : 0 < String.length (found_count n noun).
Proof. unfold found_count. apply app_length_pos. simpl. lia. Qed.

(** X3. summarizeToolResult never returns the empty string, for any tool
    key and any result: a resolved tool card always has a summary line. *)
Theorem summary_is_never_empty key result :
  0 < String.length (summarizeToolResult key result).
Proof.
  unfold summarizeToolResult.
  destruct (truthy result) eqn:Ht; cbn [negb]; [|simpl; lia].
  assert (Hfall : ∀ fallthrough : string, 0 < String.length fallthrough →
    0 < String.length
      (if bool_decide (key = Some "search_leads") then
        if truthy (get result "leads")
        then found_count (get (get result "leads") "length") "lead"
        else if isArray result then found_count (get result "length") "lead"
        else fallthrough
      else if bool_decide (key = Some "get_lead") then
        if truthy (or_else (get result "name") (get result "display_name"))
        then "Loaded: " +:+ toString (or_else (get result "name") (get result "display_name"))
        else fallthrough
      else if bool_decide (key = Some "search_insured") then
        if truthy (get result "value")
        then found_count (get (get result "value") "length") "insured"
        else if isArray result then found_count (get result "length") "insured"
        else fallthrough
      else if bool_decide (key = Some "get_dot_info") then
        if truthy (get result "carrier")
        then "Found: " +:+
             toString (or_else (get (get result "carrier") "legalName")
                        (or_else (get (get result "carrier") "dbaName") (JStr "Carrier")))
        else if truthy (get result "legalName")
        then "Found: " +:+ toString (get result "legalName")
        else fallthrough
      else if bool_decide (key = Some "get_policies") then
        if isArray result
        then "Found " +:+ toString (get result "length") +:+ " polic" +:+
             (if strict_ne_num (get result "length") 1 then "ies" else "y")
        else fallthrough
      else if bool_decide (key = Some "navigate") then "Navigation complete"
      else if bool_decide (key = Some "click") then "Click complete"
      else if bool_decide (key = Some "fill_form") then "Form filled"
      else if bool_decide (key = Some "screenshot") then "Screenshot captured"
      else fallthrough)).
  { intros fallthrough Hf.
    repeat case_match; try assumption; try apply found_count_length;
      try (apply app_length_pos; simpl; lia); simpl; lia. }
  destruct result as [| |b|n|s|items|fields]; try discriminate Ht.
  - apply Hfall. simpl. lia.
  - apply Hfall. simpl. lia.
  - cbn [truthy] in Ht. destruct s as [|c s]; [discriminate|].
    destruct (startsWith (String c s) "Error") eqn:Hs.
    + unfold take_chars. simpl. lia.
    + destruct (80 <? String.length (String c s)).
      * rewrite string_length_app. simpl. lia.
      * simpl. lia.
  - apply Hfall. apply app_length_pos. simpl. lia.
  - apply Hfall. simpl. lia.
Qed.

End MarkupFacts.

(** ** The conversation as a whole *)

Module ConversationFacts.
Import JS SidePanel HistoryFacts StreamingFacts TransportFacts AttachmentFacts.

Lemma same_entry_refl m : same_entry m m.
Proof. by repeat split. Qed.

Lemma extends_refl l : extends_history l l.
Proof. intros i m H. exists m. split; [done|apply same_entry_refl]. Qed.

Lemma extends_trans a b c :
  extends_history a b → extends_history b c → extends_history a c.
Proof.
  intros Hab Hbc i m H. destruct (Hab i m H) as (m' & H' & E).
  destruct (Hbc i m' H') as (m'' & H'' & E'). exists m''. split; [done|].
  destruct E as (?&?&?&?&?&?), E' as (?&?&?&?&?&?). repeat split; congruence.
Qed.

Lemma extends_app l more : extends_history l (l ++ more).
Proof.
  intros i m H. exists m. split; [|apply same_entry_refl].
  by apply lookup_app_l_Some.
Qed.

Lemma extends_insert l k m0 m1 :
  l !! k = Some m0 → same_entry m0 m1 → extends_history l (<[k := m1]> l).
Proof.
  intros Hk E i m H. destruct (decide (i = k)) as [->|Hne].
  - exists m1. rewrite list_lookup_insert_eq by (by eapply lookup_lt_Some).
    split; [done|]. congruence.
  - exists m. rewrite list_lookup_insert_ne by done. split; [done|apply same_entry_refl].
Qed.

Lemma saveMessages_state p : (saveMessages p).1 = p.1.
Proof. reflexivity. Qed.

Lemma hideThinkingIndicator_state p : (hideThinkingIndicator p).1 = p.1.
Proof. reflexivity. Qed.

Lemma handleServerMessage_extends now f p :
  extends_history (messages p.1) (messages (handleServerMessage now f p).1).
Proof.
  destruct f; cbn [handleServerMessage].
  - cbn [on_state fst with_currentStreamId messages]. rewrite renderMessage_state.
    simpl. apply extends_app.
  - destruct (current _); [|apply extends_refl].
    destruct (list_find _ _) as [[k msg]|] eqn:Hf; [|apply extends_refl].
    rewrite updateStreamingMessage_state. simpl.
    apply list_find_Some in Hf as (Hk & _ & _).
    eapply extends_insert; [done|]. by repeat split.
  - destruct (current _); [|apply extends_refl].
    simpl. destruct (getElementById s (dom p.2)) as [[k d]|]; apply extends_refl.
  - cbn [on_state fst with_currentToolId messages].
    rewrite addMessage_messages. apply extends_app.
  - destruct (current _); [|apply extends_refl].
    destruct (getElementById _ _) as [[j card]|]; [|apply extends_refl].
    destruct (list_find _ _) as [[k msg]|] eqn:Hf; [|apply extends_refl].
    simpl. apply list_find_Some in Hf as (Hk & _ & _).
    eapply extends_insert; [done|]. by repeat split.
  - apply extends_refl.
  - rewrite addMessage_messages. apply extends_app.
  - destruct (renderDataCard_throws _ _); apply extends_refl.
  - apply extends_refl.
  - destruct (getElementById _ _) as [[k d]|]; apply extends_refl.
  - apply extends_refl.
  - rewrite saveMessages_state, addMessage_messages. apply extends_app.
  - apply extends_refl.
  - apply extends_refl.
Qed.


Lemma handleFiles_messages read fl p :
  messages (handleFiles read fl p).1 = messages p.1.
Proof.
  revert p. induction fl as [|f fl IH]; intros p; [reflexivity|].
  cbn [handleFiles]. repeat case_match; rewrite ?IH; reflexivity.
Qed.

Lemma sendMessage_messages now text p :
  sendMessage now text p = p ∨
  messages (sendMessage now text p).1 =
    messages p.1 ++ [plain_message "user" (displayed text (pendingFiles p.1)) now].
Proof.
  unfold sendMessage. destruct (is_blank text && _); [by left|right].
  set (q := addMessage _ p).
  assert (Hq : messages q.1 = messages p.1 ++
            [plain_message "user" (displayed text (pendingFiles p.1)) now]).
  { unfold q. rewrite addMessage_messages. reflexivity. }
  repeat case_match; exact Hq.
Qed.

Lemma step_extends read p e :
  extends_history (messages p.1) (messages (step read p e).1).
Proof.
  destruct e; cbn [step].
  - apply handleServerMessage_extends.
  - unfold browserActionCallback. repeat case_match; apply extends_refl.
  - unfold onopen. rewrite sendTabState_state. apply extends_refl.
  - unfold onclose. case_match; apply extends_refl.
  - unfold connectWebSocket. repeat case_match; apply extends_refl.
  - rewrite handleFiles_messages. apply extends_refl.
  - apply extends_refl.
  - destruct (sendMessage_messages now text p) as [->| ->];
      [apply extends_refl|apply extends_app].
Qed.

Lemma act_extends read p c :
  extends_history (messages p.1) (messages (act read p c).1).
Proof.
  destruct c; cbn [act].
  - apply step_extends.
  - unfold handleActionResponse. repeat case_match; apply extends_refl.
  - unfold handleCreateTask. repeat case_match; apply extends_refl.
  - apply extends_refl.
  - repeat case_match; apply extends_refl.
Qed.

(** X4. Nothing that happens to the panel removes or reorders an entry
    of the history: after any sequence of frames, timers, socket events,
    file drops, sends and button clicks, every entry is still at its
    position, with its role, time stamp and ids; only its text or its
    tool outcome may have changed.  So the history never gets shorter. *)
Theorem history_is_never_rewritten read p cs :
  extends_history (messages p.1) (messages (drive read p cs).1) ∧
  length (messages p.1) ≤ length (messages (drive read p cs).1).
Proof.
  assert (H : extends_history (messages p.1) (messages (drive read p cs).1)).
  { revert p. induction cs as [|c cs IH]; intros p; [apply extends_refl|].
    eapply extends_trans; [apply (act_extends read p c)|apply IH]. }
  split; [exact H|].
  destruct (messages p.1) as [|m l] eqn:E using rev_ind; [simpl; lia|].
  destruct (H (length l) m) as (m' & Hm & _).
  { rewrite lookup_app_r by lia. by rewrite Nat.sub_diag. }
  apply lookup_lt_Some in Hm. rewrite length_app. simpl. lia.
Qed.


(** X5. Once a stream has ended, a further chunk or a second
    response_end changes nothing; once a tool result has been handled, a
    second tool_result changes nothing. *)
Theorem frames_after_the_close_are_ignored t1 t2 c result1 result2 p :
  let ended := handleServerMessage t1 response_end p in
  let resolved := handleServerMessage t1 (tool_result result1) p in
  handleServerMessage t2 (response_chunk c) ended = ended ∧
  handleServerMessage t2 response_end ended = ended ∧
  handleServerMessage t2 (tool_result result2) resolved = resolved.
Proof.
  cbn zeta. refine (conj _ (conj _ _)).
  - cbn [handleServerMessage].
    destruct (current (currentStreamId p.1)) eqn:Hc; [reflexivity|]. by rewrite Hc.
  - cbn [handleServerMessage].
    destruct (current (currentStreamId p.1)) eqn:Hc; [reflexivity|]. by rewrite Hc.
  - cbn [handleServerMessage].
    destruct (current (currentToolId p.1)) eqn:Hc; [reflexivity|]. by rewrite Hc.
Qed.

(** X6. A frame that is not part of the conversation (action_request,
    structured_data, suggested_task, task_created, browser_action,
    carrier_quote_progress, an unknown tag) leaves the history, the
    stream and tool references, storage and the socket as they are. *)
Theorem auxiliary_frames_leave_the_conversation_alone now f p :
  conversational f = false →
  let q := handleServerMessage now f p in
  messages q.1 = messages p.1 ∧ isStreaming q.1 = isStreaming p.1 ∧
  currentStreamId q.1 = currentStreamId p.1 ∧ currentToolId q.1 = currentToolId p.1 ∧
  stored q.2 = stored p.2 ∧ sent q.2 = sent p.2.
Proof.
  destruct p as [[] w].
  destruct f; try discriminate; intros _; cbn [handleServerMessage];
    try (destruct (getElementById _ _) as [[k d]|]);
    try (destruct (renderDataCard_throws _ _)); by repeat split.
Qed.


(** A task suggestion on a fresh panel. *)
Lemma auxiliary_frames_witness :
  let p := boot [] None in
  let q := handleServerMessage 7 (suggested_task "t1") p in
  messages q.1 = messages p.1 ∧ isStreaming q.1 = isStreaming p.1 ∧
  currentStreamId q.1 = currentStreamId p.1 ∧ currentToolId q.1 = currentToolId p.1 ∧
  stored q.2 = stored p.2 ∧ sent q.2 = sent p.2.
Proof.
  exact (auxiliary_frames_leave_the_conversation_alone 7 (suggested_task "t1") (boot [] None)
           eq_refl).
Defined.

Lemma answers_send f p :
  answers (send f p) = answers p + (if is_action_response f then 1 else 0).
Proof.
  unfold answers, send. cbn. rewrite List.filter_app, length_app. cbn.
  by destruct (is_action_response f).
Qed.

Lemma handleServerMessage_awaiting now f p :
  pendingAction (handleServerMessage now f p).1 =
    match f with
    | action_request aid act target => Some (aid, act, target)
    | _ => pendingAction p.1
    end.
Proof.
  destruct f; cbn [handleServerMessage]; try done.
  - destruct (current _); [|done]. destruct (list_find _ _) as [[??]|]; [|done].
    by rewrite updateStreamingMessage_state.
  - destruct (current _); [|done]. cbn.
    by destruct (getElementById _ _) as [[??]|].
  - destruct (current _); [|done]. cbn.
    destruct (getElementById _ _) as [[??]|]; [|done].
    by destruct (list_find _ _) as [[??]|].
  - by destruct (renderDataCard_throws _ _).
  - by destruct (getElementById _ _) as [[??]|].
Qed.

Lemma handleFiles_awaiting read fl p :
  pendingAction (handleFiles read fl p).1 = pendingAction p.1.
Proof.
  revert p. induction fl as [|f fl IH]; intros p; [done|].
  cbn [handleFiles]. repeat case_match; rewrite ?IH; done.
Qed.

Lemma act_answers read p c :
  answers (act read p c) + awaiting (act read p c)
    ≤ answers p + awaiting p + (if is_action_request c then 1 else 0).
Proof.
  destruct c as [e|approved|taskId leadId|t|]; cbn [act].
  - destruct e; cbn [step].
    + unfold answers, awaiting.
      rewrite (proj2 (handleServerMessage_files now f p)), handleServerMessage_awaiting.
      destruct f; cbn; destruct (pendingAction p.1); lia.
    + unfold browserActionCallback. destruct (ws p.1) as [[]|]; cbn [is_action_request];
        rewrite ?answers_send; cbn; unfold awaiting; cbn; lia.
    + unfold onopen, sendTabState. cbn.
      destruct (currentTab p.1); rewrite ?answers_send; unfold answers, awaiting; cbn; lia.
    + unfold onclose. case_match; unfold answers, awaiting; cbn; lia.
    + unfold connectWebSocket. destruct (ws p.1) as [[]|]; unfold answers, awaiting; cbn; lia.
    + unfold answers, awaiting. rewrite handleFiles_sent, handleFiles_awaiting. cbn. lia.
    + unfold answers, awaiting. cbn. lia.
    + unfold sendMessage. repeat case_match; rewrite ?answers_send;
        unfold answers, awaiting; cbn; lia.
  - unfold handleActionResponse, awaiting.
    destruct (pendingAction p.1) as [[[aid a] t]|] eqn:Hp, (ws p.1) as [[]|];
      cbn [is_action_request]; unfold answers; cbn;
      rewrite ?List.filter_app, ?length_app, ?Hp; cbn; lia.
  - unfold handleCreateTask. destruct (ws p.1), (connected p.1);
      rewrite ?answers_send; unfold answers, awaiting; cbn; lia.
  - unfold answers, awaiting. cbn. lia.
  - destruct (ws p.1) as [[]|]; unfold answers, awaiting; cbn; lia.
Qed.

(** X8. A confirmation is answered at most once, with the id of the
    request that was shown last.  On an open socket a click sends one
    action_response with that id and clears the request; a request that
    was replaced before the click is never answered; a further click
    sends nothing.  Without a socket the click clears the request and
    sends nothing; on a socket that is still connecting the click changes
    nothing, so the request stays pending.  Over any run from start-up,
    no more action_response frames are handed to the socket than
    action_request frames were received. *)
Theorem confirmation_is_answered_at_most_once :
  (∀ now aid act target approved p,
     ws p.1 = Some OPEN →
     let q := handleActionResponse approved
                (handleServerMessage now (action_request aid act target) p) in
     sent q.2 = sent p.2 ++ [out_action_response aid approved] ∧ pendingAction q.1 = None) ∧
  (∀ t1 t2 aid1 act1 target1 aid2 act2 target2 approved p,
     ws p.1 = Some OPEN →
     sent (handleActionResponse approved
             (handleServerMessage t2 (action_request aid2 act2 target2)
                (handleServerMessage t1 (action_request aid1 act1 target1) p))).2
       = sent p.2 ++ [out_action_response aid2 approved]) ∧
  (∀ approved again p,
     ws p.1 ≠ Some CONNECTING →
     handleActionResponse again (handleActionResponse approved p)
       = handleActionResponse approved p) ∧
  (∀ approved p,
     ws p.1 = None →
     sent (handleActionResponse approved p).2 = sent p.2 ∧
     pendingAction (handleActionResponse approved p).1 = None) ∧
  (∀ approved p,
     ws p.1 = Some CONNECTING → is_Some (pendingAction p.1) →
     handleActionResponse approved p = p) ∧
  (∀ read welcome storage tab cs,
     answers (drive read (init welcome storage tab) cs)
       ≤ length (List.filter is_action_request cs)).
Proof.
  refine (conj _ (conj _ (conj _ (conj _ (conj _ _))))).
  - intros now aid act target approved p Hw. cbn zeta.
    unfold handleActionResponse. cbn [handleServerMessage]. simpl. rewrite Hw. done.
  - intros t1 t2 aid1 act1 target1 aid2 act2 target2 approved p Hw.
    unfold handleActionResponse. cbn [handleServerMessage]. simpl. rewrite Hw. done.
  - intros approved again p Hw. unfold handleActionResponse at 2 3.
    destruct (pendingAction p.1) as [[[aid a] t]|], (ws p.1) as [[]|]; done.
  - intros approved p Hw. unfold handleActionResponse. rewrite Hw.
    by destruct (pendingAction p.1) as [[[? ?] ?]|].
  - intros approved p Hw [[[aid a] t] Hx]. unfold handleActionResponse. by rewrite Hx, Hw.
  - intros read welcome storage tab cs.
    assert (H : ∀ p, answers (drive read p cs) + awaiting (drive read p cs)
                     ≤ answers p + awaiting p + length (List.filter is_action_request cs)).
    { induction cs as [|c cs IH]; intros p; [cbn; lia|].
      change (drive read p (c :: cs)) with (drive read (act read p c) cs).
      specialize (IH (act read p c)). pose proof (act_answers read p c) as Hc.
      cbn [List.filter]. destruct (is_action_request c); cbn [length]; lia. }
    specialize (H (init welcome storage tab)).
    assert (H0 : answers (init welcome storage tab) = 0 ∧ awaiting (init welcome storage tab) = 0).
    { unfold answers, awaiting, init.
      assert (Hc : ∀ q, sent (connectWebSocket q).2 = sent q.2 ∧
                        pendingAction (connectWebSocket q).1 = pendingAction q.1).
      { intros q. unfold connectWebSocket. by destruct (ws q.1) as [[]|]. }
      destruct (Hc (on_state (λ s, match tab with Some t => with_currentTab (Some t) s
                                   | None => s end) (boot welcome storage))) as [-> ->].
      assert (Hb : sent (boot welcome storage).2 = [] ∧
                   pendingAction (boot welcome storage).1 = None).
      { unfold boot. split.
        - by rewrite (proj2 (loadMessages_files _)).
        - unfold loadMessages. cbn [stored snd].
          set (saved := default [] storage).
          set (q0 := if (0 <? length saved) then _ else _).
          assert (Hq0 : pendingAction q0.1 = None) by (unfold q0; by case_match).
          revert Hq0. generalize q0. clear.
          induction saved as [|m l IH]; intros q0 Hq0; [done|].
          cbn [foldl]. apply IH. by rewrite renderMessage_state. }
      destruct Hb as [Hb1 Hb2]. unfold on_state. cbn [fst snd]. rewrite Hb1.
      split; [done|]. destruct tab; cbn [pendingAction with_currentTab]; by rewrite Hb2. }
    lia.
Qed.

(** Two requests on an open socket, a click with no socket and a click
    while the socket is connecting. *)
Lemma confirmation_witness :
  let p := onopen (init [] None None) in
  let waiting := handleServerMessage 5 (action_request "a-1" "click" "#submit")
                   (init [] None None) in
  ws p.1 = Some OPEN ∧
  sent (handleActionResponse true
          (handleServerMessage 5 (action_request "a-1" "click" "#submit") p)).2
    = [out_action_response "a-1" true] ∧
  sent (handleActionResponse false
          (handleServerMessage 6 (action_request "a-2" "fill" "#name")
             (handleServerMessage 5 (action_request "a-1" "click" "#submit") p))).2
    = [out_action_response "a-2" false] ∧
  sent (handleActionResponse true (boot [] None)).2 = [] ∧
  (ws waiting.1 = Some CONNECTING ∧ handleActionResponse true waiting = waiting).
Proof.
  pose proof confirmation_is_answered_at_most_once as (H1 & H2 & _ & H4 & H5 & _).
  assert (Hw : ws (onopen (init [] None None)).1 = Some OPEN) by reflexivity.
  refine (conj Hw (conj _ (conj _ (conj _ (conj eq_refl _))))).
  - exact (proj1 (H1 5%Z "a-1" "click" "#submit" true _ Hw)).
  - exact (H2 5%Z 6%Z "a-1" "click" "#submit" "a-2" "fill" "#name" false _ Hw).
  - exact (proj1 (H4 true (boot [] None) eq_refl)).
  - exact (H5 true (handleServerMessage 5 (action_request "a-1" "click" "#submit")
                      (init [] None None)) eq_refl (ex_intro _ _ eq_refl)).
Defined.

Lemma remove_first_last (f : node → bool) (l : list node) (x : node) :
  Forall (λ n, f n = false) l → f x = true → remove_first f (l ++ [x]) = l.
Proof.
  intros Hl Hx. induction Hl as [|n l Hn Hl IH]; simpl; [by rewrite Hx|].
  rewrite Hn, IH. done.
Qed.

Lemma remove_first_app_r (f : node → bool) (l more : list node) :
  Forall (λ n, f n = false) l → remove_first f (l ++ more) = l ++ remove_first f more.
Proof.
  intros Hl. induction Hl as [|n l Hn Hl IH]; simpl; [done|]. rewrite Hn, IH. done.
Qed.

Lemma shown_indicators k p :
  Nat.iter k showThinkingIndicator p =
    on_world (with_dom (dom p.2 ++ replicate k thinking_node)) p.
Proof.
  induction k as [|k IH].
  - destruct p as [s []]. unfold on_world, with_dom. simpl. by rewrite app_nil_r.
  - rewrite Nat.iter_succ, IH, replicate_S_end, app_assoc. reflexivity.
Qed.

(** X11. Thinking indicators stack: each call of showThinkingIndicator
    adds one and hideThinkingIndicator removes only one.  In a container
    that shows none, hiding after one call restores the container. *)
Theorem thinking_indicators_stack k p :
  Forall (λ n, nid n ≠ "thinking") (dom p.2) →
  hideThinkingIndicator (Nat.iter (S k) showThinkingIndicator p)
    = Nat.iter k showThinkingIndicator p.
Proof.
  intros Hd. rewrite !shown_indicators. unfold hideThinkingIndicator, on_world, with_dom. simpl.
  rewrite remove_first_app_r; [done|].
  eapply Forall_impl; [exact Hd|]. intros n Hn. by apply bool_decide_eq_false.
Qed.

(** One and two indicators on a fresh panel. *)
Lemma thinking_indicators_witness :
  Forall (λ n, nid n ≠ "thinking") (dom (boot [] None).2) ∧
  hideThinkingIndicator (showThinkingIndicator (boot [] None)) = boot [] None ∧
  hideThinkingIndicator (showThinkingIndicator (showThinkingIndicator (boot [] None)))
    = showThinkingIndicator (boot [] None).
Proof.
  assert (H : Forall (λ n, nid n ≠ "thinking") (dom (boot [] None).2)) by constructor.
  refine (conj H (conj _ _)).
  - exact (thinking_indicators_stack 0 (boot [] None) H).
  - exact (thinking_indicators_stack 1 (boot [] None) H).
Defined.


(** X9. sendMessage does nothing for a blank text without attachments.
    Otherwise it adds exactly one user entry, whose text names the
    attached files, persists the history, clears the pending files and
    leaves the thinking indicator as the last element shown, whether or
    not the socket is connected. *)
Theorem sendMessage_shows_what_the_user_sent now text p :
  (is_blank text = true → pendingFiles p.1 = [] → sendMessage now text p = p) ∧
  (is_blank text = false ∨ pendingFiles p.1 ≠ [] →
   let q := sendMessage now text p in
   messages q.1 =
     messages p.1 ++ [plain_message "user" (displayed text (pendingFiles p.1)) now] ∧
   pendingFiles q.1 = [] ∧
   stored q.2 = Some (slice_last 100 (messages q.1)) ∧
   last (dom q.2) = Some thinking_node).
Proof.
  split.
  - intros Hb Hf. unfold sendMessage. rewrite Hb, Hf. reflexivity.
  - intros Hgo. cbn zeta. unfold sendMessage.
    assert (Hc : is_blank text && negb (0 <? length (pendingFiles p.1)) = false).
    { destruct Hgo as [->|Hf]; [done|].
      destruct (pendingFiles p.1); [done|]. apply andb_false_r. }
    rewrite Hc.
    set (q := addMessage _ p).
    assert (Hq : messages q.1 = messages p.1 ++
              [plain_message "user" (displayed text (pendingFiles p.1)) now]).
    { unfold q. rewrite addMessage_messages. reflexivity. }
    assert (Hs : stored q.2 = Some (slice_last 100 (messages q.1))) by reflexivity.
    repeat case_match; refine (conj Hq (conj eq_refl (conj Hs _)));
      simpl; apply last_snoc.
Qed.

(** A text of a space and a no-break space, and a greeting, on a fresh
    panel. *)
Lemma sendMessage_witness :
  let p := boot [] None in
  let blank := String " " (String (ascii_of_nat 160) EmptyString) in
  (is_blank blank = true ∧ pendingFiles p.1 = [] ∧ sendMessage 9 blank p = p) ∧
  (messages (sendMessage 9 "hello" p).1 = [plain_message "user" "hello" 9] ∧
   pendingFiles (sendMessage 9 "hello" p).1 = [] ∧
   stored (sendMessage 9 "hello" p).2
     = Some (slice_last 100 (messages (sendMessage 9 "hello" p).1)) ∧
   last (dom (sendMessage 9 "hello" p).2) = Some thinking_node).
Proof.
  split.
  - refine (conj eq_refl (conj eq_refl _)).
    exact (proj1 (sendMessage_shows_what_the_user_sent 9
                    (String " " (String (ascii_of_nat 160) EmptyString)) (boot [] None))
             eq_refl eq_refl).
  - exact (proj2 (sendMessage_shows_what_the_user_sent 9 "hello" (boot [] None))
             (or_introl eq_refl)).
Defined.

Lemma handleFiles_cons_refused read f fl p :
  acceptable f = false →
  handleFiles read (f :: fl) p = handleFiles read fl (alert (refusal f) p).
Proof.
  unfold acceptable, refusal. cbn [handleFiles].
  destruct (maxSize <? file_size f)%Z; [done|]. cbn [negb andb]. by intros ->.
Qed.

Lemma handleFiles_cons_accepted read f fl p base64 :
  acceptable f = true → read f = Some base64 →
  handleFiles read (f :: fl) p =
    handleFiles read fl (on_state (with_pendingFiles (pendingFiles p.1 ++ [attach f base64])) p).
Proof.
  unfold acceptable. cbn [handleFiles].
  destruct (maxSize <? file_size f)%Z; [done|]. cbn [negb andb]. by intros -> ->.
Qed.

(** X10. When every read succeeds, handleFiles appends the acceptable
    files of the offer to the pending files, in the order offered, and
    shows one alert for every other file, in the order offered.  A read
    that fails abandons the file and the rest of the offer. *)
Theorem handleFiles_sorts_the_offer (content : File → string) read fl p :
  (let q := handleFiles (λ f, Some (content f)) fl p in
   pendingFiles q.1 =
     pendingFiles p.1 ++ ((λ f, attach f (content f)) <$> List.filter acceptable fl) ∧
   alerts q.2 = alerts p.2 ++ (refusal <$> List.filter (λ f, negb (acceptable f)) fl)) ∧
  (∀ f, acceptable f = true → read f = None → handleFiles read (f :: fl) p = p).
Proof.
  split.
  - cbn zeta. revert p. induction fl as [|f fl IH]; intros p.
    + simpl. by rewrite !app_nil_r.
    + cbn [List.filter]. destruct (acceptable f) eqn:Ha; cbn [negb].
      * rewrite (handleFiles_cons_accepted _ f fl p (content f) Ha eq_refl).
        destruct (IH (on_state (with_pendingFiles
                    (pendingFiles p.1 ++ [attach f (content f)])) p)) as [-> ->].
        simpl. by rewrite <- app_assoc.
      * rewrite (handleFiles_cons_refused _ f fl p Ha).
        destruct (IH (alert (refusal f) p)) as [-> ->].
        simpl. by rewrite <- app_assoc.
  - intros f Ha Hr. unfold acceptable in Ha. cbn [handleFiles].
    destruct (maxSize <? file_size f)%Z; [done|]. cbn [negb andb] in Ha.
    by rewrite Ha, Hr.
Qed.

(** A reader that fails on the first file of an offer. *)
Lemma handleFiles_witness :
  let png := {| file_name := "scan.png"; file_type := "image/png"; file_size := 2048 |} in
  acceptable png = true ∧
  handleFiles (λ _, None)
    [png; {| file_name := "big.pdf"; file_type := "application/pdf";
             file_size := 12 * 1024 * 1024 |}] (boot [] None) = boot [] None.
Proof.
  split; [reflexivity|].
  exact (proj2 (handleFiles_sorts_the_offer (λ _, "") (λ _, None)
                  [{| file_name := "big.pdf"; file_type := "application/pdf";
                      file_size := 12 * 1024 * 1024 |}] (boot [] None))
           {| file_name := "scan.png"; file_type := "image/png"; file_size := 2048 |}
           eq_refl eq_refl).
Defined.

End ConversationFacts.

(** ** Contexts and their detection *)

Module ContextFacts.
Import JS PageWatcher MarkupFacts.

Lemma assoc_first_assign k v ctx k' :
  SidePanel.assoc_first k' (assign k v ctx) =
    if String.eqb k' k then Some v else SidePanel.assoc_first k' ctx.
Proof.
  induction ctx as [|[k0 x] rest IH]; cbn [assign SidePanel.assoc_first].
  - reflexivity.
  - destruct (String.eqb k k0) eqn:E; cbn [SidePanel.assoc_first].
    + apply String.eqb_eq in E as ->. by destruct (String.eqb k' k0).
    + rewrite IH. destruct (String.eqb k' k0) eqn:E'; [|done].
      apply String.eqb_eq in E' as ->. rewrite String.eqb_sym in E. by rewrite E.
Qed.

Lemma field_assign k v ctx k' :
  field (assign k v ctx) k' = if String.eqb k' k then v else field ctx k'.
Proof. unfold field. rewrite assoc_first_assign. by destruct (String.eqb k' k). Qed.

Lemma keys_assign k v ctx :
  (assign k v ctx).*1 = ctx.*1 ++ (if bool_decide (k ∈ ctx.*1) then [] else [k]).
Proof.
  induction ctx as [|[k0 x] rest IH]; cbn [assign].
  - reflexivity.
  - destruct (String.eqb k k0) eqn:E.
    + apply String.eqb_eq in E as ->. cbn.
      rewrite bool_decide_eq_true_2 by left. by rewrite app_nil_r.
    + apply String.eqb_neq in E. cbn. rewrite IH. f_equal.
      destruct (bool_decide (k ∈ rest.*1)) eqn:B.
      * apply bool_decide_eq_true in B. rewrite bool_decide_eq_true_2; [done|by right].
      * apply bool_decide_eq_false in B. rewrite bool_decide_eq_false_2; [done|].
        rewrite elem_of_cons. intros [->|?]; done.
Qed.

Lemma NoDup_assign k v ctx : NoDup ctx.*1 → NoDup (assign k v ctx).*1.
Proof.
  intros H. rewrite keys_assign. case_bool_decide as B; [by rewrite app_nil_r|].
  apply NoDup_app. split; [done|]. split; [|apply NoDup_singleton].
  intros x Hx ->%list_elem_of_singleton. done.
Qed.

Lemma keys_spread base extra : base.*1 `prefix_of` (spread base extra).*1.
Proof.
  unfold spread. revert base. induction extra as [|[k v] extra IH]; intros base; [done|].
  cbn [foldl]. etrans; [|apply IH]. cbn. rewrite keys_assign. by apply prefix_app_r.
Qed.

Lemma NoDup_spread base extra : NoDup base.*1 → NoDup (spread base extra).*1.
Proof.
  unfold spread. revert base. induction extra as [|[k v] extra IH]; intros base H; [done|].
  cbn [foldl]. apply IH. by apply NoDup_assign.
Qed.

Lemma field_spread base extra k :
  field (spread base extra) k =
    match assoc_last k extra with Some v => v | None => field base k end.
Proof.
  unfold spread. revert base. induction extra as [|[k0 v0] extra IH]; intros base; [done|].
  cbn [foldl assoc_last]. rewrite IH. cbn. destruct (assoc_last k extra); [done|].
  rewrite field_assign. by destruct (String.eqb k k0).
Qed.

Lemma assoc_last_None k (l : context) : k ∉ l.*1 → assoc_last k l = None.
Proof.
  induction l as [|[k0 v] l IH]; [done|]. cbn. rewrite not_elem_of_cons. intros [Hk Hl].
  rewrite (IH Hl). apply String.eqb_neq in Hk. by rewrite Hk.
Qed.

Lemma assoc_last_first k (l : context) :
  NoDup l.*1 → assoc_last k l = SidePanel.assoc_first k l.
Proof.
  induction l as [|[k0 v] l IH]; [done|]. cbn. intros [Hk Hl]%NoDup_cons.
  destruct (String.eqb k k0) eqn:E.
  - apply String.eqb_eq in E as ->. by rewrite assoc_last_None.
  - rewrite (IH Hl). by destruct (SidePanel.assoc_first k l).
Qed.

Lemma keys_assign_in k v ctx x : x ∈ (assign k v ctx).*1 → x = k ∨ x ∈ ctx.*1.
Proof.
  rewrite keys_assign, elem_of_app. intros [?|H]; [by right|].
  case_bool_decide; [by apply elem_of_nil in H|]. apply list_elem_of_singleton in H. by left.
Qed.

Lemma keys_set_if k v ctx x : x ∈ (set_if k v ctx).*1 → x = k ∨ x ∈ ctx.*1.
Proof.
  destruct v as [s|]; cbn [set_if]; [apply keys_assign_in|by right].
Qed.


Lemma match_close_lead_unfold url :
  match_close_lead url =
    match (if String.prefix "app.close.com/lead/" url then
             if String.eqb (take_while not_slash_or_question (drop_chars 19 url)) "" then None
             else Some (take_while not_slash_or_question (drop_chars 19 url))
           else None) with
    | Some capture => Some capture
    | None => match url with
              | EmptyString => None
              | String _ rest => match_close_lead rest
              end
    end.
Proof. destruct url; reflexivity. Qed.

Lemma prefix_split p s :
  String.prefix p s = true → s = p +:+ drop_chars (String.length p) s.
Proof.
  revert s. induction p as [|c p IH]; intros s H.
  - by destruct s.
  - destruct s as [|c' s]; [done|]. cbn in H.
    destruct (Ascii.ascii_dec c c') as [->|]; [|done].
    change (String c' s = String c' (p +:+ drop_chars (String.length p) s)).
    f_equal. by apply IH.
Qed.

Lemma take_while_split f s : ∃ rest, s = take_while f s +:+ rest.
Proof.
  induction s as [|c s [rest IH]]; [by exists ""|]. cbn [take_while].
  destruct (f c).
  - exists rest. change (String c s = String c (take_while f s +:+ rest)). by f_equal.
  - by exists (String c s).
Qed.

Lemma take_while_excludes f s x :
  f x = false → includes (take_while f s) (String x "") = false.
Proof.
  intros Hx. induction s as [|c s IH]; [done|]. cbn [take_while].
  destruct (f c) eqn:Hc; [|done].
  rewrite includes_char_cons, IH, orb_false_r.
  apply Ascii.eqb_neq. intros ->. congruence.
Qed.

Lemma includes_prefix s sub : String.prefix sub s = true → includes s sub = true.
Proof. intros H. destruct s; cbn [includes]; by rewrite H. Qed.

Lemma includes_later c s sub : includes s sub = true → includes (String c s) sub = true.
Proof. intros H. cbn [includes]. rewrite H. apply orb_true_r. Qed.

Lemma prefix_app a b : String.prefix a (a +:+ b) = true.
Proof.
  induction a as [|c a IH]; [by destruct b|].
  change (String.prefix (String c a) (String c (a +:+ b)) = true). cbn [String.prefix].
  by destruct (Ascii.ascii_dec c c).
Qed.

(** X24. When the lead pattern matches a URL, detectSite classifies the
    URL as a lead page whatever else it contains, and the captured lead
    id is a path segment: it is not empty, holds neither "/" nor "?", and
    follows "app.close.com/lead/" in the URL. *)
Theorem lead_capture_is_a_path_segment url l :
  match_close_lead url = Some l →
  detectSite url = ("close_lead", Some l) ∧
  0 < String.length l ∧ includes l "/" = false ∧ includes l "?" = false ∧
  includes url ("app.close.com/lead/" +:+ l) = true.
Proof.
  intros Hl. split; [unfold detectSite; by rewrite Hl|]. revert Hl.
  induction url as [|c url IH]; rewrite match_close_lead_unfold.
  - cbn. discriminate.
  - destruct (String.prefix "app.close.com/lead/" (String c url)) eqn:Hp.
    + set (l' := take_while not_slash_or_question (drop_chars 19 (String c url))).
      destruct (String.eqb l' "") eqn:He.
      * intros H. destruct (IH H) as (?&?&?&?). repeat split; try done.
        by apply includes_later.
      * intros [= <-]. apply String.eqb_neq in He.
        refine (conj _ (conj _ (conj _ _))).
        -- destruct l'; [done|cbn; lia].
        -- by apply take_while_excludes.
        -- by apply take_while_excludes.
        -- apply includes_prefix. apply prefix_split in Hp.
           change (String.length "app.close.com/lead/") with 19 in Hp.
           destruct (take_while_split not_slash_or_question (drop_chars 19 (String c url)))
             as [rest Hrest].
           fold l' in Hrest. rewrite Hp, Hrest, <- StreamingFacts.string_app_assoc.
           apply prefix_app.
    + intros H. destruct (IH H) as (?&?&?&?). repeat split; try done.
      by apply includes_later.
Qed.

(** A lead URL with a trailing query. *)
Lemma lead_capture_witness :
  detectSite "https://app.close.com/lead/lead_A/?tab=notes" = ("close_lead", Some "lead_A") ∧
  0 < String.length "lead_A" ∧ includes "lead_A" "/" = false ∧ includes "lead_A" "?" = false ∧
  includes "https://app.close.com/lead/lead_A/?tab=notes" ("app.close.com/lead/" +:+ "lead_A")
    = true.
Proof.
  exact (lead_capture_is_a_path_segment "https://app.close.com/lead/lead_A/?tab=notes" "lead_A"
           eq_refl).
Defined.

Ltac not_reserved Hk :=
  apply (bool_decide_pack _) in Hk; vm_compute in Hk; destruct Hk.

Lemma extras_avoid_the_stamp url pg site capture k :
  k ∈ ["site"; "url"; "timestamp"; "type"; "changed"; "tabId"] →
  (k ∉ (extractCloseLeadContext capture pg).*1) ∧
  (k ∉ (extractCloseDialerContext pg).*1) ∧
  (k ∉ (extractCarrierContext site url pg).*1).
Proof.
  intros Hk. refine (conj _ (conj _ _)).
  - unfold extractCloseLeadContext. intros H.
    repeat (apply keys_set_if in H as [->|H]; [not_reserved Hk|]).
    cbn in H. apply list_elem_of_singleton in H as ->. not_reserved Hk.
  - unfold extractCloseDialerContext. intros H.
    repeat (apply keys_set_if in H as [->|H]; [not_reserved Hk|]).
    by apply elem_of_nil in H.
  - unfold extractCarrierContext. intros H.
    apply keys_set_if in H as [->|H]; [not_reserved Hk|].
    assert (H' : k = "pageType" ∨ k ∈ ["carrierSite"; "pageTitle"]).
    { repeat case_match; try (by right); by apply keys_assign_in in H. }
    destruct H' as [->|H']; [not_reserved Hk|].
    rewrite !elem_of_cons, elem_of_nil in H'. destruct H' as [->|[->|[]]]; not_reserved Hk.
Qed.


(** X26. Every context that extractContext returns carries the site
    that detectSite names, the URL and the clock reading, as its first
    three keys; no scraped field overrides them, and no key occurs
    twice. *)
Theorem extracted_context_is_stamped url now pg ctx :
  extractContext url now pg = Some ctx →
  field ctx "site" = JStr (detectSite url).1 ∧ field ctx "url" = JStr url ∧
  field ctx "timestamp" = JNum now ∧
  take 3 ctx.*1 = ["site"; "url"; "timestamp"] ∧ NoDup ctx.*1.
Proof.
  unfold extractContext. destruct (detectSite url) as [site capture]. cbn [fst].
  set (base := [("site", JStr site); ("url", JStr url); ("timestamp", JNum now)]).
  assert (Hbase : NoDup base.*1) by (by apply (bool_decide_unpack _)).
  assert (Hspread : ∀ extra,
            (∀ k, k ∈ ["site"; "url"; "timestamp"] → k ∉ extra.*1) →
            field (spread base extra) "site" = JStr site ∧
            field (spread base extra) "url" = JStr url ∧
            field (spread base extra) "timestamp" = JNum now ∧
            take 3 (spread base extra).*1 = ["site"; "url"; "timestamp"] ∧
            NoDup (spread base extra).*1).
  { intros extra Hx. rewrite !field_spread.
    rewrite !assoc_last_None by (apply Hx; by apply (bool_decide_unpack _)).
    refine (conj eq_refl (conj eq_refl (conj eq_refl (conj _ _)))).
    - destruct (keys_spread base extra) as [more ->]. reflexivity.
    - by apply NoDup_spread. }
  assert (Hk : ∀ k, k ∈ ["site"; "url"; "timestamp"] →
                 k ∈ ["site"; "url"; "timestamp"; "type"; "changed"; "tabId"]).
  { intros k. rewrite !elem_of_cons. tauto. }
  repeat case_match; try discriminate; intros [= <-].
  - apply Hspread. intros k Hin.
    by destruct (extras_avoid_the_stamp url pg site capture k (Hk k Hin)) as (? & ? & ?).
  - apply Hspread. intros k Hin.
    by destruct (extras_avoid_the_stamp url pg site capture k (Hk k Hin)) as (? & ? & ?).
  - apply Hspread. intros k Hin.
    by destruct (extras_avoid_the_stamp url pg site capture k (Hk k Hin)) as (? & ? & ?).
  - apply (Hspread [("title", JStr (title pg))]). intros k Hin. cbn. rewrite list_elem_of_singleton. intros ->.
    not_reserved Hin.
Qed.


(** The context of a lead page. *)
Lemma extracted_context_witness :
  let url := "https://app.close.com/lead/lead_A/" in
  let ctx := default [] (extractContext url 100 (lead_page "LDJ Transport")) in
  field ctx "site" = JStr (detectSite url).1 ∧ field ctx "url" = JStr url ∧
  field ctx "timestamp" = JNum 100 ∧
  take 3 ctx.*1 = ["site"; "url"; "timestamp"] ∧ NoDup ctx.*1.
Proof.
  exact (extracted_context_is_stamped "https://app.close.com/lead/lead_A/" 100
           (lead_page "LDJ Transport") _ eq_refl).
Defined.

(** X27. A forced report is always sent and becomes the current
    context.  Its [changed] list is absent on the first report;
    afterwards it holds exactly the keys of the new context whose value
    differs from the previous context, and is absent when there are
    none. *)
Theorem forced_report_is_always_sent ctx w :
  let w' := sendContextUpdate ctx true w in
  currentContext w' = Some ctx ∧
  ∃ m, emitted w' = emitted w ++ [m] ∧ payload m = ctx ∧
       match currentContext w, changed m with
       | None, keys => keys = None
       | Some cur, None => ∀ k, k ∈ ctx.*1 → strict_ne (field ctx k) (field cur k) = false
       | Some cur, Some keys =>
           keys ≠ [] ∧
           ∀ k, k ∈ keys ↔ k ∈ ctx.*1 ∧ strict_ne (field ctx k) (field cur k) = true
       end.
Proof.
  cbn zeta. unfold sendContextUpdate. cbn [negb andb]. split; [reflexivity|].
  eexists. split; [reflexivity|]. split; [reflexivity|]. cbn [changed].
  destruct (currentContext w) as [cur|]; [|reflexivity].
  set (keys := filter _ _).
  destruct keys as [|k0 keys'] eqn:Hkeys; cbn [length Nat.ltb Nat.leb].
  - intros k Hk. destruct (strict_ne (field ctx k) (field cur k)) eqn:E; [|done].
    assert (Hin : k ∈ keys) by (unfold keys; apply list_elem_of_filter; done).
    rewrite Hkeys in Hin. by apply elem_of_nil in Hin.
  - split; [done|]. intros k. rewrite <- Hkeys. unfold keys.
    rewrite list_elem_of_filter. tauto.
Qed.

End ContextFacts.
(** ** Scheduling of the page checks *)

Module SchedulingFacts.
Import JS PageWatcher WatcherFacts.

Lemma debounce_settles s : one_timer s → one_timer (debouncedContextCheck s).
Proof.
  intros [He|(i & Hi & He)]; right; exists (next_timer s); unfold debouncedContextCheck.
  - destruct (debounceTimer s); cbn; rewrite He; done.
  - rewrite Hi. cbn. rewrite He. cbn. rewrite Pos.eqb_refl. done.
Qed.

Lemma on_tick_settles s t : one_timer s → one_timer (on_tick s t).
Proof.
  intros H. destruct t; cbn [on_tick].
  - destruct (observing s); [|done]. unfold onMutations.
    destruct (existsb _ _); [by apply debounce_settles|done].
  - unfold checkUrlChange. destruct (String.eqb _ _); [done|]. by apply debounce_settles.
  - unfold onTimeout. destruct (existsb _ _) eqn:Hex; [|done].
    destruct H as [He|(j & Hj & He)]; [rewrite He in Hex; discriminate|].
    rewrite He in Hex. cbn in Hex. rewrite orb_false_r in Hex. apply Pos.eqb_eq in Hex as ->.
    left. cbn. rewrite He. cbn. by rewrite Pos.eqb_refl.
  - exact H.
  - left. unfold stopWatching. destruct H as [He|(j & Hj & He)].
    + destruct (debounceTimer s); cbn; rewrite He; done.
    + rewrite Hj. cbn. rewrite He. cbn. by rewrite Pos.eqb_refl.
Qed.

(** X28. Once the script has loaded, at most one debounce timeout is
    pending, whatever mutations, URL polls, timeouts, refreshes and stops
    follow, and it is the one that [debounceTimer] names. *)
Theorem at_most_one_check_is_pending url now pg s ts :
  loaded url now pg = Some s →
  one_timer (ticks s ts) ∧ length (pending (ticks s ts)) ≤ 1.
Proof.
  intros Hs.
  assert (H0 : one_timer s).
  { unfold loaded in Hs. destruct (extractContext url now pg); [|done].
    injection Hs as <-. by left. }
  assert (H : one_timer (ticks s ts)).
  { clear Hs. revert s H0. induction ts as [|t ts IH]; intros s H0; [done|].
    apply IH, on_tick_settles, H0. }
  split; [done|]. destruct H as [->|(i & _ & ->)]; cbn; lia.
Qed.

(** Two navigations and a mutation in a row. *)
Lemma at_most_one_check_witness :
  let s := default
    {| watch := {| currentContext := None; emitted := [] |}; lastUrl := "";
       debounceTimer := None; observing := false; pending := []; next_timer := 1 |}
    (loaded "https://app.close.com/lead/lead_A/" 100 (lead_page "LDJ Transport")) in
  let burst := [UrlPoll "https://app.close.com/lead/lead_B/";
                Mutations [{| mutation_type := "childList"; target_tag := Some "DIV";
                              in_content_area := true; addedNodes := 2; removedNodes := 0 |}];
                UrlPoll "https://app.close.com/lead/lead_C/"] in
  one_timer (ticks s burst) ∧ length (pending (ticks s burst)) ≤ 1.
Proof.
  exact (at_most_one_check_is_pending "https://app.close.com/lead/lead_A/" 100
           (lead_page "LDJ Transport") _ _ eq_refl).
Defined.

Lemma schedule_keeps_watch s t : schedules_only t = true → watch (on_tick s t) = watch s.
Proof.
  destruct t; try discriminate; intros _; cbn [on_tick].
  - destruct (observing s); [|done]. unfold onMutations, debouncedContextCheck.
    destruct (existsb _ _); [|done]. by destruct (debounceTimer s).
  - unfold checkUrlChange, debouncedContextCheck. destruct (String.eqb _ _); [done|].
    cbn. by destruct (debounceTimer s).
Qed.

(** X29. Mutations and URL polls only schedule: a burst of them sends
    nothing, and the timeout that runs afterwards sends at most one
    report. *)
Theorem a_burst_reports_at_most_once s ts i url now pg :
  forallb schedules_only ts = true →
  watch (ticks s ts) = watch s ∧
  length (emitted (watch (onTimeout i url now pg (ticks s ts))))
    ≤ length (emitted (watch s)) + 1.
Proof.
  intros Hts.
  assert (H : watch (ticks s ts) = watch s).
  { revert s. induction ts as [|t ts IH]; intros s; [done|].
    cbn in Hts. apply andb_true_iff in Hts as [Ht Hts].
    unfold ticks. cbn [foldl]. fold (ticks (on_tick s t) ts).
    rewrite (IH Hts). by apply schedule_keeps_watch. }
  split; [exact H|]. unfold onTimeout. destruct (existsb _ _).
  - cbn [watch]. change (watch (clearTimeout i (ticks s ts))) with (watch (ticks s ts)).
    rewrite H. apply contextCheck_emits_at_most_one.
  - rewrite H. lia.
Qed.

(** The same burst, then its timeout. *)
Lemma burst_witness :
  let s := default
    {| watch := {| currentContext := None; emitted := [] |}; lastUrl := "";
       debounceTimer := None; observing := false; pending := []; next_timer := 1 |}
    (loaded "https://app.close.com/lead/lead_A/" 100 (lead_page "LDJ Transport")) in
  let burst := [UrlPoll "https://app.close.com/lead/lead_B/";
                Mutations [{| mutation_type := "childList"; target_tag := Some "DIV";
                              in_content_area := true; addedNodes := 2; removedNodes := 0 |}];
                UrlPoll "https://app.close.com/lead/lead_C/"] in
  forallb schedules_only burst = true ∧
  watch (ticks s burst) = watch s ∧
  length (emitted (watch (onTimeout 3 "https://app.close.com/lead/lead_C/" 900
                            (lead_page "LDJ Transport") (ticks s burst))))
    ≤ length (emitted (watch s)) + 1.
Proof.
  cbv zeta. split; [reflexivity|].
  apply a_burst_reports_at_most_once. reflexivity.
Defined.

(** X25. On the records that the observer is asked for, while it is
    connected: a batch schedules one debounced check as soon as one of its
    records has a target outside script, style, meta and link elements
    that lies in a content area or whose children changed; a batch made of
    changes inside script, style, meta or link elements and of attribute
    changes outside the content areas schedules nothing.  The callback
    does nothing else. *)
Theorem only_significant_mutations_schedule s batch :
  observing s = true →
  Forall (λ m, delivered m = true) batch →
  (on_tick s (Mutations batch) = s ∨
   on_tick s (Mutations batch) = debouncedContextCheck s) ∧
  (Exists (λ m, ∃ tag, target_tag m = Some tag ∧
                       (toLowerCase tag ∉ ["script"; "style"; "meta"; "link"]) ∧
                       (in_content_area m = true ∨
                        (mutation_type m = "childList" ∧
                         0 < addedNodes m + removedNodes m))) batch →
   on_tick s (Mutations batch) = debouncedContextCheck s ∧
   debounceTimer (on_tick s (Mutations batch)) = Some (next_timer s) ∧
   next_timer s ∈ pending (on_tick s (Mutations batch))) ∧
  (Forall (λ m, ∃ tag, target_tag m = Some tag ∧
                       (toLowerCase tag ∈ ["script"; "style"; "meta"; "link"] ∨
                        (mutation_type m = "attributes" ∧ in_content_area m = false))) batch →
   on_tick s (Mutations batch) = s).
Proof.
  intros Ho Hd. cbn [on_tick]. rewrite Ho. unfold onMutations.
  refine (conj _ (conj _ _)).
  - destruct (existsb significant batch); auto.
  - intros Hex.
    assert (Hx : existsb significant batch = true).
    { apply Exists_exists in Hex as (m & Hm & tag & Htag & Hnot & Hwhy).
      apply existsb_exists. exists m. split; [by apply list_elem_of_In |].
      rewrite Forall_forall in Hd. specialize (Hd m Hm).
      unfold delivered in Hd. unfold significant. rewrite Htag in Hd |- *.
      assert (Hty : String.eqb (mutation_type m) "characterData" = false).
      { apply orb_true_iff in Hd as [Hd | Hd].
        - apply String.eqb_eq in Hd. by rewrite Hd.
        - apply andb_true_iff in Hd as [Hd _]. apply andb_true_iff in Hd as [Hd _].
          apply String.eqb_eq in Hd. by rewrite Hd. }
      rewrite Hty.
      assert (Hi : existsb (String.eqb (toLowerCase tag)) ["script"; "style"; "meta"; "link"]
                   = false).
      { destruct (existsb _ _) eqn:E; [| done]. exfalso. apply Hnot.
        apply existsb_exists in E as (x & Hin & Hx). apply String.eqb_eq in Hx as ->.
        by apply list_elem_of_In. }
      rewrite Hi. cbv zeta. destruct (in_content_area m); [done |].
      destruct Hwhy as [? | [_ Hn]]; [done |].
      destruct (addedNodes m), (removedNodes m); cbn; try done. lia. }
    rewrite Hx. split; [done |]. unfold debouncedContextCheck.
    destruct (debounceTimer s); cbn; (split; [done |]);
      apply elem_of_app; right; by apply list_elem_of_singleton.
  - intros Hq.
    assert (Hn : existsb significant batch = false).
    { revert Hd. induction Hq as [|m batch (tag & Htag & Hwhy) Hq IH]; [done |].
      intros [Hm Hd]%Forall_cons.
      cbn [existsb]. rewrite (IH Hd), orb_false_r.
      unfold significant. rewrite Htag.
      destruct (String.eqb (mutation_type m) "characterData"); [done |].
      destruct Hwhy as [Hin | [Hty Hout]].
      - assert (Hx : existsb (String.eqb (toLowerCase tag)) ["script"; "style"; "meta"; "link"]
                     = true).
        { apply existsb_exists. exists (toLowerCase tag).
          split; [by apply list_elem_of_In | apply String.eqb_refl]. }
        by rewrite Hx.
      - destruct (existsb (String.eqb (toLowerCase tag)) _); [done |]. rewrite Hout.
        unfold delivered in Hm. rewrite Htag, Hty in Hm. cbn in Hm.
        by destruct (addedNodes m), (removedNodes m). }
    by rewrite Hn.
Qed.

(** A class change outside the content areas together with a node added
    to a style element, and the same class change together with a node
    added to a div. *)
Lemma significant_mutations_witness :
  let s := default
    {| watch := {| currentContext := None; emitted := [] |}; lastUrl := "";
       debounceTimer := None; observing := false; pending := []; next_timer := 1 |}
    (loaded "https://app.close.com/lead/lead_A/" 100 (lead_page "LDJ Transport")) in
  let restyled := {| mutation_type := "attributes"; target_tag := Some "DIV";
                     in_content_area := false; addedNodes := 0; removedNodes := 0 |} in
  let styled := {| mutation_type := "childList"; target_tag := Some "STYLE";
                   in_content_area := true; addedNodes := 1; removedNodes := 0 |} in
  let grown := {| mutation_type := "childList"; target_tag := Some "DIV";
                  in_content_area := false; addedNodes := 1; removedNodes := 0 |} in
  on_tick s (Mutations [restyled; styled]) = s ∧
  on_tick s (Mutations [restyled; grown]) = debouncedContextCheck s ∧
  pending (on_tick s (Mutations [restyled; grown])) = [1%positive].
Proof.
  cbv zeta. split_and!.
  - match goal with
    | |- on_tick ?s (Mutations ?b) = _ =>
        refine (proj2 (proj2 (only_significant_mutations_schedule s b eq_refl _)) _)
    end.
    + repeat constructor.
    + apply Forall_cons. split.
      * exists "DIV". split; [reflexivity |]. by right.
      * apply Forall_cons. split; [| constructor].
        exists "STYLE". split; [reflexivity |]. left. right. left.
  - match goal with
    | |- on_tick ?s (Mutations ?b) = _ =>
        refine (proj1 (proj1 (proj2 (only_significant_mutations_schedule s b eq_refl _)) _))
    end.
    + repeat constructor.
    + apply Exists_cons_tl, Exists_cons_hd. exists "DIV". split; [reflexivity |].
      split; [| right; split; [reflexivity | cbn; lia]].
      intros Hin. cbn in Hin. rewrite !elem_of_cons, elem_of_nil in Hin.
      by destruct Hin as [? | [? | [? | [? | []]]]].
  - reflexivity.
Defined.

(** X30. checkUrlChange remembers the URL it has seen: a poll with the
    URL seen last does nothing, a poll with another URL schedules a check
    and a second poll with that URL changes nothing more. *)
Theorem url_poll_is_idempotent u s :
  checkUrlChange u (checkUrlChange u s) = checkUrlChange u s ∧
  lastUrl (checkUrlChange u s) = u ∧
  (if String.eqb u (lastUrl s) then checkUrlChange u s = s
   else debounceTimer (checkUrlChange u s) = Some (next_timer s) ∧
        next_timer s ∈ pending (checkUrlChange u s)).
Proof.
  unfold checkUrlChange. destruct (String.eqb u (lastUrl s)) eqn:E.
  - rewrite E. apply String.eqb_eq in E. auto.
  - set (s' := {| watch := watch s; lastUrl := u; debounceTimer := debounceTimer s;
                  observing := observing s; pending := pending s;
                  next_timer := next_timer s |}).
    assert (Hl : lastUrl (debouncedContextCheck s') = u).
    { unfold debouncedContextCheck. by destruct (debounceTimer s'). }
    rewrite Hl, String.eqb_refl.
    split; [done|]. split; [done|].
    unfold debouncedContextCheck, s'. cbn. destruct (debounceTimer s) as [i|]; cbn;
      (split; [done|]); apply elem_of_app; right; by left.
Qed.

End SchedulingFacts.

(** ** The context bar *)

Module ContextBarFacts.
Import JS PageWatcher ContextBar ContextFacts.

(** X12. Every button that getContextActions offers for a context is a
    case of handleContextAction that does something for that context,
    with one exception: "Find in Close" on a registry page whose context
    has neither a DOT number nor a carrier name does nothing. *)
Theorem every_offered_action_is_handled ctx a :
  a ∈ getContextActions ctx →
  handleContextAction (a_action a) ctx = NoEffect →
  a_action a = "find_in_close" ∧ site_is ctx "fmcsa" = true ∧
  truthy (field ctx "dotNumber") = false ∧ truthy (field ctx "carrierName") = false.
Proof.
  unfold getContextActions.
  destruct (site_is ctx "close_lead"); [|destruct (site_is ctx "close_dialer");
    [|destruct (is_carrier ctx); [|destruct (site_is ctx "fmcsa") eqn:Hf]]].
  - rewrite !elem_of_cons, elem_of_nil. intros [->|[->|[]]]; cbn; [done|].
    by destruct (truthy (field ctx "dotNumber")).
  - rewrite !elem_of_cons, elem_of_nil. intros [->|[]]; cbn. done.
  - destruct (truthy (field ctx "dotNumber")) eqn:Hd; cbn [app];
      rewrite !elem_of_cons, elem_of_nil.
    + intros [->|[->|[]]]; cbn; [by rewrite Hd|done].
    + intros [->|[]]; cbn. done.
  - rewrite !elem_of_cons, elem_of_nil. intros [->|[->|[]]]; cbn; [done|].
    destruct (truthy (field ctx "dotNumber")); [done|].
    destruct (truthy (field ctx "carrierName")); done.
  - by intros ?%elem_of_nil.
Qed.

(** A registry page without a DOT number or a carrier name. *)
Lemma offered_actions_witness :
  let ctx := [("site", JStr "fmcsa"); ("url", JStr "https://safer.fmcsa.dot.gov/query")] in
  let a := {| a_label := "Find in Close"; a_action := "find_in_close"; a_primary := false |} in
  a ∈ getContextActions ctx ∧ handleContextAction (a_action a) ctx = NoEffect ∧
  a_action a = "find_in_close" ∧ site_is ctx "fmcsa" = true ∧
  truthy (field ctx "dotNumber") = false ∧ truthy (field ctx "carrierName") = false.
Proof.
  assert (H : {| a_label := "Find in Close"; a_action := "find_in_close"; a_primary := false |}
              ∈ getContextActions
                  [("site", JStr "fmcsa"); ("url", JStr "https://safer.fmcsa.dot.gov/query")]).
  { right. left. }
  refine (conj H (conj eq_refl _)).
  exact (every_offered_action_is_handled _ _ H eq_refl).
Defined.

Lemma forwarded_field (ctx : context) keys tab k :
  NoDup ctx.*1 → k ∉ ["type"; "changed"; "tabId"] →
  field (Listener.forward (wire {| payload := ctx; changed := keys |}) tab) k = field ctx k.
Proof.
  rewrite !not_elem_of_cons. intros Hctx (Ht & Hc & Hi & _).
  apply String.eqb_neq in Ht, Hc, Hi.
  unfold Listener.forward, wire. cbn [payload changed].
  set (inner := spread [("type", JStr "PAGE_CONTEXT_UPDATE")] ctx).
  assert (Hinner : NoDup inner.*1) by (by apply NoDup_spread, (bool_decide_unpack _)).
  assert (Hfield : ∀ c : context, NoDup c.*1 →
            field (spread [("type", JStr "PAGE_CONTEXT_UPDATE")] c) k = field c k).
  { intros c Hn. rewrite field_spread, assoc_last_first by done. unfold field.
    destruct (SidePanel.assoc_first k c); [done|]. cbn. by rewrite Ht. }
  rewrite field_assign, Hi, Hfield by (by apply NoDup_assign).
  rewrite field_assign, Hc. by apply Hfield.
Qed.


Lemma bar_reads_fields (a b : context) :
  (∀ k, k ∉ ["type"; "changed"; "tabId"] → field a k = field b k) →
  (∀ name, site_is a name = site_is b name) ∧
  getSiteLabel a = getSiteLabel b ∧ getContextDetails a = getContextDetails b ∧
  getContextActions a = getContextActions b.
Proof.
  intros H.
  assert (Hs : ∀ name, site_is a name = site_is b name).
  { intros name. unfold site_is. rewrite H; [done|by apply (bool_decide_unpack _)]. }
  assert (Hp : ∀ prefix k, k ∉ ["type"; "changed"; "tabId"] → part a prefix k = part b prefix k).
  { intros prefix k Hk. unfold part. by rewrite H. }
  refine (conj Hs (conj _ (conj _ _))).
  - unfold getSiteLabel. rewrite !Hs.
    rewrite !(H "companyName"), !(H "carrierName"), !(H "site")
      by (by apply (bool_decide_unpack _)).
    reflexivity.
  - unfold getContextDetails. rewrite !Hp by (by apply (bool_decide_unpack _)). reflexivity.
  - unfold getContextActions, is_carrier. rewrite !Hs.
    rewrite !(H "dotNumber") by (by apply (bool_decide_unpack _)). reflexivity.
Qed.

(** X13. From the page to the bar: when the watcher reports the context
    extracted from a URL, and the service worker forwards the report, the
    context bar is hidden exactly when the site is unknown; otherwise it
    shows the detected site and the label, details and buttons of the
    extracted context.  The keys that the two hops add (type, changed,
    tabId) do not disturb what the bar reads. *)
Theorem context_bar_follows_the_page url now pg ctx keys tab b :
  extractContext url now pg = Some ctx →
  let shown :=
    updateContextBar
      (Some (Listener.forward (wire {| payload := ctx; changed := keys |}) tab)) b in
  hidden shown = String.eqb (detectSite url).1 "unknown" ∧
  (hidden shown = false →
   data_site shown = Some (detectSite url).1 ∧ siteText shown = getSiteLabel ctx ∧
   detailsText shown = getContextDetails ctx ∧ buttons shown = getContextActions ctx).
Proof.
  intros Hctx. cbn zeta.
  destruct (extracted_context_is_stamped url now pg ctx Hctx) as (Hsite & _ & _ & _ & Hnd).
  set (msg := Listener.forward _ tab).
  assert (Hf : ∀ k, k ∉ ["type"; "changed"; "tabId"] → field msg k = field ctx k).
  { intros k Hk. by apply forwarded_field. }
  destruct (bar_reads_fields msg ctx Hf) as (Hs & Hl & Hd & Ha).
  assert (Hu : site_is msg "unknown" = String.eqb (detectSite url).1 "unknown").
  { rewrite Hs. unfold site_is. rewrite Hsite. cbn. by rewrite negb_involutive. }
  unfold updateContextBar. rewrite Hu.
  destruct (String.eqb (detectSite url).1 "unknown"); cbn [hidden]; [done|].
  split; [done|]. intros _. cbn [data_site siteText detailsText buttons].
  rewrite Hl, Hd, Ha, Hf by (by apply (bool_decide_unpack _)).
  by rewrite Hsite.
Qed.

(** A lead page, reported from tab 7. *)
Lemma context_bar_witness :
  let url := "https://app.close.com/lead/lead_A/" in
  let ctx := default [] (extractContext url 100 (lead_page "LDJ Transport")) in
  let shown :=
    updateContextBar
      (Some (Listener.forward (wire {| payload := ctx; changed := None |}) (Some 7%Z)))
      {| hidden := true; data_site := None; siteText := JUndefined; detailsText := "";
         buttons := [] |} in
  hidden shown = String.eqb (detectSite url).1 "unknown" ∧
  (hidden shown = false →
   data_site shown = Some (detectSite url).1 ∧ siteText shown = getSiteLabel ctx ∧
   detailsText shown = getContextDetails ctx ∧ buttons shown = getContextActions ctx).
Proof.
  exact (context_bar_follows_the_page "https://app.close.com/lead/lead_A/" 100
           (lead_page "LDJ Transport") _ None (Some 7%Z) _ eq_refl).
Defined.

End ContextBarFacts.

(** ** The listener's cache *)

Module ListenerFacts.
Import JS PageWatcher Listener.

Lemma respond_cache m w : pageContextCache (respond m w).2 = pageContextCache w.
Proof. by destruct m as [[r c]|]. Qed.

Lemma other_requests_keep_entry t r w :
  updates_tab t r = false →
  pageContextCache (onMessage r.1 r.2 w).2 !! t = pageContextCache w !! t.
Proof.
  destruct r as [[] sender]; cbn [fst snd onMessage]; rewrite ?respond_cache; try done.
  destruct sender as [i|]; cbn; [|done]. intros Hi. apply Z.eqb_neq in Hi.
  destruct (i =? 0)%Z; [done|]. by rewrite lookup_insert_ne.
Qed.

Lemma requests_keep_entry t r w :
  is_Some (pageContextCache w !! t) →
  is_Some (pageContextCache (onMessage r.1 r.2 w).2 !! t).
Proof.
  destruct (updates_tab t r) eqn:Hu; [|by rewrite other_requests_keep_entry].
  destruct r as [[] [i|]]; try discriminate. cbn in Hu. apply Z.eqb_eq in Hu as ->.
  cbn. intros H. destruct (t =? 0)%Z; [done|]. rewrite lookup_insert_eq. by eexists.
Qed.

(** X18. The worker's cache answers GET_CACHED_CONTEXT for a tab with
    the latest PAGE_CONTEXT_UPDATE that came from that tab, whatever
    other requests arrived in between; an entry is never removed; an
    update without a sender tab is forwarded but not cached. *)
Theorem cached_context_is_the_latest_update :
  (∀ w t message later asker,
     t ≠ 0%Z → forallb (λ r, negb (updates_tab t r)) later = true →
     (onMessage (GET_CACHED_CONTEXT t) asker
        (serve (onMessage (PAGE_CONTEXT_UPDATE message) (Some t) w).2 later)).1
       = Some (JObj [("success", JBool true); ("context", JObj message)])) ∧
  (∀ w t requests,
     is_Some (pageContextCache w !! t) →
     is_Some (pageContextCache (serve w requests) !! t)) ∧
  (∀ w message, pageContextCache (onMessage (PAGE_CONTEXT_UPDATE message) None w).2
                  = pageContextCache w ∧
                forwarded (onMessage (PAGE_CONTEXT_UPDATE message) None w).2
                  = forwarded w ++ [forward message None]).
Proof.
  refine (conj _ (conj _ _)).
  - intros w t message later asker Ht Hl. cbn [onMessage fst].
    assert (H : ∀ w0, pageContextCache (serve w0 later) !! t = pageContextCache w0 !! t).
    { induction later as [|r later IH]; intros w0; [done|].
      cbn in Hl. apply andb_true_iff in Hl as [Hr Hl]. apply negb_true_iff in Hr.
      unfold serve. cbn [foldl]. fold (serve (onMessage r.1 r.2 w0).2 later).
      rewrite (IH Hl). by apply other_requests_keep_entry. }
    rewrite H. cbn. apply Z.eqb_neq in Ht. rewrite Ht, lookup_insert_eq. done.
  - intros w t requests. revert w. induction requests as [|r requests IH]; intros w H; [done|].
    apply IH. by apply requests_keep_entry.
  - done.
Qed.

(** An update from tab 7, then a request and an update from tab 9. *)
Lemma cached_context_witness :
  let w := {| browser := Worker.sample_chrome; pageContextCache := ∅; forwarded := [] |} in
  let message := [("type", JStr "PAGE_CONTEXT_UPDATE"); ("site", JStr "geico")] in
  (7 ≠ 0)%Z ∧
  (onMessage (GET_CACHED_CONTEXT 7) None
     (serve (onMessage (PAGE_CONTEXT_UPDATE message) (Some 7%Z) w).2
        [(GET_TAB_STATE, None); (PAGE_CONTEXT_UPDATE [("site", JStr "bhhc")], Some 9%Z)])).1
    = Some (JObj [("success", JBool true); ("context", JObj message)]).
Proof.
  assert (H : (7 ≠ 0)%Z) by discriminate.
  split; [exact H|].
  exact (proj1 cached_context_is_the_latest_update
           {| browser := Worker.sample_chrome; pageContextCache := ∅; forwarded := [] |} 7%Z
           [("type", JStr "PAGE_CONTEXT_UPDATE"); ("site", JStr "geico")]
           [(GET_TAB_STATE, None); (PAGE_CONTEXT_UPDATE [("site", JStr "bhhc")], Some 9%Z)]
           None H eq_refl).
Defined.

End ListenerFacts.

(** ** Page snapshots *)

Module PageStateFacts.
Import JS BrowserTools PageState MarkupFacts.


(** X16. In the content script's list of form controls the value of a
    password input is reported as "***", and no reported value is longer
    than 50 characters. *)
Theorem form_snapshot_masks_passwords pg entry :
  entry ∈ extractForms pg →
  (get entry "type" = JStr "password" → get entry "value" = JStr "***") ∧
  (∀ v, get entry "value" = JStr v → String.length v ≤ 50).
Proof.
  unfold extractForms. intros (el & -> & _)%list_elem_of_fmap.
  change (get (form_entry pg el) "type") with (opt_str (el_type (facets pg el))).
  change (get (form_entry pg el) "value")
    with (if bool_decide (el_type (facets pg el) = Some "password") then JStr "***"
          else opt_str (take_chars 50 <$> el_value (store (doc pg) el))).
  split.
  - destruct (el_type (facets pg el)) as [ty|]; [|done]. intros [= ->].
    by rewrite bool_decide_eq_true_2.
  - intros v. case_bool_decide.
    + intros [= <-]. cbn. lia.
    + destruct (el_value (store (doc pg) el)) as [x|]; [|done]. intros [= <-].
      apply take_chars_length.
Qed.

(** The password input of the login page. *)
Lemma form_snapshot_witness :
  let entry := form_entry login_page 1 in
  entry ∈ extractForms login_page ∧
  (get entry "type" = JStr "password" → get entry "value" = JStr "***") ∧
  (∀ v, get entry "value" = JStr v → String.length v ≤ 50).
Proof.
  assert (H : form_entry login_page 1 ∈ extractForms login_page) by (right; left).
  exact (conj H (form_snapshot_masks_passwords login_page _ H)).
Defined.

(** X17. The snapshot that the service worker injects reports at most
    50 elements, and for each of them the first 100 characters of its
    value whatever its type: the value of a password input is reported
    as it is. *)
Theorem worker_snapshot_reports_values_as_they_are pg :
  length (snapshot_elements pg) ≤ 50 ∧
  ∀ i el v,
    i < 50 →
    querySelectorAll (doc pg) "input, select, textarea, button" !! i = Some el →
    el_value (store (doc pg) el) = Some v →
    ∃ entry, snapshot_elements pg !! i = Some entry ∧
             get entry "type" = opt_str (el_type (facets pg el)) ∧
             get entry "value" = JStr (take_chars 100 v).
Proof.
  split.
  - unfold snapshot_elements. rewrite length_fmap, length_take. lia.
  - intros i el v Hi Hel Hv. exists (snapshot_entry pg el). split.
    + unfold snapshot_elements. by rewrite list_lookup_fmap, lookup_take_lt, Hel.
    + split; [reflexivity|].
      change (get (snapshot_entry pg el) "value")
        with (opt_str (take_chars 100 <$> el_value (store (doc pg) el))).
      by rewrite Hv.
Qed.

(** The password input of the login page. *)
Lemma worker_snapshot_witness :
  1 < 50 ∧
  ∃ entry, snapshot_elements login_page !! 1 = Some entry ∧
           get entry "type" = JStr "password" ∧ get entry "value" = JStr "hunter2".
Proof.
  split; [lia|].
  exact (proj2 (worker_snapshot_reports_values_as_they_are login_page) 1 1 "hunter2"
           ltac:(lia) eq_refl eq_refl).
Defined.

End PageStateFacts.

(** ** Operations of the service worker *)

Module OperationFacts.
Import JS Worker.

Lemma executeScript_navigated c t f r c' :
  executeScript c t f = Ok (r, c') → navigated c' = navigated c.
Proof.
  unfold executeScript. destruct (page c t) as [d|]; [|done]. cbn.
  destruct (f d) as [[r0 d']|]; [by intros [= _ <-]|].
  destruct (throw_rejects c); [done|by intros [= _ <-]].
Qed.

Lemma in_active_tab_navigated c f r c' :
  in_active_tab c f = Ok (r, c') → navigated c' = navigated c.
Proof.
  unfold in_active_tab. destruct (active_tab c) as [[t|]|]; cbn; [|by intros [= _ <-]|done].
  destruct (executeScript c (tab_id t) f) as [[r0 c0]|] eqn:E; cbn; [|done].
  intros [= _ <-]. by eapply executeScript_navigated.
Qed.

(** X19. chrome.tabs.update is called by the navigate action only: any
    other action, and a navigate that fails, leaves the list of
    navigations as it was; a navigate that succeeds adds the active tab
    with the requested URL and reports that tab's id. *)
Theorem only_navigate_moves_a_tab c a :
  let r := executeBrowserAction c a in
  navigated r.2 = navigated c ∨
  (SidePanel.action a = "navigate" ∧
   ∃ t, active_tab c = Ok (Some t) ∧
        navigated r.2 = navigated c ++ [(tab_id t, SidePanel.url a)] ∧
        r.1 = success [("tabId", JNum (tab_id t))]).
Proof.
  cbn zeta. unfold executeBrowserAction.
  destruct (String.eqb (SidePanel.action a) "navigate") eqn:Hn.
  - apply String.eqb_eq in Hn. unfold navigateToUrl.
    destruct (active_tab c) as [[t|]|]; cbn; [|by left..].
    destruct (tabs_update c (tab_id t) (SidePanel.url a)); cbn; [|by left].
    right. split; [done|]. by exists t.
  - left.
    set (attempt := if String.eqb (SidePanel.action a) "screenshot" then _ else _).
    assert (H : ∀ r c', attempt = Ok (r, c') → navigated c' = navigated c).
    { intros r c'. unfold attempt.
      repeat (case_match; [try (apply in_active_tab_navigated)|]).
      all: try (by intros [= _ <-]).
      - unfold captureScreenshot. by destruct (captureVisibleTab c); intros [= _ <-].
      - unfold getTabState. destruct (active_tab c) as [[t|]|]; cbn; try done;
          by intros [= _ <-].
      - unfold getSpecificTabState. by destruct (tabs_get c _); intros [= _ <-].
      - unfold executeInTab. destruct (active_tab c) as [[t|]|]; cbn;
          [|by intros [= _ <-]|done].
        destruct (new_Function c _); cbn; [|done].
        destruct (executeScript _ _ _) as [[r0 c0]|] eqn:E; cbn; [|done].
        intros [= _ <-]. by eapply executeScript_navigated.
      - unfold getPageState. destruct (active_tab c) as [[t|]|]; cbn;
          [|by intros [= _ <-]|done].
        destruct (executeScript _ _ _) as [[r0 c0]|] eqn:E; cbn; [|done].
        intros [= _ <-]. by eapply executeScript_navigated. }
    destruct attempt as [[r c']|]; [by eapply H|done].
Qed.






End OperationFacts.

(** ** The earlier service worker *)

Module LegacyFacts.
Import JS.
Import LegacyWorker.

Lemma sendToAgent_spec f s :
  ws (sendToAgent f s).2 = ws s ∧
  sent (sendToAgent f s).2 =
    sent s ++ match ws s with Some SidePanel.OPEN => [f] | _ => [] end.
Proof.
  unfold sendToAgent. destruct (ws s) as [[]|] eqn:Hw; cbn; rewrite ?app_nil_r, ?Hw; done.
Qed.

Lemma handleAgentMessage_closed c data s :
  ws s ≠ Some SidePanel.OPEN →
  ws (handleAgentMessage c data s).1 = ws s ∧
  sent (handleAgentMessage c data s).1 = sent s.
Proof.
  intros Hw. destruct data; cbn [handleAgentMessage]; try done.
  destruct (executeBrowserAction c a) as [result c']. cbn [fst snd].
  destruct (sendToAgent_spec
              (SidePanel.out_browser_action_result (SidePanel.actionId a) result) s)
    as [-> ->].
  split; [done|]. destruct (ws s) as [[]|]; try done; by rewrite app_nil_r.
Qed.

(** X22. While its socket is not open, the earlier service worker hands
    nothing to the socket, whatever frames it handles: the result of a
    browser action that it executes in that state is not reported, and
    sendToAgent returns false. *)
Theorem legacy_worker_sends_nothing_while_closed c frames s :
  ws s ≠ Some SidePanel.OPEN →
  ws (handle_all c s frames).1 = ws s ∧ sent (handle_all c s frames).1 = sent s ∧
  ∀ f, (sendToAgent f (handle_all c s frames).1).1 = false.
Proof.
  intros Hw.
  assert (H : ws (handle_all c s frames).1 = ws s ∧ sent (handle_all c s frames).1 = sent s).
  { unfold handle_all. revert c s Hw. induction frames as [|data frames IH]; intros c s Hw.
    - done.
    - cbn [foldl fst snd].
      destruct (handleAgentMessage_closed c data s Hw) as [Hw' Hs'].
      destruct (handleAgentMessage c data s) as [s' c'] eqn:E. cbn [fst snd] in *.
      destruct (IH c' s') as [-> ->]; [congruence|]. done. }
  destruct H as [H1 H2]. refine (conj H1 (conj H2 _)).
  intros f. unfold sendToAgent. rewrite H1. by destruct (ws s) as [[]|].
Qed.

(** A navigate action handled before the socket has opened. *)
Lemma legacy_worker_closed_witness :
  let a := Worker.sample_action "navigate" "" "" in
  let r := handle_all Worker.sample_chrome initial
             [SidePanel.browser_action a; SidePanel.response_start] in
  ws initial ≠ Some SidePanel.OPEN ∧
  ws r.1 = ws initial ∧ sent r.1 = sent initial ∧
  ∀ f, (sendToAgent f r.1).1 = false.
Proof.
  assert (H : ws initial ≠ Some SidePanel.OPEN) by discriminate.
  exact (conj H (legacy_worker_sends_nothing_while_closed Worker.sample_chrome
                   [SidePanel.browser_action (Worker.sample_action "navigate" "" "");
                    SidePanel.response_start] initial H)).
Defined.

(** X23. handleAgentMessage of the earlier service worker either relays
    or executes: a frame that is not a browser action reaches the socket
    and the browser not at all and is broadcast at most once; a browser
    action is executed, never broadcast, and its result is sent when the
    socket is open. *)
Theorem legacy_worker_relays_or_executes c data s :
  let r := handleAgentMessage c data s in
  ws r.1 = ws s ∧ timers r.1 = timers s ∧
  match data with
  | SidePanel.browser_action a =>
      broadcasts r.1 = broadcasts s ∧
      r.2 = (executeBrowserAction c a).2 ∧
      sent r.1 = sent s ++
        match ws s with
        | Some SidePanel.OPEN =>
            [SidePanel.out_browser_action_result (SidePanel.actionId a)
               (executeBrowserAction c a).1]
        | _ => []
        end
  | _ =>
      sent r.1 = sent s ∧ r.2 = c ∧
      (broadcasts r.1 = broadcasts s ∨ ∃ tag, broadcasts r.1 = broadcasts s ++ [inl tag])
  end.
Proof.
  cbn zeta. destruct data; cbn [handleAgentMessage]; cbn; try (by eauto 10).
  destruct (executeBrowserAction c a) as [result c'] eqn:E. cbn.
  unfold sendToAgent. destruct (ws s) as [[]|] eqn:Hw; cbn; rewrite ?app_nil_r, ?Hw; done.
Qed.

End LegacyFacts.

(** ** Operations of the content script *)

Module ContentFacts.
Import JS BrowserTools.

Lemma store_update_ne h el f d : h ≠ el → store (update el f d) h = store d h.
Proof. intros H. cbn. by destruct (decide (h = el)). Qed.




End ContentFacts.
